(** * crono: schedule calculator, runner and engine

    A shallow embedding of the scheduling core of crono
    (package [scheduler]: [NextRun], [nextAtTime], [parseDur], [parseHH],
    [parseMM], [Engine.Run], [Engine.runOnce]) and of the executor
    (package [execer]: [RunShell]), together with the parts of the Go
    standard library they call ([strings], [time], [fmt.Sscanf],
    [math/rand], [os/exec] with the environment it hands to a child).

    Conventions.
    - A Go [string] is a sequence of bytes: [string] of the Standard Library.
      The functions of package [strings] are modelled on ASCII; bytes above
      127 are never white space and are left alone by [ToLower].  On a text
      with such a byte Go decodes UTF-8, takes U+0085, U+00A0 and the other
      spaces of Unicode for white space and maps the letters beyond ASCII,
      which the model does not follow: where a statement about a text could
      depend on it, the text is one of ASCII bytes ([isASCII]).
    - A Go [int], [int64] or [time.Duration] is a [Z]; where the source can
      overflow, the wrap-around is written with [wrap64].
    - A [time.Time] is an absolute instant in nanoseconds since the Unix
      epoch together with its [Location]; the instants are not bounded (Go
      stores 64-bit seconds, which saturate some 292 billion years away from
      the epoch), and the monotonic clock reading is left out.
    - A function that may fail returns a [result]: [Ok], [Err] (a Go [error])
      or [Panic] (a run-time panic). *)

From Stdlib Require Import ZArith String Ascii List Bool Lia Permutation.
From Stdlib Require Import SpecFloat.
From stdpp Require Import gmap strings list fin_maps.

Open Scope Z_scope.

(** ** Results and machine integers *)

Inductive result (A : Type) : Type :=
| Ok (a : A)
| Err (msg : string)
| Panic (msg : string).
Arguments Ok {A} a.
Arguments Err {A} msg.
Arguments Panic {A} msg.

Definition rbind {A B} (r : result A) (k : A -> result B) : result B :=
  match r with
  | Ok a => k a
  | Err e => Err e
  | Panic e => Panic e
  end.

Notation "'let?' x := r 'in' k" := (rbind r (fun x => k))
  (at level 10, x pattern, r at level 100, k at level 200).

Definition MaxInt64 : Z := 2 ^ 63 - 1.
Definition MinInt64 : Z := - 2 ^ 63.

(** Two's complement reduction of an integer to 64 signed bits. *)
Definition wrap64 (z : Z) : Z := (z + 2 ^ 63) mod 2 ^ 64 - 2 ^ 63.

(** Reduction to 64 unsigned bits. *)
Definition wrapU64 (z : Z) : Z := z mod 2 ^ 64.

(** The bounds of [int64], as numerals. *)
Ltac int64 :=
  unfold MinInt64, MaxInt64 in *;
  change (2 ^ 63) with 9223372036854775808 in *;
  change (2 ^ 64) with 18446744073709551616 in *.

(** Go's integer division truncates toward zero. *)
Definition godiv (a b : Z) : Z := Z.quot a b.

(** ** Package strings (ASCII) *)

Module GoStrings.

Definition code (c : ascii) : Z := Z.of_N (N_of_ascii c).

(** [asciiSpace]: tab, newline, vertical tab, form feed, carriage return and
    space. *)
Definition isSpace (c : ascii) : bool :=
  ((9 <=? code c) && (code c <=? 13)) || (code c =? 32).

Definition isDigit (c : ascii) : bool := (48 <=? code c) && (code c <=? 57).

Definition digitVal (c : ascii) : Z := code c - 48.

Definition lower (c : ascii) : ascii :=
  if (65 <=? code c) && (code c <=? 90)
  then ascii_of_N (N_of_ascii c + 32) else c.

Fixpoint ToLower (s : string) : string :=
  match s with
  | EmptyString => EmptyString
  | String c r => String (lower c) (ToLower r)
  end.

Fixpoint TrimLeftSpace (s : string) : string :=
  match s with
  | EmptyString => EmptyString
  | String c r => if isSpace c then TrimLeftSpace r else s
  end.

Fixpoint TrimRightSpace (s : string) : string :=
  match s with
  | EmptyString => EmptyString
  | String c r =>
      match TrimRightSpace r with
      | EmptyString => if isSpace c then EmptyString else String c EmptyString
      | r' => String c r'
      end
  end.

Definition TrimSpace (s : string) : string := TrimRightSpace (TrimLeftSpace s).

Fixpoint HasPrefix (s prefix : string) {struct prefix} : bool :=
  match prefix with
  | EmptyString => true
  | String p ps =>
      match s with
      | EmptyString => false
      | String c cs => Ascii.eqb c p && HasPrefix cs ps
      end
  end.

(** [s[n:]] for [n <= len(s)]. *)
Fixpoint drop (n : nat) (s : string) : string :=
  match n with
  | O => s
  | S n' => match s with EmptyString => EmptyString | String _ r => drop n' r end
  end.

(** [s[:n]] for [n <= len(s)]. *)
Fixpoint take (n : nat) (s : string) : string :=
  match n with
  | O => EmptyString
  | S n' =>
      match s with
      | EmptyString => EmptyString
      | String c r => String c (take n' r)
      end
  end.

(** [len(s) >= len(suffix) && s[len(s)-len(suffix):] == suffix] *)
Definition HasSuffix (s suffix : string) : bool :=
  (String.length suffix <=? String.length s)%nat
  && String.eqb (drop (String.length s - String.length suffix) s) suffix.

Fixpoint Contains (s substr : string) : bool :=
  HasPrefix s substr
  || match s with
     | EmptyString => false
     | String _ r => Contains r substr
     end.

Definition TrimPrefix (s prefix : string) : string :=
  if HasPrefix s prefix then drop (String.length prefix) s else s.

(** [Cut(s, sep) = (before, after, found)], around the first [sep]. *)
Fixpoint Cut (s sep : string) : string * string * bool :=
  if HasPrefix s sep then (EmptyString, drop (String.length sep) s, true)
  else match s with
       | EmptyString => (EmptyString, EmptyString, false)
       | String c r =>
           let '(b, a, found) := Cut r sep in (String c b, a, found)
       end.

(** [Fields]: the maximal runs of bytes that are not white space; [word] is
    the run being read. *)
Fixpoint FieldsFrom (s word : string) : list string :=
  match s with
  | EmptyString =>
      match word with EmptyString => [] | _ => [word] end
  | String c r =>
      if isSpace c
      then match word with
           | EmptyString => FieldsFrom r EmptyString
           | _ => word :: FieldsFrom r EmptyString
           end
      else FieldsFrom r (word +:+ String c EmptyString)
  end.

Definition Fields (s : string) : list string := FieldsFrom s EmptyString.

(** [SplitN(s, sep, n)] for a non-empty [sep] and [n >= 0]. *)
Fixpoint SplitN (s sep : string) (n : nat) : list string :=
  match n with
  | O => []
  | S O => [s]
  | S n' =>
      let '(b, a, found) := Cut s sep in
      if found then b :: SplitN a sep n' else [s]
  end.

(** [s[len(s)-1]], when [s] is not empty. *)
Fixpoint lastByte (s : string) : option ascii :=
  match s with
  | EmptyString => None
  | String c EmptyString => Some c
  | String _ r => lastByte r
  end.

(** [without c s]: the byte [c] does not occur in [s]. *)
Fixpoint without (c : ascii) (s : string) : bool :=
  match s with
  | EmptyString => true
  | String c' r => negb (Ascii.eqb c' c) && without c r
  end.

(** A text of ASCII bytes: no byte is [utf8.RuneSelf] (128) or above, so
    that [TrimSpace], [Fields], [ToLower] and the scanner of [fmt] stay on
    the paths modelled here. *)
Fixpoint isASCII (s : string) : bool :=
  match s with
  | EmptyString => true
  | String c r => (code c <? 128) && isASCII r
  end.

End GoStrings.
Import GoStrings.

(** ** Package time: durations *)

Module GoTime.

Definition Nanosecond : Z := 1.
Definition Microsecond : Z := 1000 * Nanosecond.
Definition Millisecond : Z := 1000 * Microsecond.
Definition Second : Z := 1000 * Millisecond.
Definition Minute : Z := 60 * Second.
Definition Hour : Z := 60 * Minute.

(** The two spellings of the micro sign, as UTF-8 bytes. *)
Definition micro_B5 : string :=
  String (ascii_of_nat 194) (String (ascii_of_nat 181) "s").
Definition micro_3BC : string :=
  String (ascii_of_nat 206) (String (ascii_of_nat 188) "s").

Definition unitMap (u : string) : option Z :=
  if String.eqb u "ns" then Some Nanosecond
  else if String.eqb u "us" then Some Microsecond
  else if String.eqb u micro_B5 then Some Microsecond
  else if String.eqb u micro_3BC then Some Microsecond
  else if String.eqb u "ms" then Some Millisecond
  else if String.eqb u "s" then Some Second
  else if String.eqb u "m" then Some Minute
  else if String.eqb u "h" then Some Hour
  else None.

(** [leadingInt]: the leading decimal digits as a [uint64]; [None] is
    [errLeadingInt] (overflow). *)
Fixpoint leadingIntFrom (s : string) (x : Z) : option (Z * string) :=
  match s with
  | EmptyString => Some (x, EmptyString)
  | String c r =>
      if isDigit c then
        if x >? 2 ^ 63 / 10 then None
        else
          let x' := x * 10 + digitVal c in
          if x' >? 2 ^ 63 then None else leadingIntFrom r x'
      else Some (x, s)
  end.

Definition leadingInt (s : string) : option (Z * string) := leadingIntFrom s 0.

(** [leadingFraction]: digits after the point, as the pair [x], [scale] with
    value [x/scale]; digits that would overflow are dropped. *)
Fixpoint leadingFractionFrom (s : string) (x scale : Z) (overflow : bool)
  : Z * Z * string :=
  match s with
  | EmptyString => (x, scale, EmptyString)
  | String c r =>
      if isDigit c then
        if overflow then leadingFractionFrom r x scale true
        else if x >? (2 ^ 63 - 1) / 10 then leadingFractionFrom r x scale true
        else
          let y := x * 10 + digitVal c in
          if y >? 2 ^ 63 then leadingFractionFrom r x scale true
          else leadingFractionFrom r y (scale * 10) false
      else (x, scale, s)
  end.

Definition leadingFraction (s : string) : Z * Z * string :=
  leadingFractionFrom s 0 1 false.

(** The unit: the bytes up to the next ['.'] or digit. *)
Fixpoint unitSpan (s : string) : string * string :=
  match s with
  | EmptyString => (EmptyString, EmptyString)
  | String c r =>
      if Ascii.eqb c "."%char || isDigit c then (EmptyString, s)
      else let '(u, rest) := unitSpan r in (String c u, rest)
  end.

(** IEEE 754 binary64, as the executable specification of the Standard
    Library. *)
Definition f64_of_Z (z : Z) : spec_float := binary_normalize 53 1024 z 0 false.
Definition f64_mul : spec_float -> spec_float -> spec_float := SFmul 53 1024.
Definition f64_div : spec_float -> spec_float -> spec_float := SFdiv 53 1024.

(** Conversion of a non-negative finite float to [uint64], truncating. *)
Definition f64_to_uint (x : spec_float) : Z :=
  match x with
  | S754_finite false m e =>
      if 0 <=? e then Z.pos m * 2 ^ e else Z.pos m / 2 ^ (- e)
  | _ => 0
  end.

(** [uint64(float64(f) * (float64(unit) / scale))] *)
Definition fracUnits (f unit scale : Z) : Z :=
  f64_to_uint (f64_mul (f64_of_Z f) (f64_div (f64_of_Z unit) (f64_of_Z scale))).

(** The errors of [ParseDuration]; Go appends the quoted input to each. *)
Definition errInvalid : string := "time: invalid duration".
Definition errMissingUnit : string := "time: missing unit in duration".
Definition errUnknownUnit : string := "time: unknown unit in duration".

(** The number of a group: the digits before the point as [v], those after
    it as [f/scale], and the rest of the string. *)
Definition readNumber (s : string) : result (Z * Z * Z * string) :=
  match leadingInt s with
  | None => Err errInvalid
  | Some (v, s1) =>
      let pre := negb (String.length s =? String.length s1)%nat in
      let '(f, scale, s2, post) :=
        match s1 with
        | String c1 s1' =>
            if Ascii.eqb c1 "."%char then
              let '(f, scale, s2) := leadingFraction s1' in
              (f, scale, s2, negb (String.length s1' =? String.length s2)%nat)
            else (0, 1, s1, false)
        | EmptyString => (0, 1, s1, false)
        end in
      if negb pre && negb post then Err errInvalid
      else Ok (v, f, scale, s2)
  end.

(** The group [v + f/scale] in [unit] added to the [uint64] accumulator [d],
    with the overflow checks of the source. *)
Definition addGroup (d v f scale unit : Z) : result Z :=
  if v >? 2 ^ 63 / unit then Err errInvalid
  else
    let v1 := v * unit in
    let v2 := if f >? 0 then wrapU64 (v1 + fracUnits f unit scale) else v1 in
    if (f >? 0) && (v2 >? 2 ^ 63) then Err errInvalid
    else
      let d' := wrapU64 (d + v2) in
      if d' >? 2 ^ 63 then Err errInvalid else Ok d'.

(** The loop of [ParseDuration] over the groups "digits, optional point and
    digits, unit"; [d] is the [uint64] accumulator.  Every round consumes at
    least one byte, so [String.length s] rounds suffice. *)
Fixpoint parseGroups (fuel : nat) (s : string) (d : Z) : result Z :=
  match s with
  | EmptyString => Ok d
  | String c0 _ =>
      match fuel with
      | O => Err errInvalid
      | S fuel' =>
          if negb (Ascii.eqb c0 "."%char || isDigit c0) then Err errInvalid
          else
            match readNumber s with
            | Ok (v, f, scale, s2) =>
                let '(u, s3) := unitSpan s2 in
                match u with
                | EmptyString => Err errMissingUnit
                | _ =>
                    match unitMap u with
                    | None => Err errUnknownUnit
                    | Some unit =>
                        match addGroup d v f scale unit with
                        | Ok d' => parseGroups fuel' s3 d'
                        | Err e => Err e
                        | Panic e => Panic e
                        end
                    end
                end
            | Err e => Err e
            | Panic e => Panic e
            end
      end
  end.

Definition ParseDuration (s : string) : result Z :=
  let '(neg, s') :=
    match s with
    | String c r =>
        if Ascii.eqb c "-"%char then (true, r)
        else if Ascii.eqb c "+"%char then (false, r)
        else (false, s)
    | EmptyString => (false, s)
    end in
  if String.eqb s' "0" then Ok 0
  else if String.eqb s' "" then Err errInvalid
  else
    let? d := parseGroups (String.length s') s' 0 in
    if neg then Ok (wrap64 (- d))
    else if d >? 2 ^ 63 - 1 then Err errInvalid
    else Ok d.

End GoTime.
Import GoTime.

(** ** Package time: locations, instants and the civil calendar *)

Module GoCalendar.

(** A time zone: the offset (seconds east of UTC) in force before the first
    transition, and the transitions [(when, offset)] in increasing order of
    [when] (Unix seconds).  The rule string that extends a zone beyond its
    table is left out. *)
Record Location : Type := mkLocation {
  zoneName : string;
  zoneFirst : Z;
  zoneTx : list (Z * Z)
}.

Definition UTC : Location := mkLocation "UTC" 0 [].

Definition FixedZone (name : string) (offset : Z) : Location :=
  mkLocation name offset [].

Definition alpha : Z := MinInt64.
Definition omega : Z := MaxInt64.

(** [Location.lookup]: the offset in force at [sec] and the interval
    [[start, end)] over which it is. *)
Fixpoint lookupTx (tx : list (Z * Z)) (sec off start : Z) : Z * Z * Z :=
  match tx with
  | [] => (off, start, omega)
  | (w, o) :: rest =>
      if sec <? w then (off, start, w) else lookupTx rest sec o w
  end.

Definition lookup (l : Location) (sec : Z) : Z * Z * Z :=
  lookupTx (zoneTx l) sec (zoneFirst l) alpha.

Definition offsetAt (l : Location) (sec : Z) : Z := fst (fst (lookup l sec)).

Record Time : Type := mkTime {
  unixNano : Z;
  location : Location
}.

Definition secondsPerDay : Z := 86400.

Definition unixSec (t : Time) : Z := unixNano t / Second.

(** Seconds since the epoch on the wall clock of [t]'s location. *)
Definition wallSec (t : Time) : Z := unixSec t + offsetAt (location t) (unixSec t).

Definition wallDays (t : Time) : Z := wallSec t / secondsPerDay.

(** Days since 1970-01-01 of a date of the proleptic Gregorian calendar,
    for a month in [1, 12]; linear in [d]. *)
Definition daysFromCivil (y m d : Z) : Z :=
  let y' := if m <=? 2 then y - 1 else y in
  let era := y' / 400 in
  let yoe := y' - era * 400 in
  let mp := if 2 <? m then m - 3 else m + 9 in
  let doy := (153 * mp + 2) / 5 + d - 1 in
  let doe := yoe * 365 + yoe / 4 - yoe / 100 + doy in
  era * 146097 + doe - 719468.

(** Year, month and day of a day number. *)
Definition civilFromDays (z : Z) : Z * Z * Z :=
  let z' := z + 719468 in
  let era := z' / 146097 in
  let doe := z' - era * 146097 in
  let yoe := (doe - doe / 1460 + doe / 36524 - doe / 146096) / 365 in
  let doy := doe - (365 * yoe + yoe / 4 - yoe / 100) in
  let mp := (5 * doy + 2) / 153 in
  let d := doy - (153 * mp + 2) / 5 + 1 in
  let m := if mp <? 10 then mp + 3 else mp - 9 in
  ((if m <=? 2 then yoe + era * 400 + 1 else yoe + era * 400), m, d).

Definition Year (t : Time) : Z := fst (fst (civilFromDays (wallDays t))).
Definition Month (t : Time) : Z := snd (fst (civilFromDays (wallDays t))).
Definition Day (t : Time) : Z := snd (civilFromDays (wallDays t)).

(** [Sunday = 0], ..., [Saturday = 6]; 1970-01-01 was a Thursday. *)
Definition Sunday : Z := 0.
Definition Monday : Z := 1.
Definition Friday : Z := 5.
Definition Saturday : Z := 6.

Definition Weekday (t : Time) : Z := (wallDays t + 4) mod 7.

Definition Hour_of (t : Time) : Z := (wallSec t mod secondsPerDay) / 3600.
Definition Minute_of (t : Time) : Z := (wallSec t mod 3600) / 60.
Definition Second_of (t : Time) : Z := wallSec t mod 60.

(** [time.Date]: the instant at which the wall clock of [loc] shows the
    given date and time.  Values out of range are normalised as Go does
    (months carry into years, the rest is linear). *)
Definition Date (year month day hour min sec nsec : Z) (loc : Location) : Time :=
  let y := year + (month - 1) / 12 in
  let m := (month - 1) mod 12 + 1 in
  let unix :=
    daysFromCivil y m day * secondsPerDay + hour * 3600 + min * 60 + sec in
  let '(offset, start, end_) := lookup loc unix in
  let unix' :=
    if offset =? 0 then unix
    else
      let utc := unix - offset in
      if (utc <? start) || (end_ <=? utc)
      then unix - offsetAt loc utc
      else unix - offset in
  mkTime (unix' * Second + nsec) loc.

Definition In (t : Time) (loc : Location) : Time := mkTime (unixNano t) loc.

Definition Add (t : Time) (d : Z) : Time := mkTime (unixNano t + d) (location t).

Definition After (t u : Time) : bool := unixNano u <? unixNano t.
Definition Before (t u : Time) : bool := unixNano t <? unixNano u.

End GoCalendar.
Import GoCalendar.

(** ** Package fmt: [Sscanf(s, "%d", &v)] *)

Module GoFmt.

(** [SkipSpace] of a [Sscanf]: white space is skipped, a newline is an
    error. *)
Fixpoint SkipSpace (s : string) : option string :=
  match s with
  | EmptyString => Some EmptyString
  | String c r =>
      if code c =? 10 then None
      else if isSpace c then SkipSpace r
      else Some s
  end.

(** The digits a [%d] accepts: [decimalDigits = "0123456789_"]. *)
Definition isDecimalDigit (c : ascii) : bool := isDigit c || (code c =? 95).

Fixpoint digitSpan (s : string) : string * string :=
  match s with
  | EmptyString => (EmptyString, EmptyString)
  | String c r =>
      if isDecimalDigit c
      then let '(ds, rest) := digitSpan r in (String c ds, rest)
      else (EmptyString, s)
  end.

(** The value of a run of decimal digits; [None] when a byte is not a digit
    (an underscore is a syntax error for [strconv.ParseInt] in base 10). *)
Fixpoint decimalFrom (s : string) (acc : Z) : option Z :=
  match s with
  | EmptyString => Some acc
  | String c r =>
      if isDigit c then decimalFrom r (acc * 10 + digitVal c) else None
  end.

(** [strconv.ParseInt(sign ++ digits, 10, 64)] for a non-empty run. *)
Definition ParseInt (neg : bool) (digits : string) : option Z :=
  match decimalFrom digits 0 with
  | None => None
  | Some v =>
      let x := if neg then - v else v in
      if (MinInt64 <=? x) && (x <=? MaxInt64) then Some x else None
  end.

(** [scanInt] for the verb [%d] and an [int] operand: [None] is any scan
    error (unexpected newline, end of input, no digit, syntax, range). *)
Definition scanInt (s : string) : option Z :=
  match SkipSpace s with
  | None => None
  | Some EmptyString => None
  | Some (String c r as s1) =>
      let '(neg, s2) :=
        if Ascii.eqb c "-"%char then (true, r)
        else if Ascii.eqb c "+"%char then (false, r)
        else (false, s1) in
      let '(digits, _) := digitSpan s2 in
      match digits with
      | EmptyString => None
      | _ => ParseInt neg digits
      end
  end.

(** [var v int; fmt.Sscanf(s, "%d", &v)]: the operand keeps its zero value
    when the scan fails. *)
Definition Sscanf_d (s : string) : Z :=
  match scanInt s with
  | Some v => v
  | None => 0
  end.

End GoFmt.
Import GoFmt.

(** ** Package scheduler: the schedule calculator *)

Module Scheduler.

(** The zones of the host: [time.Local], and [time.LoadLocation] over the
    system's zone database ([None]: the name cannot be loaded). *)
Record Zones : Type := mkZones {
  Local : Location;
  LoadLocation : string -> option Location
}.

Definition clampInt (lo hi v : Z) : Z :=
  let v := if v <? lo then lo else v in
  if v >? hi then hi else v.

Definition parseHH (hhmm : string) : Z :=
  match SplitN hhmm ":" 2 with
  | [] => 0
  | p0 :: _ => clampInt 0 23 (Sscanf_d p0)
  end.

Definition parseMM (hhmm : string) : Z :=
  match SplitN hhmm ":" 2 with
  | _ :: p1 :: _ => clampInt 0 59 (Sscanf_d p1)
  | _ => 0
  end.

(** [string(unit)] for a byte [unit]: the UTF-8 encoding of the code point
    of that value. *)
Definition runeString (c : ascii) : string :=
  if code c <? 128 then String c EmptyString
  else String (ascii_of_N (192 + N_of_ascii c / 64))
         (String (ascii_of_N (128 + N_of_ascii c mod 64)) EmptyString).

Definition parseDur (s : string) : result Z :=
  let s := TrimSpace s in
  match lastByte s with
  | None => Panic "index out of range [-1]"
  | Some unit =>
      let value := take (String.length s - 1) s in
      match ParseDuration (value +:+ runeString unit) with
      | Ok n => Ok n
      | Panic e => Panic e
      | Err e =>
          if Ascii.eqb unit "d"%char then
            let? h := ParseDuration (value +:+ "h") in
            Ok (wrap64 (h * 24))
          else Err e
      end
  end.

(** [for weekdayOnly { ... }]: the candidate moves on by 24 hours until it
    falls on Monday to Friday; [None] when [fuel] rounds do not reach one. *)
Fixpoint weekdayLoop (fuel : nat) (cand : Time) : option Time :=
  let wd := Weekday cand in
  if (Monday <=? wd) && (wd <=? Friday) then Some cand
  else match fuel with
       | O => None
       | S fuel' => weekdayLoop fuel' (Add cand (24 * Hour))
       end.

Definition nextAtTime (fuel : nat) (from : Time) (hhmm : string)
    (loc : Location) (weekdayOnly : bool) : option Time :=
  let h := parseHH hhmm in
  let m := parseMM hhmm in
  let in_ := In from loc in
  let cand := Date (Year in_) (Month in_) (Day in_) h m 0 0 loc in
  let cand := if negb (After cand in_) then Add cand (24 * Hour) else cand in
  let cand := if weekdayOnly then weekdayLoop fuel cand else Some cand in
  option_map (fun c => In c (location from)) cand.

(** [for !t.After(from.In(loc)) { t = t.Add(d) }]; [None] when the loop is
    still running after [fuel] rounds. *)
Fixpoint anchorLoop (fuel : nat) (t fromIn : Time) (d : Z) : option Time :=
  if After t fromIn then Some t
  else match fuel with
       | O => None
       | S fuel' => anchorLoop fuel' (Add t d) fromIn d
       end.

(** The verb [%q]: the string between double quotes (escapes left out). *)
Definition quote (s : string) : string :=
  String (ascii_of_nat 34) (s +:+ String (ascii_of_nat 34) EmptyString).

(** The zone of a clock-time form: the field after [HH:MM] when there is
    one, which must load. *)
Definition clockZone (tz : Zones) (rest : list string) : result Location :=
  match rest with
  | [] => Ok (Local tz)
  | tzName :: _ =>
      match LoadLocation tz tzName with
      | Some lo => Ok lo
      | None => Err ("unknown TZ: " +:+ tzName)
      end
  end.

(** The zone of an anchored interval: the field after [HH:MM] when there is
    one and it loads. *)
Definition anchorZone (tz : Zones) (rest : list string) : Location :=
  match rest with
  | [] => Local tz
  | tzName :: _ =>
      match LoadLocation tz tzName with
      | Some lo => lo
      | None => Local tz
      end
  end.

(** The anchored interval, once the expression is read. *)
Definition anchoredNext (fuel : nat) (from : Time) (d : Z) (hhmm : string)
    (loc : Location) : option (result Time) :=
  let in_ := In from loc in
  let base :=
    Date (Year in_) (Month in_) (Day in_)
         (parseHH hhmm) (parseMM hhmm) 0 0 loc in
  option_map (fun t => Ok (In t (location from))) (anchorLoop fuel base in_ d).

(** [NextRun]: [None] when a loop of the function is still running after
    [fuel] rounds, otherwise what the function returns. *)
Definition NextRun (tz : Zones) (fuel : nat) (expr : string) (from : Time)
  : option (result Time) :=
  let expr := TrimSpace expr in
  let l := ToLower expr in
  if HasPrefix l "every "
     && (HasSuffix l "s" || HasSuffix l "m" || HasSuffix l "h" || HasSuffix l "d")
     && negb (Contains l " at ")
  then
    Some (let? d := parseDur (TrimPrefix l "every ") in Ok (Add from d))
  else if HasPrefix l "at " || HasPrefix l "every day at "
          || HasPrefix l "every weekday at "
  then
    let '(weekdayOnly, l) :=
      if HasPrefix l "every weekday at "
      then (true, TrimPrefix l "every weekday at ")
      else if HasPrefix l "every day at "
      then (false, TrimPrefix l "every day at ")
      else (false, TrimPrefix l "at ") in
    match Fields l with
    | [] => Some (Err "missing time")
    | hhmm :: rest =>
        match clockZone tz rest with
        | Ok loc => option_map Ok (nextAtTime fuel from hhmm loc weekdayOnly)
        | Err e => Some (Err e)
        | Panic e => Some (Panic e)
        end
    end
  else if HasPrefix l "every " && Contains l " starting at "
  then
    let '(before, after, _) := Cut l " starting at " in
    match parseDur (TrimPrefix before "every ") with
    | Err e => Some (Err e)
    | Panic e => Some (Panic e)
    | Ok d =>
        match Fields after with
        | [] => Some (Err "missing time after 'starting at'")
        | hhmm :: rest => anchoredNext fuel from d hhmm (anchorZone tz rest)
        end
    end
  else Some (Err ("unsupported expression (MVP): " +:+ quote expr)).

(** The decimal digits of a number, as the grammar writes it. *)
Fixpoint allDigits (s : string) : bool :=
  match s with
  | EmptyString => true
  | String c r => isDigit c && allDigits r
  end.

Fixpoint digitsValueFrom (s : string) (acc : Z) : Z :=
  match s with
  | EmptyString => acc
  | String c r => digitsValueFrom r (acc * 10 + digitVal c)
  end.

Definition digitsValue (s : string) : Z := digitsValueFrom s 0.

(** The days that [weekdayLoop] moves a candidate on, by its weekday: two
    from a Saturday, one from a Sunday. *)
Definition weekendSkip (wd : Z) : Z :=
  if wd =? Saturday then 2 else if wd =? Sunday then 1 else 0.

(** Today's date in [loc] at [h:m], [k] days on, in a zone of fixed offset:
    the instant whose wall clock shows it. *)
Definition wallClockAt (loc : Location) (day k h m : Z) : Time :=
  mkTime (((day + k) * secondsPerDay + h * 3600 + m * 60 - zoneFirst loc)
          * Second) loc.

(** The units of a pure interval; a day is 24 hours. *)
Definition intervalUnit (u : ascii) : option Z :=
  if Ascii.eqb u "s"%char then Some Second
  else if Ascii.eqb u "m"%char then Some Minute
  else if Ascii.eqb u "h"%char then Some Hour
  else if Ascii.eqb u "d"%char then Some (24 * Hour)
  else None.

End Scheduler.
Import Scheduler.

(** A host in UTC that knows no other zone. *)
Definition utcOnly : Zones := mkZones UTC (fun _ => None).

(** 2024-01-01 08:00:00 UTC. *)
Definition t_2024_01_01_0800 : Time := Date 2024 1 1 8 0 0 0 UTC.

(** Europe/Paris from 2023-10-29 to 2025-03-30: CET (UTC+1), summer time
    (UTC+2) from 2024-03-31 01:00 UTC to 2024-10-27 01:00 UTC. *)
Definition Europe_Paris : Location :=
  mkLocation "Europe/Paris" 3600
    [ (daysFromCivil 2024 3 31 * secondsPerDay + 3600, 7200);
      (daysFromCivil 2024 10 27 * secondsPerDay + 3600, 3600) ].

(** A host whose local zone is Europe/Paris, on a file system that finds
    the zone under its lower-case name as well ([NextRun] lower-cases the
    expression before it reads the zone name). *)
Definition parisHost : Zones :=
  mkZones Europe_Paris
    (fun name =>
       if String.eqb name "europe/paris" then Some Europe_Paris
       else if String.eqb name "UTC" then Some UTC
       else None).

(** ** Package dsl: the job descriptor *)

Record Job : Type := mkJob {
  Name : string;
  Schedule : string;
  Run : string;
  RetryN : Z;
  BackoffA : Z;
  BackoffB : Z;
  Timeout : Z;
  Jitter : Z;
  Overlap : string;
  Env : gmap string string
}.

(** ** Package execer *)

Module Execer.

(** [exec.Cmd]: [CmdEnv = None] is the nil slice, for which the child
    inherits the environment of the parent. *)
Record Cmd : Type := mkCmd {
  CmdPath : string;
  CmdArgs : list string;
  CmdEnv : option (list string)
}.

Definition CommandContext (name : string) (args : list string) : Cmd :=
  mkCmd name args None.

(** [append(c.Env, en...)] *)
Definition appendEnv (old : option (list string)) (en : list string)
  : option (list string) :=
  match old, en with
  | None, [] => None
  | None, _ => Some en
  | Some e, _ => Some (e ++ en)
  end.

Definition entry (kv : string * string) : string := fst kv +:+ "=" +:+ snd kv.

(** The command that [RunShell] starts.  [order] is the order in which
    [range env] yields the entries of the map, which Go leaves unspecified:
    some permutation of [map_to_list env]. *)
Definition shellCmd (goos : string) (command : string)
    (env : gmap string string) (order : list (string * string)) : Cmd :=
  let c :=
    if String.eqb goos "windows"
    then CommandContext "cmd" ["/C"; command]
    else CommandContext "/bin/sh" ["-c"; command] in
  if (0 <? size env)%nat
  then mkCmd (CmdPath c) (CmdArgs c) (appendEnv (CmdEnv c) (entry <$> order))
  else c.

(** *** os/exec: the environment that [Start] hands to the child *)

(** [strings.IndexByte(s, c)]; [None] is [-1]. *)
Fixpoint IndexByte (s : string) (c : ascii) : option nat :=
  match s with
  | EmptyString => None
  | String c' r =>
      if Ascii.eqb c' c then Some O else option_map S (IndexByte r c)
  end.

(** [strings.EqualFold(s, t)] for a [t] of ASCII bytes: a letter of [t] is
    matched by the same letter in either case and, through the simple case
    folding of Unicode, [s] by U+017F (long s, bytes C5 BF) and [k] by
    U+212A (Kelvin sign, bytes E2 84 AA); any other byte by itself. *)
Fixpoint EqualFold (s t : string) {struct t} : bool :=
  match t with
  | EmptyString => String.eqb s EmptyString
  | String u t' =>
      match s with
      | EmptyString => false
      | String c s1 =>
          if Ascii.eqb (lower c) (lower u) then EqualFold s1 t'
          else if Ascii.eqb (lower u) "s"%char then
            match s1 with
            | String c2 s2 =>
                (code c =? 197) && (code c2 =? 191) && EqualFold s2 t'
            | EmptyString => false
            end
          else if Ascii.eqb (lower u) "k"%char then
            match s1 with
            | String c2 (String c3 s3) =>
                (code c =? 226) && (code c2 =? 132) && (code c3 =? 170)
                && EqualFold s3 t'
            | _ => false
            end
          else false
      end
  end.

(** The byte 0. *)
Definition NUL : ascii := ascii_of_nat 0.

(** The end of the key of an entry, in [dedupEnvCase]:
    [i := strings.Index(kv, "=")], and for an entry that begins with [=]
    (seen on Windows) [i = strings.Index(kv[1:], "=") + 1]. *)
Definition keyEnd (kv : string) : option nat :=
  match IndexByte kv "=" with
  | Some O =>
      match IndexByte (drop 1 kv) "=" with
      | Some j => Some (S j)
      | None => Some O
      end
  | i => i
  end.

(** The key under which [dedupEnvCase] remembers an entry; [None] for an
    entry without [=]. *)
Definition envKey (caseInsensitive : bool) (kv : string) : option string :=
  match keyEnd kv with
  | None => None
  | Some i =>
      let k := take i kv in
      Some (if caseInsensitive then ToLower k else k)
  end.

Definition errNUL : string := "exec: environment variable contains NUL".

(** The loop of [dedupEnvCase], which visits the entries from the last to
    the first: [renv] holds the entries still to visit, last first, [saw]
    the keys met and [out] the entries kept, in the order of the slice.  An
    entry with a NUL byte is dropped and sets the error, an entry without
    [=] is kept unless empty, and of the entries of one key the last of the
    slice is kept. *)
Fixpoint dedupFrom (caseInsensitive nulOK : bool) (renv : list string)
    (saw : gset string) (out : list string) (err : option string)
  : list string * option string :=
  match renv with
  | [] => (out, err)
  | kv :: rest =>
      if negb nulOK && negb (without NUL kv)
      then dedupFrom caseInsensitive nulOK rest saw out (Some errNUL)
      else
        match envKey caseInsensitive kv with
        | None =>
            if String.eqb kv EmptyString
            then dedupFrom caseInsensitive nulOK rest saw out err
            else dedupFrom caseInsensitive nulOK rest saw (kv :: out) err
        | Some k =>
            if bool_decide (k ∈ saw)
            then dedupFrom caseInsensitive nulOK rest saw out err
            else dedupFrom caseInsensitive nulOK rest ({[ k ]} ∪ saw)
                   (kv :: out) err
        end
  end.

(** [dedupEnv(env)]:
    [dedupEnvCase(runtime.GOOS == "windows", runtime.GOOS == "plan9", env)]. *)
Definition dedupEnv (goos : string) (env : list string)
  : list string * option string :=
  dedupFrom (String.eqb goos "windows") (String.eqb goos "plan9")
    (reverse env) ∅ [] None.

(** An entry [SYSTEMROOT=...], in any case of the letters. *)
Definition isSystemRoot (kv : string) : bool :=
  let '(k, _, ok) := Cut kv "=" in ok && EqualFold k "SYSTEMROOT".

(** [addCriticalEnv]: on Windows [SYSTEMROOT] is added from the parent,
    [root] being [os.Getenv("SYSTEMROOT")], when no entry sets it. *)
Definition addCriticalEnv (goos root : string) (env : list string)
  : list string :=
  if negb (String.eqb goos "windows") then env
  else if existsb isSystemRoot env then env
  else env ++ ["SYSTEMROOT=" +:+ root].

(** [Cmd.environ], of which [Start] returns the error or hands the list
    to the child: a nil [Env] stands for the environment of the parent, and
    either list goes through [dedupEnv] and [addCriticalEnv].  ([Dir] is
    empty, so that [PWD] is not touched.) *)
Definition environ (goos : string) (parent : list string) (root : string)
    (c : Cmd) : result (list string) :=
  let env := match CmdEnv c with
             | None => parent
             | Some e => e
             end in
  let '(env, err) := dedupEnv goos env in
  match err with
  | Some e => Err e
  | None => Ok (addCriticalEnv goos root env)
  end.

(** A context, seen from its [Done] channel: the instant (in nanoseconds)
    from which the channel is closed, if ever. *)
Definition Context : Type := option Z.

Definition doneAt (ctx : Context) (t : Z) : bool :=
  match ctx with
  | Some c => c <=? t
  | None => false
  end.

(** [context.WithTimeout(parent, d)] called at instant [now]. *)
Definition WithTimeout (parent : Context) (now d : Z) : Context :=
  match parent with
  | Some c => Some (Z.min c (now + d))
  | None => Some (now + d)
  end.

(** What the command does when left alone: how long it runs and whether it
    exits with status zero. *)
Record Process : Type := mkProcess {
  runsFor : Z;
  exitsOk : bool
}.

(** [RunShell] started at [now] under [ctx]: its error ([None] is [nil]) and
    the instant at which it returns.  [Start] fails under a context that is
    already done; then the [select] takes the first of: context done,
    command exited, 24 hours elapsed. *)
Definition RunShell (ctx : Context) (now : Z) (p : Process)
  : option string * Z :=
  if doneAt ctx now then (Some "context done", now)
  else
    let finish := now + runsFor p in
    let guard := now + 24 * Hour in
    let exited :=
      if finish <=? guard
      then ((if exitsOk p then None else Some "exit status 1"), finish)
      else (Some "guard-timeout", guard) in
    match ctx with
    | Some c => if c <? snd exited then (Some "timeout/canceled", c) else exited
    | None => exited
    end.

End Execer.
Import Execer.

(** ** Package scheduler: the runner *)

Module Runner.

(** [min] of the source. *)
Definition min (a b : Z) : Z := if a <? b then a else b.

(** [1 << uint(k)] on a 64-bit [int]: a negative [k] becomes a shift of more
    than 63 bits, which gives zero. *)
Definition shl1 (k : Z) : Z :=
  if (k <? 0) || (63 <? k) then 0 else wrap64 (Z.shiftl 1 k).

(** The bounded exponential backoff after the failed attempt [attempt]. *)
Definition backoff (attempt backoffMin backoffMax : Z) : Z :=
  let bo := wrap64 (shl1 (min attempt 6) * backoffMin) in
  if bo >? backoffMax then backoffMax else bo.

(** [rand.Int63n(n)] for the raw draw [r] of the source of randomness: it
    panics for [n <= 0] and is a value of [[0, n)] otherwise. *)
Definition Int63n (n r : Z) : result Z :=
  if n <=? 0 then Panic "invalid argument to Int63n" else Ok (r mod n).

(** [sleep := bo/2 + jitter] with [jitter := rand.Int63n(int64(bo/4 + 1))]. *)
Definition sleepFor (bo r : Z) : result Z :=
  let? jitter := Int63n (wrap64 (godiv bo 4 + 1)) r in
  Ok (wrap64 (godiv bo 2 + jitter)).

(** The bounds in force: the defaults stand in when both are zero. *)
Definition effectiveBackoff (j : Job) : Z * Z :=
  if (BackoffA j =? 0) && (BackoffB j =? 0)
  then (1 * Second, 30 * Second)
  else (BackoffA j, BackoffB j).

(** What surrounds an invocation: the root context of the engine, what the
    command does at each call of [RunShell] (numbered from 0) and the raw
    random draw after each failed attempt. *)
Record World : Type := mkWorld {
  rootCtx : Context;
  process : Z -> Process;
  draw : Z -> Z
}.

Inductive Outcome : Type :=
| Succeeded
| GaveUp
| CanceledInBackoff
| Panicked.

Record Report : Type := mkReport {
  outcome : Outcome;
  calls : Z;          (* calls of RunShell *)
  sleeps : list Z;    (* the backoff sleeps that were started *)
  finished : Z        (* instant at which runOnce returns *)
}.

(** The loop of [runOnce] from instant [now] with [attempt] failures so far.
    In the [select] that ends a round the context wins when it is done no
    later than the timer fires.  [None]: still running after [fuel] rounds. *)
Fixpoint runLoop (fuel : nat) (j : Job) (w : World) (backoffMin backoffMax : Z)
    (now attempt : Z) (slept : list Z) : option Report :=
  match fuel with
  | O => None
  | S fuel' =>
      let runCtx :=
        if Timeout j >? 0 then WithTimeout (rootCtx w) now (Timeout j)
        else rootCtx w in
      let '(err, now1) := RunShell runCtx now (process w attempt) in
      match err with
      | None => Some (mkReport Succeeded (attempt + 1) slept now1)
      | Some _ =>
          let attempt := attempt + 1 in
          if attempt >? RetryN j
          then Some (mkReport GaveUp attempt slept now1)
          else
            let bo := backoff attempt backoffMin backoffMax in
            match sleepFor bo (draw w attempt) with
            | Ok sleep =>
                if doneAt runCtx (now1 + Z.max sleep 0)
                then Some (mkReport CanceledInBackoff attempt
                             (slept ++ [sleep]) now1)
                else runLoop fuel' j w backoffMin backoffMax
                       (now1 + Z.max sleep 0) attempt (slept ++ [sleep])
            | _ => Some (mkReport Panicked attempt slept now1)
            end
      end
  end.

(** [runOnce] started at instant [now]: at most [RetryN + 1] rounds. *)
Definition runOnce (j : Job) (w : World) (now : Z) : option Report :=
  let '(backoffMin, backoffMax) := effectiveBackoff j in
  runLoop (S (Z.to_nat (RetryN j))) j w backoffMin backoffMax now 0 [].

End Runner.
Import Runner.

(** The health check of the README: two retries, a timeout of ten seconds. *)
Definition health_check : Job :=
  mkJob "health_check" "every 5m" "curl -f http://localhost:8080/health"
        2 (1 * Second) (5 * Second) (10 * Second) 0 "skip" ∅.

(** A world in which the root context is never canceled, the first call
    hangs for an hour, every later call succeeds at once, and every draw is
    zero. *)
Definition hangsOnce : World :=
  mkWorld None
    (fun n => if n =? 0 then mkProcess (1 * Hour) true else mkProcess 0 true)
    (fun _ => 0).

(** The same job without a timeout, in a world where the first call fails
    at once. *)
Definition failsOnce : World :=
  mkWorld None
    (fun n => if n =? 0 then mkProcess 0 false else mkProcess 0 true)
    (fun _ => 0).

(** ** Package scheduler: the engine and its busy set *)

Module Engine.

Inductive LogEvent : Type :=
| LogSkip (name : string)
| LogNotImplemented (name overlap : string).

(** An invocation: the goroutine started by the loop.  It is inside
    [runOnce], or [runOnce] has returned and the deferred function that
    clears the busy flag has not run yet. *)
Inductive Phase : Type :=
| InRunOnce
| Returned (o : Outcome).

(** The engine between two atomic steps.  [marked] is the job whose name the
    loop has put into the busy set without having started its goroutine yet
    (between [e.mu.Unlock()] and the [go] statement). *)
Record State : Type := mkState {
  busy : gmap string bool;
  marked : option Job;
  running : list (Job * Phase);
  log : list LogEvent
}.

(** [NewEngine] *)
Definition init : State := mkState ∅ None [] [].

(** [e.busy[name]]: a missing key reads as [false]. *)
Definition isBusy (s : State) (name : string) : bool :=
  default false (busy s !! name).

Inductive Label : Type :=
| Fire (j : Job)                   (* the loop reaches the overlap policy for j *)
| Spawn                            (* the go statement *)
| Return (i : nat) (o : Outcome)   (* runOnce of invocation i returns *)
| Release (i : nat).               (* its deferred function runs *)

Definition skipEvent (j : Job) : LogEvent :=
  if String.eqb (Overlap j) "skip" then LogSkip (Name j)
  else LogNotImplemented (Name j) (Overlap j).

(** One atomic step; [None] when the step is not enabled. *)
Definition step (s : State) (l : Label) : option State :=
  match l with
  | Fire j =>
      match marked s with
      | Some _ => None
      | None =>
          if isBusy s (Name j)
          then Some (mkState (busy s) None (running s) (log s ++ [skipEvent j]))
          else Some (mkState (<[Name j := true]> (busy s)) (Some j)
                       (running s) (log s))
      end
  | Spawn =>
      match marked s with
      | Some j =>
          Some (mkState (busy s) None (running s ++ [(j, InRunOnce)]) (log s))
      | None => None
      end
  | Return i o =>
      match running s !! i with
      | Some (j, InRunOnce) =>
          Some (mkState (busy s) (marked s)
                  (<[i := (j, Returned o)]> (running s)) (log s))
      | _ => None
      end
  | Release i =>
      match running s !! i with
      | Some (j, Returned _) =>
          Some (mkState (delete (Name j) (busy s)) (marked s)
                  (delete i (running s)) (log s))
      | _ => None
      end
  end.

Fixpoint steps (s : State) (ls : list Label) : option State :=
  match ls with
  | [] => Some s
  | l :: ls' =>
      match step s l with
      | Some s' => steps s' ls'
      | None => None
      end
  end.

Definition reachable (s : State) : Prop := exists ls, steps init ls = Some s.

(** The invocations of the job called [name] that are in flight: marked or
    running. *)
Definition hasName (name : string) (j : Job) : bool := String.eqb (Name j) name.

Definition inFlight (s : State) (name : string) : nat :=
  ((match marked s with
    | Some j => if hasName name j then 1 else 0
    | None => 0
    end)
   + List.length (List.filter (fun jp => hasName name (fst jp)) (running s)))%nat.

(** The names in the busy set are those of the invocations in flight,
    one invocation for each, and the set holds nothing but [true]. *)
Definition consistent (s : State) : Prop :=
  forall name,
    (busy s !! name = Some true /\ inFlight s name = 1%nat)
    \/ (busy s !! name = None /\ inFlight s name = 0%nat).

Definition named (name : string) (jp : Job * Phase) : bool :=
  hasName name (fst jp).

End Engine.

(** A run of the engine: the job fires and is started, fires again while
    its invocation is in flight, the invocation gives up and its deferred
    function has not run yet. *)
Definition busyRun : list Engine.Label :=
  [Engine.Fire health_check; Engine.Spawn; Engine.Fire health_check;
   Engine.Return 0 GaveUp].

Definition busyState : Engine.State :=
  Engine.mkState {[ "health_check" := true ]} None
    [(health_check, Engine.Returned GaveUp)]
    [Engine.LogSkip "health_check"].

(** ** The environment of a job, as the executor can hand it on *)

(** A declared pair whose entry [k=v] is read back as the key [k]: the key
    is not empty and holds no [=], and neither part holds a NUL byte. *)
Definition declarable (kv : string * string) : bool :=
  negb (String.eqb kv.1 EmptyString) && without "=" kv.1
  && without NUL kv.1 && without NUL kv.2.

(** An entry that [dedupEnv] neither drops nor rejects. *)
Definition cleanEntry (kv : string) : bool :=
  negb (String.eqb kv EmptyString) && without NUL kv.

(** The key of the entry, if it has one, is made of ASCII bytes. *)
Definition asciiKey (kv : string) : bool :=
  match keyEnd kv with
  | Some i => isASCII (take i kv)
  | None => true
  end.

(** The entry that [addCriticalEnv] adds on Windows. *)
Definition critical (goos root : string) : list string :=
  if String.eqb goos "windows" then ["SYSTEMROOT=" +:+ root] else [].

(** Two declared keys, of which one holds [=]. *)
Definition clashing : gmap string string :=
  <[ "A" := "1" ]> {[ "A=B" := "2" ]}.


(** ** Package scheduler: [Explain] *)

(** The test that opens [NextRun] and [Explain]: a pure interval. *)
Definition isPureInterval (l : string) : bool :=
  HasPrefix l "every "
  && (HasSuffix l "s" || HasSuffix l "m" || HasSuffix l "h" || HasSuffix l "d")
  && negb (Contains l " at ").

Definition Explain (j : Job) : string :=
  let l := ToLower (TrimSpace (Schedule j)) in
  if isPureInterval l then "every " +:+ TrimPrefix l "every "
  else if HasPrefix l "every weekday at "
  then "weekdays at " +:+ TrimPrefix l "every weekday at "
  else if HasPrefix l "every day at "
  then "every day at " +:+ TrimPrefix l "every day at "
  else if HasPrefix l "at "
  then "every day at " +:+ TrimPrefix l "at "
  else if Contains l " starting at " then "periodic " +:+ l
  else "schedule: " +:+ Schedule j.

(** The error that ends [NextRun]. *)
Definition unsupported (expr : string) : string :=
  "unsupported expression (MVP): " +:+ quote expr.

(** ** Package scheduler: planning in [Engine.Run] *)

Module Planner.

(** [item]: a job and its next occurrence. *)
Record item : Type := mkItem {
  job : Job;
  next : Time
}.



(** The scan for the earliest item: [soon] is the index kept so far and
    [best] is [items[soon].next]; [i] is the index of the head of [rest]. *)
Fixpoint scan (rest : list item) (i soon : nat) (best : Time) : nat :=
  match rest with
  | [] => soon
  | it :: rest' =>
      if Before (next it) best
      then scan rest' (S i) i (next it)
      else scan rest' (S i) soon best
  end.

(** [soon := 0; for i := range items { if items[i].next.Before(items[soon].next)
    { soon = i } }] *)
Definition soonest (items : list item) : nat :=
  match items with
  | [] => O
  | it :: _ => scan items 0 0 (next it)
  end.

(** [items[soon]] at the head of the loop: an index out of range panics. *)
Definition due (items : list item) : result item :=
  match items !! soonest items with
  | Some it => Ok it
  | None => Panic "index out of range [0] with length 0"
  end.

(** The re-planning of the item that fired: from one second after its
    occurrence, and one minute after [now] when [NextRun] rejects the
    schedule. *)
Definition replan (tz : Zones) (fuel : nat) (now : Time) (it : item)
  : option (result Time) :=
  match NextRun tz fuel (Schedule (job it)) (Add (next it) Second) with
  | None => None
  | Some (Ok n) => Some (Ok n)
  | Some (Err _) => Some (Ok (Add now Minute))
  | Some (Panic e) => Some (Panic e)
  end.

End Planner.

(** ** Command [next]: the occurrences of a schedule *)

Module Preview.

Inductive Line : Type :=
| Occurs (t : Time)
| ErrorLine (msg : string).

(** The loop of [nextCmd] for one job: [n] occurrences from [t], each
    computed from one second after the one before; an error is printed and
    ends the list. *)
Fixpoint occurrences (tz : Zones) (fuel : nat) (expr : string) (t : Time)
    (n : nat) : option (result (list Line)) :=
  match n with
  | O => Some (Ok [])
  | S n' =>
      match NextRun tz fuel expr t with
      | None => None
      | Some (Ok nxt) =>
          match occurrences tz fuel expr (Add nxt Second) n' with
          | Some (Ok ls) => Some (Ok (Occurs nxt :: ls))
          | other => other
          end
      | Some (Err e) => Some (Ok [ErrorLine e])
      | Some (Panic e) => Some (Panic e)
      end
  end.

End Preview.

(** ** Package dsl: [parseShortDuration] *)

Module Dsl.

(** [reDuration], the pattern "one or more digits, then one of s, m, h, d",
    anchored at both ends: the digits and the unit of a match. *)
Definition matchDuration (s : string) : option (string * ascii) :=
  match lastByte s with
  | None => None
  | Some u =>
      let ds := take (String.length s - 1) s in
      if negb (String.eqb ds "") && allDigits ds
         && (Ascii.eqb u "s" || Ascii.eqb u "m" || Ascii.eqb u "h"
             || Ascii.eqb u "d")
      then Some (ds, u)
      else None
  end.

(** [n, _ := strconv.Atoi(ds)] on decimal digits: a value out of range is
    reported with the largest [int], and the error is dropped. *)
Definition AtoiDigits (ds : string) : Z := Z.min (digitsValue ds) MaxInt64.

Definition parseShortDuration (s : string) : result Z :=
  match matchDuration (TrimSpace s) with
  | None => Err ("invalid duration: " +:+ quote s +:+ " (expected Ns|Nm|Nh|Nd)")
  | Some (ds, u) =>
      let n := AtoiDigits ds in
      if Ascii.eqb u "s" then Ok (wrap64 (n * Second))
      else if Ascii.eqb u "m" then Ok (wrap64 (n * Minute))
      else if Ascii.eqb u "h" then Ok (wrap64 (n * Hour))
      else if Ascii.eqb u "d" then Ok (wrap64 (wrap64 (n * 24) * Hour))
      else Err "unknown unit"
  end.

End Dsl.

(** What the scan for the earliest item keeps true of the items [pre] it has
    passed: [best] is the time of [pre[soon]], no item of [pre] is before it
    and those in front of [soon] are after it. *)
Definition scanInv (pre : list Planner.item) (soon : nat) (best : Time) : Prop :=
  (exists b, pre !! soon = Some b /\ best = Planner.next b)
  /\ (forall j x, pre !! j = Some x ->
        unixNano best <= unixNano (Planner.next x))
  /\ (forall j x, (j < soon)%nat -> pre !! j = Some x ->
        unixNano best < unixNano (Planner.next x)).

(** A world in which the root context is never canceled and every call
    fails at once. *)
Definition alwaysFails : World :=
  mkWorld None (fun _ => mkProcess 0 false) (fun _ => 0).

(** A world whose root context is canceled from the start. *)
Definition canceledWorld : World :=
  mkWorld (Some 0) (fun _ => mkProcess 0 true) (fun _ => 0).

(** A job with two retries and no timeout. *)
Definition flaky : Job :=
  mkJob "flaky" "every 5m" "false" 2 (1 * Second) (5 * Second) 0 0 "skip" ∅.

(** ** The branches of [NextRun] *)

Definition isClockTime (l : string) : bool :=
  HasPrefix l "at " || HasPrefix l "every day at "
  || HasPrefix l "every weekday at ".

Definition isAnchored (l : string) : bool :=
  HasPrefix l "every " && Contains l " starting at ".

(** The clock-time branch of [NextRun], on the lower-cased expression. *)
Definition clockBranch (tz : Zones) (fuel : nat) (l : string) (from : Time)
  : option (result Time) :=
  let '(weekdayOnly, l) :=
    if HasPrefix l "every weekday at "
    then (true, TrimPrefix l "every weekday at ")
    else if HasPrefix l "every day at "
    then (false, TrimPrefix l "every day at ")
    else (false, TrimPrefix l "at ") in
  match Fields l with
  | [] => Some (Err "missing time")
  | hhmm :: rest =>
      match clockZone tz rest with
      | Ok loc => option_map Ok (nextAtTime fuel from hhmm loc weekdayOnly)
      | Err e => Some (Err e)
      | Panic e => Some (Panic e)
      end
  end.

(** The anchored-interval branch of [NextRun], on the lower-cased
    expression. *)
Definition anchoredBranch (tz : Zones) (fuel : nat) (l : string) (from : Time)
  : option (result Time) :=
  let '(before, after, _) := Cut l " starting at " in
  match parseDur (TrimPrefix before "every ") with
  | Err e => Some (Err e)
  | Panic e => Some (Panic e)
  | Ok d =>
      match Fields after with
      | [] => Some (Err "missing time after 'starting at'")
      | hhmm :: rest => anchoredNext fuel from d hhmm (anchorZone tz rest)
      end
  end.

(** A field of an expression as [NextRun] sees it after [TrimSpace],
    [ToLower] and [Fields]: not empty, without white space, and with no
    upper-case letter. *)
Fixpoint fieldBytes (s : string) : bool :=
  match s with
  | EmptyString => true
  | String c r => negb (isSpace c) && Ascii.eqb (lower c) c && fieldBytes r
  end.

Definition isField (s : string) : bool :=
  negb (String.eqb s "") && fieldBytes s.

(** Jobs whose schedules are not supported. *)
Definition scheduled (expr : string) : Job :=
  mkJob "job" expr "true" 0 0 0 0 0 "skip" ∅.

(** The three clock-time forms: the prefix, and whether the form is
    restricted to weekdays. *)
Definition clockForms : list (string * bool) :=
  [("at ", false); ("every day at ", false); ("every weekday at ", true)].

(** A run of white space. *)
Fixpoint allSpace (s : string) : bool :=
  match s with
  | EmptyString => true
  | String c r => isSpace c && allSpace r
  end.

(** A word: bytes other than white space, at least one. *)
Fixpoint wordBytes (s : string) : bool :=
  match s with
  | EmptyString => true
  | String c r => negb (isSpace c) && wordBytes r
  end.

Definition isWord (s : string) : bool :=
  negb (String.eqb s EmptyString) && wordBytes s.

(** A host in UTC whose zone database finds [Europe/Paris] and [UTC] under
    these names only, as on a file system that tells the case of letters
    apart. *)
Definition caseSensitiveHost : Zones :=
  mkZones UTC
    (fun name =>
       if String.eqb name "Europe/Paris" then Some Europe_Paris
       else if String.eqb name "UTC" then Some UTC
       else None).

(** * Properties *)

(** ** The model on the examples of the documentation *)

Example ParseDuration_5m : ParseDuration "5m" = Ok (5 * Minute).
Proof. reflexivity. Qed.

Example ParseDuration_1h30m : ParseDuration "1h30m" = Ok (90 * Minute).
Proof. reflexivity. Qed.

Example ParseDuration_frac : ParseDuration "1.5h" = Ok (90 * Minute).
Proof. vm_compute. reflexivity. Qed.

Example ParseDuration_neg : ParseDuration "-2s" = Ok (- 2 * Second).
Proof. reflexivity. Qed.

Example ParseDuration_5d : ParseDuration "5d" = Err errUnknownUnit.
Proof. reflexivity. Qed.

Example ParseDuration_big : ParseDuration "2562048h" = Err errInvalid.
Proof. reflexivity. Qed.

(** 2024-03-30 (a Saturday) is day 19812. *)
Example daysFromCivil_2024_03_30 : daysFromCivil 2024 3 30 = 19812.
Proof. reflexivity. Qed.

Example civilFromDays_19812 : civilFromDays 19812 = (2024, 3, 30).
Proof. reflexivity. Qed.

Example Weekday_2024_03_30 :
  Weekday (Date 2024 3 30 8 0 0 0 UTC) = Saturday.
Proof. reflexivity. Qed.

Example Sscanf_d_08 : Sscanf_d "08" = 8.
Proof. reflexivity. Qed.

Example Sscanf_d_neg : Sscanf_d "-3x" = -3.
Proof. reflexivity. Qed.

Example Sscanf_d_junk : Sscanf_d "ab" = 0.
Proof. reflexivity. Qed.

Example Sscanf_d_underscore : Sscanf_d "1_0" = 0.
Proof. reflexivity. Qed.

Example NextRun_every_5m :
  NextRun utcOnly 0 "every 5m" t_2024_01_01_0800
  = Some (Ok (Add t_2024_01_01_0800 (5 * Minute))).
Proof. reflexivity. Qed.

Example NextRun_at_0830 :
  NextRun utcOnly 0 "at 08:30" t_2024_01_01_0800
  = Some (Ok (Date 2024 1 1 8 30 0 0 UTC)).
Proof. reflexivity. Qed.

Example NextRun_at_0830_late :
  NextRun utcOnly 0 "at 08:30" (Date 2024 1 1 9 0 0 0 UTC)
  = Some (Ok (Date 2024 1 2 8 30 0 0 UTC)).
Proof. reflexivity. Qed.

Example NextRun_weekday_sat :
  NextRun utcOnly 7 "every weekday at 08:00" (Date 2024 1 6 8 0 0 0 UTC)
  = Some (Ok (Date 2024 1 8 8 0 0 0 UTC)).
Proof. reflexivity. Qed.

Example NextRun_anchored :
  NextRun utcOnly 10 "every 6h starting at 00:00" t_2024_01_01_0800
  = Some (Ok (Date 2024 1 1 12 0 0 0 UTC)).
Proof. reflexivity. Qed.

Example NextRun_5d :
  NextRun utcOnly 0 "Every 5D " t_2024_01_01_0800
  = Some (Ok (Add t_2024_01_01_0800 (120 * Hour))).
Proof. reflexivity. Qed.

(** With nothing between ['every '] and [' starting at '], [parseDur] indexes
    an empty string. *)
Example NextRun_panic :
  NextRun utcOnly 0 "every  starting at 00:00" t_2024_01_01_0800
  = Some (Panic "index out of range [-1]").
Proof. reflexivity. Qed.

Example NextRun_bad :
  NextRun utcOnly 0 "sometimes" t_2024_01_01_0800
  = Some (Err ("unsupported expression (MVP): " +:+ quote "sometimes")).
Proof. reflexivity. Qed.

Example runOnce_retry_after_failure :
  runOnce health_check failsOnce 0
  = Some (mkReport Succeeded 2 [1 * Second] (1 * Second)).
Proof. reflexivity. Qed.

Example runOnce_timeout :
  runOnce health_check hangsOnce 0
  = Some (mkReport CanceledInBackoff 1 [1 * Second] (10 * Second)).
Proof. reflexivity. Qed.

(** ** Clock fields *)

Lemma clampInt_range (lo hi v : Z) : lo <= hi -> lo <= clampInt lo hi v <= hi.
Proof.
  intros Hle. unfold clampInt.
  destruct (v <? lo) eqn:Hlo.
  - destruct (lo >? hi) eqn:Hhi; lia.
  - destruct (v >? hi) eqn:Hhi; lia.
Qed.

Lemma clampInt_id (lo hi v : Z) : lo <= v <= hi -> clampInt lo hi v = v.
Proof.
  intros Hv. unfold clampInt.
  destruct (v <? lo) eqn:Hlo; [lia |].
  destruct (v >? hi) eqn:Hhi; lia.
Qed.

Lemma parseHH_range (hhmm : string) : 0 <= parseHH hhmm <= 23.
Proof.
  unfold parseHH. destruct (SplitN hhmm ":" 2) as [| p0 ps]; [lia |].
  apply clampInt_range; lia.
Qed.

Lemma parseMM_range (hhmm : string) : 0 <= parseMM hhmm <= 59.
Proof.
  unfold parseMM.
  destruct (SplitN hhmm ":" 2) as [| p0 [| p1 ps]]; try lia.
  apply clampInt_range; lia.
Qed.

Lemma clampInt_max_min (lo hi v : Z) :
  lo <= hi -> clampInt lo hi v = Z.max lo (Z.min hi v).
Proof.
  intros Hle. unfold clampInt.
  destruct (v <? lo) eqn:Hlo.
  - destruct (lo >? hi) eqn:Hhi; lia.
  - destruct (v >? hi) eqn:Hhi; lia.
Qed.

(** The field before the first colon and the rest. *)
Lemma Cut_colon (hh mm : string) :
  without ":" hh = true -> Cut (hh +:+ ":" +:+ mm) ":" = (hh, mm, true).
Proof.
  induction hh as [| c hh IH]; intros Hw; [reflexivity |].
  simpl in Hw. apply andb_true_iff in Hw as [Hc Hw].
  apply negb_true_iff in Hc.
  change (String c hh +:+ ":" +:+ mm) with (String c (hh +:+ ":" +:+ mm)).
  cbn [Cut HasPrefix]. rewrite Hc. cbn [andb].
  by rewrite (IH Hw).
Qed.

Lemma SplitN_colon (hh mm : string) :
  without ":" hh = true -> SplitN (hh +:+ ":" +:+ mm) ":" 2 = [hh; mm].
Proof. intros Hw. cbn [SplitN]. by rewrite Cut_colon. Qed.

(** C9.  [parseHH] and [parseMM] are total and never report an error: for
    every string the hour they return lies in [0, 23] and the minute in
    [0, 59].  Of a field [HH:MM] they return the integers that [%d] scans in
    [HH] and in [MM] (zero when there is none), clamped into these ranges:
    ["99:99"] reads as 23:59 and ["-5:-7"] as 00:00. *)
Theorem parse_clock_clamped :
  (forall hhmm : string,
      0 <= parseHH hhmm <= 23 /\ 0 <= parseMM hhmm <= 59)
  /\ (forall hh mm : string,
        without ":" hh = true ->
        parseHH (hh +:+ ":" +:+ mm) = Z.max 0 (Z.min 23 (Sscanf_d hh))
        /\ parseMM (hh +:+ ":" +:+ mm) = Z.max 0 (Z.min 59 (Sscanf_d mm)))
  /\ (parseHH "99:99" = 23 /\ parseMM "99:99" = 59)
  /\ (parseHH "-5:-7" = 0 /\ parseMM "-5:-7" = 0)
  /\ (parseHH "08:30" = 8 /\ parseMM "08:30" = 30)
  /\ (parseHH "noon" = 0 /\ parseMM "noon" = 0).
Proof.
  split; [| split; [| repeat split; reflexivity]].
  - intros hhmm. split; [apply parseHH_range | apply parseMM_range].
  - intros hh mm Hw. unfold parseHH, parseMM.
    rewrite SplitN_colon by assumption.
    split; apply clampInt_max_min; lia.
Qed.

Lemma parse_clock_clamped_witness :
  without ":" "99" = true
  /\ parseHH ("99" +:+ ":" +:+ "99") = 23
  /\ parseMM ("99" +:+ ":" +:+ "99") = 59.
Proof.
  split; [reflexivity |].
  destruct parse_clock_clamped as (_ & Hclamp & _).
  destruct (Hclamp "99" "99" eq_refl) as [Hh Hm].
  split; [rewrite Hh | rewrite Hm]; reflexivity.
Defined.

(** ** Backoff *)

Lemma wrap64_small (z : Z) : MinInt64 <= z <= MaxInt64 -> wrap64 z = z.
Proof.
  unfold wrap64. intros Hz. int64.
  rewrite Z.mod_small; lia.
Qed.

Lemma min_is_Zmin (a b : Z) : Runner.min a b = Z.min a b.
Proof. unfold Runner.min. destruct (a <? b) eqn:H; lia. Qed.

Lemma shl1_pow (k : Z) : 0 <= k <= 6 -> shl1 k = 2 ^ k.
Proof.
  intros Hk. unfold shl1.
  destruct ((k <? 0) || (63 <? k)) eqn:Hb; [lia |].
  rewrite Z.shiftl_1_l. apply wrap64_small.
  assert (0 < 2 ^ k) by (apply Z.pow_pos_nonneg; lia).
  assert (2 ^ k <= 2 ^ 6) by (apply Z.pow_le_mono_r; lia).
  unfold MinInt64, MaxInt64. lia.
Qed.

(** The base of the backoff, when the product fits in a duration. *)
Lemma backoff_min (attempt backoffMin backoffMax : Z) :
  1 <= attempt -> 0 <= backoffMin ->
  backoffMin * 2 ^ Z.min attempt 6 <= MaxInt64 ->
  backoff attempt backoffMin backoffMax
  = Z.min (backoffMin * 2 ^ Z.min attempt 6) backoffMax.
Proof.
  intros Ha Hmin Hfit. unfold backoff.
  rewrite min_is_Zmin, shl1_pow by lia.
  assert (0 <= 2 ^ Z.min attempt 6) by (apply Z.pow_nonneg; lia).
  rewrite wrap64_small by (int64; nia).
  rewrite (Z.mul_comm (2 ^ _)).
  destruct (_ >? backoffMax) eqn:Hgt; lia.
Qed.

(** The sleep for a base that is a non-negative duration: any draw gives a
    value between [bo/2] and [bo/2 + bo/4], both included. *)
Lemma sleepFor_bounds (bo r : Z) :
  0 <= bo <= MaxInt64 ->
  exists sl, sleepFor bo r = Ok sl /\ bo / 2 <= sl <= bo / 2 + bo / 4.
Proof.
  intros Hbo. unfold sleepFor, Int63n, godiv.
  rewrite !Z.quot_div_nonneg by lia.
  rewrite (wrap64_small (bo / 4 + 1)) by (int64; Z.div_mod_to_equations; lia).
  destruct (bo / 4 + 1 <=? 0) eqn:Hn; [Z.div_mod_to_equations; lia |]. cbn.
  assert (Hr : 0 <= r mod (bo / 4 + 1) < bo / 4 + 1)
    by (apply Z.mod_pos_bound; lia).
  eexists. split; [reflexivity |].
  rewrite wrap64_small; [lia |].
  int64. revert Hr. generalize (r mod (bo / 4 + 1)). intros jitter Hj.
  Z.div_mod_to_equations. lia.
Qed.

Lemma sleepFor_upper_drawn (bo : Z) :
  0 <= bo <= MaxInt64 -> sleepFor bo (bo / 4) = Ok (bo / 2 + bo / 4).
Proof.
  intros Hbo. unfold sleepFor, Int63n, godiv.
  rewrite !Z.quot_div_nonneg by lia.
  rewrite (wrap64_small (bo / 4 + 1)) by (int64; Z.div_mod_to_equations; lia).
  destruct (bo / 4 + 1 <=? 0) eqn:Hn; [Z.div_mod_to_equations; lia |]. cbn.
  rewrite (Z.mod_small (bo / 4)) by (Z.div_mod_to_equations; lia).
  rewrite wrap64_small; [reflexivity |].
  int64. Z.div_mod_to_equations. lia.
Qed.

(** C4, as stated, fails: with bounds 5s and 30s the base after the first
    failed attempt is 10s, and the draw 2.5s gives a sleep of exactly 7.5s,
    the upper endpoint that the claim excludes. *)
Lemma sleep_reaches_upper_endpoint :
  backoff 1 (5 * Second) (30 * Second) = 10 * Second
  /\ sleepFor (backoff 1 (5 * Second) (30 * Second)) (2500 * Millisecond)
     = Ok (7500 * Millisecond)
  /\ ~ (forall r sl,
          sleepFor (backoff 1 (5 * Second) (30 * Second)) r = Ok sl ->
          5 * Second <= sl < 7500 * Millisecond).
Proof.
  split; [reflexivity |]. split; [reflexivity |].
  intros Hall.
  specialize (Hall (2500 * Millisecond) (7500 * Millisecond) eq_refl). lia.
Qed.

(** C4, amended.  For a failed attempt [attempt >= 1] and bounds
    [0 <= backoffMin <= backoffMax] whose product
    [backoffMin * 2^min(attempt, 6)] fits in a duration, the base is
    [min(backoffMin * 2^min(attempt, 6), backoffMax)] and the sleep lies in the
    closed interval from [base/2] to [base/2 + base/4] (integer divisions);
    the upper endpoint is the sleep for the draw [base/4]. *)
Theorem backoff_sleep_closed_interval (attempt backoffMin backoffMax : Z) :
  1 <= attempt -> 0 <= backoffMin <= backoffMax -> backoffMax <= MaxInt64 ->
  backoffMin * 2 ^ Z.min attempt 6 <= MaxInt64 ->
  let base := backoff attempt backoffMin backoffMax in
  base = Z.min (backoffMin * 2 ^ Z.min attempt 6) backoffMax
  /\ (forall r, exists sl,
         sleepFor base r = Ok sl /\ base / 2 <= sl <= base / 2 + base / 4)
  /\ sleepFor base (base / 4) = Ok (base / 2 + base / 4).
Proof.
  intros Ha Hb Hmax Hfit base.
  assert (Hbase : base = Z.min (backoffMin * 2 ^ Z.min attempt 6) backoffMax)
    by (apply backoff_min; lia).
  assert (0 <= 2 ^ Z.min attempt 6) by (apply Z.pow_nonneg; lia).
  assert (Hrange : 0 <= base <= MaxInt64) by nia.
  split; [exact Hbase |]. split.
  - intros r. by apply sleepFor_bounds.
  - by apply sleepFor_upper_drawn.
Qed.

Lemma backoff_sleep_closed_interval_witness :
  backoff 1 (5 * Second) (30 * Second) = 10 * Second
  /\ (forall r, exists sl,
         sleepFor (10 * Second) r = Ok sl
         /\ 5 * Second <= sl <= 7500 * Millisecond).
Proof.
  destruct (backoff_sleep_closed_interval 1 (5 * Second) (30 * Second))
    as (Hbase & Hsl & _); [lia | unfold Second, Millisecond, Microsecond, Nanosecond; lia
                          | vm_compute; discriminate | vm_compute; discriminate |].
  split; [reflexivity |].
  intros r. destruct (Hsl r) as (sl & Heq & Hb).
  exists sl. split; [exact Heq |]. exact Hb.
Defined.

(** ** The runner and the per-attempt timeout *)

(** An attempt that outlives its timeout returns the cancellation error at
    the deadline. *)
Lemma RunShell_timeout (root : Context) (now timeout : Z) (p : Process) :
  0 < timeout -> timeout < runsFor p -> timeout < 24 * Hour ->
  doneAt root (now + timeout) = false ->
  WithTimeout root now timeout = Some (now + timeout)
  /\ RunShell (WithTimeout root now timeout) now p
     = (Some "timeout/canceled", now + timeout).
Proof.
  intros Hpos Hlong Hguard Hroot.
  assert (Hctx : WithTimeout root now timeout = Some (now + timeout)).
  { unfold WithTimeout. destruct root as [c |]; [| reflexivity].
    cbn in Hroot. f_equal. lia. }
  split; [exact Hctx |].
  rewrite Hctx. unfold RunShell. cbn [doneAt].
  destruct (now + timeout <=? now) eqn:H0; [lia |].
  destruct (now + runsFor p <=? now + 24 * Hour) eqn:Hfin; cbn [snd].
  - destruct (now + timeout <? now + runsFor p) eqn:Hlt; [reflexivity | lia].
  - destruct (now + timeout <? now + 24 * Hour) eqn:Hlt; [reflexivity | lia].
Qed.

(** C2 fails on the code.  When the first attempt of an invocation is
    canceled by the timeout of the job (the command outlives it, the root
    context is still live) and a retry is allowed ([1 <= RetryN]), no retry
    takes place: [RunShell] is called once and [runOnce] returns at the
    deadline, because the [select] of the backoff waits on the context of
    the attempt, which is already done. *)
Theorem timeout_ends_invocation (j : Job) (w : World) (now : Z) :
  0 < Timeout j ->
  Timeout j < runsFor (process w 0) -> Timeout j < 24 * Hour ->
  doneAt (rootCtx w) (now + Timeout j) = false ->
  1 <= RetryN j ->
  exists r, runOnce j w now = Some r
            /\ calls r = 1
            /\ finished r = now + Timeout j
            /\ (outcome r = CanceledInBackoff \/ outcome r = Panicked).
Proof.
  intros Hpos Hlong Hguard Hroot Hretry.
  destruct (RunShell_timeout (rootCtx w) now (Timeout j) (process w 0))
    as [Hctx Hrun]; try assumption.
  unfold runOnce. destruct (effectiveBackoff j) as [bmin bmax].
  cbn [runLoop].
  destruct (Timeout j >? 0) eqn:Ht; [| lia].
  rewrite Hrun, Hctx. cbn [Z.add].
  destruct (0 + 1 >? RetryN j) eqn:Hr; [lia |].
  destruct (sleepFor (backoff (0 + 1) bmin bmax) (draw w (0 + 1)))
    as [sleep | e | e].
  - cbn [doneAt].
    destruct (now + Timeout j <=? now + Timeout j + Z.max sleep 0) eqn:Hd;
      [| lia].
    eexists. split; [reflexivity |]. cbn. auto.
  - eexists. split; [reflexivity |]. cbn. auto.
  - eexists. split; [reflexivity |]. cbn. auto.
Qed.

Lemma timeout_ends_invocation_witness :
  runOnce health_check hangsOnce 0
  = Some (mkReport CanceledInBackoff 1 [1 * Second] (10 * Second))
  /\ runOnce health_check failsOnce 0
     = Some (mkReport Succeeded 2 [1 * Second] (1 * Second)).
Proof.
  split; [| reflexivity].
  destruct (timeout_ends_invocation health_check hangsOnce 0)
    as (r & Hrun & _); [reflexivity .. | discriminate | ].
  reflexivity.
Defined.

(** ** The civil calendar *)

(** Within an era of 400 years: the year of the era and the day of the
    year (counted from March 1st) are in range. *)
Lemma era_ranges (doe : Z) :
  0 <= doe < 146097 ->
  let yoe := (doe - doe / 1460 + doe / 36524 - doe / 146096) / 365 in
  let doy := doe - (365 * yoe + yoe / 4 - yoe / 100) in
  0 <= yoe <= 399 /\ 0 <= doy <= 365.
Proof.
  intros Hdoe yoe doy. subst doy yoe.
  Z.div_mod_to_equations. lia.
Qed.

(** The date of a day number is the date of that day. *)
Lemma daysFromCivil_civilFromDays (z : Z) :
  daysFromCivil (fst (fst (civilFromDays z))) (snd (fst (civilFromDays z)))
                (snd (civilFromDays z)) = z.
Proof.
  unfold civilFromDays.
  set (era := (z + 719468) / 146097).
  set (doe := z + 719468 - era * 146097).
  assert (Hdoe : 0 <= doe < 146097)
    by (subst doe era; Z.div_mod_to_equations; lia).
  destruct (era_ranges doe Hdoe) as [Hyoe Hdoy].
  set (yoe := (doe - doe / 1460 + doe / 36524 - doe / 146096) / 365) in *.
  set (doy := doe - (365 * yoe + yoe / 4 - yoe / 100)) in *.
  set (mp := (5 * doy + 2) / 153).
  assert (Hmp : 0 <= mp <= 11) by (subst mp; Z.div_mod_to_equations; lia).
  cbn [fst snd]. unfold daysFromCivil.
  destruct (mp <? 10) eqn:Hlt.
  - destruct (mp + 3 <=? 2) eqn:H2; [lia |].
    destruct (2 <? mp + 3) eqn:H3; [| lia].
    replace (mp + 3 - 3) with mp by lia.
    replace ((yoe + era * 400) / 400) with era
      by (Z.div_mod_to_equations; lia).
    replace (yoe + era * 400 - era * 400) with yoe by lia.
    subst doy doe. lia.
  - destruct (mp - 9 <=? 2) eqn:H2; [| lia].
    destruct (2 <? mp - 9) eqn:H3; [lia |].
    replace (mp - 9 + 9) with mp by lia.
    replace (yoe + era * 400 + 1 - 1) with (yoe + era * 400) by lia.
    replace ((yoe + era * 400) / 400) with era
      by (Z.div_mod_to_equations; lia).
    replace (yoe + era * 400 - era * 400) with yoe by lia.
    subst doy doe. lia.
Qed.

Lemma civilFromDays_month (z : Z) : 1 <= snd (fst (civilFromDays z)) <= 12.
Proof.
  unfold civilFromDays.
  set (era := (z + 719468) / 146097).
  set (doe := z + 719468 - era * 146097).
  assert (Hdoe : 0 <= doe < 146097)
    by (subst doe era; Z.div_mod_to_equations; lia).
  destruct (era_ranges doe Hdoe) as [Hyoe Hdoy].
  set (yoe := (doe - doe / 1460 + doe / 36524 - doe / 146096) / 365) in *.
  set (doy := doe - (365 * yoe + yoe / 4 - yoe / 100)) in *.
  set (mp := (5 * doy + 2) / 153).
  assert (Hmp : 0 <= mp <= 11) by (subst mp; Z.div_mod_to_equations; lia).
  cbn [fst snd]. destruct (mp <? 10) eqn:Hlt; lia.
Qed.

(** ** Zones without transitions *)

Lemma lookup_fixed (loc : Location) (sec : Z) :
  zoneTx loc = [] -> lookup loc sec = (zoneFirst loc, alpha, omega).
Proof. intros Htx. unfold lookup. rewrite Htx. reflexivity. Qed.

Lemma offsetAt_fixed (loc : Location) (sec : Z) :
  zoneTx loc = [] -> offsetAt loc sec = zoneFirst loc.
Proof. intros Htx. unfold offsetAt. by rewrite lookup_fixed. Qed.

(** [Date] in a zone without transitions, for a month in range. *)
Lemma Date_fixed (loc : Location) (y m d h mi s ns : Z) :
  zoneTx loc = [] -> 1 <= m <= 12 ->
  Date y m d h mi s ns loc
  = mkTime ((daysFromCivil y m d * secondsPerDay + h * 3600 + mi * 60 + s
             - zoneFirst loc) * Second + ns) loc.
Proof.
  intros Htx Hm. unfold Date.
  replace ((m - 1) / 12) with 0 by (Z.div_mod_to_equations; lia).
  replace ((m - 1) mod 12 + 1) with m by (Z.div_mod_to_equations; lia).
  rewrite Z.add_0_r, lookup_fixed by assumption.
  destruct (zoneFirst loc =? 0) eqn:H0.
  - apply Z.eqb_eq in H0. rewrite H0, Z.sub_0_r. reflexivity.
  - rewrite offsetAt_fixed by assumption.
    destruct (_ || _); reflexivity.
Qed.

(** Today's date at [h:mi], seen from [from] in a zone without transitions:
    the days of the wall clock, then the time of day. *)
Lemma Date_today_fixed (loc : Location) (from : Time) (h mi : Z) :
  zoneTx loc = [] ->
  let in_ := In from loc in
  Date (Year in_) (Month in_) (Day in_) h mi 0 0 loc
  = mkTime (((unixSec from + zoneFirst loc) / secondsPerDay * secondsPerDay
             + h * 3600 + mi * 60 - zoneFirst loc) * Second) loc.
Proof.
  intros Htx in_. unfold Year, Month, Day.
  rewrite Date_fixed by (try assumption; apply civilFromDays_month).
  rewrite daysFromCivil_civilFromDays.
  unfold wallDays, wallSec, in_, In, unixSec. cbn [unixNano location].
  rewrite offsetAt_fixed by assumption.
  f_equal. lia.
Qed.

(** ** Instants *)

Lemma Add_zero (t : Time) : Add t 0 = t.
Proof. destruct t as [ns loc]. unfold Add. cbn. by rewrite Z.add_0_r. Qed.

Lemma Add_Add (t : Time) (a b : Z) : Add (Add t a) b = Add t (a + b).
Proof. unfold Add. cbn. f_equal. lia. Qed.

Lemma After_irrefl (t : Time) : After t t = false.
Proof. unfold After. apply Z.ltb_irrefl. Qed.

Lemma After_In_l (t u : Time) (loc : Location) : After (In t loc) u = After t u.
Proof. reflexivity. Qed.

Lemma After_In_r (t u : Time) (loc : Location) : After t (In u loc) = After t u.
Proof. reflexivity. Qed.

(** ** The loop of the anchored interval *)

(** With an interval of zero (or less) the loop never ends once the anchor
    is not after the reference instant. *)
Lemma anchorLoop_diverges (fuel : nat) (t fromIn : Time) (d : Z) :
  d <= 0 -> After t fromIn = false -> anchorLoop fuel t fromIn d = None.
Proof.
  intros Hd. revert t. induction fuel as [| fuel IH]; intros t Hafter; cbn.
  - by rewrite Hafter.
  - rewrite Hafter. apply IH.
    unfold After, Add in *. cbn. apply Z.ltb_ge. apply Z.ltb_ge in Hafter. lia.
Qed.

(** With a positive interval the loop ends: it returns the anchor plus [k]
    intervals for the least [k >= 0] that is after the reference instant,
    whatever fuel of at least [k] rounds it is given. *)
Lemma anchorLoop_terminates (t fromIn : Time) (d : Z) :
  0 < d ->
  exists k, 0 <= k
    /\ (forall fuel, (Z.to_nat k <= fuel)%nat ->
          anchorLoop fuel t fromIn d = Some (Add t (k * d)))
    /\ After (Add t (k * d)) fromIn = true
    /\ (forall k', 0 <= k' < k -> After (Add t (k' * d)) fromIn = false).
Proof.
  intros Hd.
  assert (Hgen : forall n t,
             unixNano fromIn - unixNano t < Z.of_nat n * d ->
             exists k, 0 <= k
               /\ (forall fuel, (Z.to_nat k <= fuel)%nat ->
                     anchorLoop fuel t fromIn d = Some (Add t (k * d)))
               /\ After (Add t (k * d)) fromIn = true
               /\ (forall k', 0 <= k' < k ->
                     After (Add t (k' * d)) fromIn = false)).
  { clear t. induction n as [| n IH]; intros t Hgap.
    - exists 0. split; [lia |].
      assert (Ha : After t fromIn = true) by (apply Z.ltb_lt; lia).
      rewrite Z.mul_0_l, Add_zero. repeat split; [| exact Ha | lia].
      intros [| fuel] _; cbn; by rewrite Ha.
    - destruct (After t fromIn) eqn:Ha.
      + exists 0. split; [lia |].
        rewrite Z.mul_0_l, Add_zero. repeat split; [| exact Ha | lia].
        intros [| fuel] _; cbn; by rewrite Ha.
      + destruct (IH (Add t d)) as (k & Hk & Hrun & Hafter & Hleast).
        { cbn. lia. }
        exists (k + 1). split; [lia |].
        rewrite Add_Add in Hafter.
        replace ((k + 1) * d) with (d + k * d) by lia.
        repeat split; [| exact Hafter |].
        * intros [| fuel] Hfuel; [lia |]. cbn. rewrite Ha.
          rewrite Hrun by lia. by rewrite Add_Add.
        * intros k' Hk'. destruct (Z.eq_dec k' 0) as [-> | Hne].
          -- by rewrite Z.mul_0_l, Add_zero.
          -- specialize (Hleast (k' - 1) ltac:(lia)).
             rewrite Add_Add in Hleast.
             by replace (d + (k' - 1) * d) with (k' * d) in Hleast by lia. }
  apply (Hgen (Z.to_nat (Z.max 0 (unixNano fromIn - unixNano t + 1)))).
  nia.
Qed.

(** ** Pure intervals of length zero or less *)

(** C1 fails on the code.  ['every 0s'] is accepted and [NextRun] returns
    the reference instant itself, which is not strictly after it; a negative
    interval, which [time.ParseDuration] accepts as well, gives an instant
    before the reference. *)
Theorem every_0s_returns_from (tz : Zones) (fuel : nat) (from : Time) :
  NextRun tz fuel "every 0s" from = Some (Ok from)
  /\ After from from = false
  /\ NextRun tz fuel "every -5m" from = Some (Ok (Add from (- (5 * Minute))))
  /\ After (Add from (- (5 * Minute))) from = false.
Proof.
  split; [| split; [| split]].
  - change (NextRun tz fuel "every 0s" from) with (Some (Ok (Add from 0))).
    by rewrite Add_zero.
  - apply After_irrefl.
  - reflexivity.
  - unfold After, Add. cbn [unixNano]. apply Z.ltb_ge.
    unfold Minute, Second, Millisecond, Microsecond, Nanosecond. lia.
Qed.

(** ** Anchored intervals *)

(** Midnight of today is not after now, in a zone without transitions. *)
Lemma midnight_not_after (loc : Location) (from : Time) :
  zoneTx loc = [] ->
  let in_ := In from loc in
  After (Date (Year in_) (Month in_) (Day in_) 0 0 0 0 loc) in_ = false.
Proof.
  intros Htx in_. subst in_. rewrite Date_today_fixed by assumption.
  unfold After, In, unixSec. cbn [unixNano]. apply Z.ltb_ge.
  unfold secondsPerDay, Second, Millisecond, Microsecond, Nanosecond.
  Z.div_mod_to_equations. lia.
Qed.

(** C5 fails on the code.  For ['every 0s starting at 00:00'] the loop that
    adds the interval to the anchor never ends, so [NextRun] does not
    return, whatever the reference instant (here on a host whose local zone
    has no transitions, UTC for one). *)
Theorem anchored_zero_interval_never_returns
    (tz : Zones) (fuel : nat) (from : Time) :
  zoneTx (Local tz) = [] ->
  NextRun tz fuel "every 0s starting at 00:00" from = None.
Proof.
  intros Htx.
  change (NextRun tz fuel "every 0s starting at 00:00" from)
    with (anchoredNext fuel from 0 "00:00" (Local tz)).
  unfold anchoredNext.
  change (parseHH "00:00") with 0. change (parseMM "00:00") with 0.
  rewrite anchorLoop_diverges; [reflexivity | lia |].
  by apply midnight_not_after.
Qed.

Lemma anchored_zero_interval_never_returns_witness :
  NextRun utcOnly 1000 "every 0s starting at 00:00" t_2024_01_01_0800 = None.
Proof.
  apply (anchored_zero_interval_never_returns utcOnly 1000 t_2024_01_01_0800).
  reflexivity.
Defined.

(** With a positive interval the anchored form returns: the anchor plus the
    least number of intervals that is after the reference instant, in the
    zone of the reference. *)
Lemma anchoredNext_returns (from : Time) (d : Z) (hhmm : string) (loc : Location) :
  0 < d ->
  let in_ := In from loc in
  let base := Date (Year in_) (Month in_) (Day in_)
                (parseHH hhmm) (parseMM hhmm) 0 0 loc in
  exists k, 0 <= k
    /\ (forall fuel, (Z.to_nat k <= fuel)%nat ->
          anchoredNext fuel from d hhmm loc
          = Some (Ok (In (Add base (k * d)) (location from))))
    /\ After (Add base (k * d)) from = true
    /\ (forall k', 0 <= k' < k -> After (Add base (k' * d)) from = false).
Proof.
  intros Hd in_ base.
  destruct (anchorLoop_terminates base in_ d Hd) as (k & Hk & Hrun & Ha & Hl).
  exists k. split; [exact Hk |]. split; [| split; assumption].
  intros fuel Hfuel. unfold anchoredNext. fold in_. fold base.
  by rewrite Hrun.
Qed.

(** ** Zones that do not load *)

(** C6 fails on the code.  For a zone name that does not load, the
    clock-time form reports [unknown TZ], but the anchored interval does not:
    it falls back to the local zone and returns an instant, the one it
    returns without any zone name. *)
Theorem unknown_zone_anchored_not_rejected (tz : Zones) (from : Time) :
  LoadLocation tz "mars/phobos" = None ->
  (forall fuel,
      NextRun tz fuel "at 08:30 Mars/Phobos" from
      = Some (Err "unknown TZ: mars/phobos"))
  /\ (forall fuel,
        NextRun tz fuel "every 6h starting at 00:00 Mars/Phobos" from
        = NextRun tz fuel "every 6h starting at 00:00" from)
  /\ (exists fuel t,
        NextRun tz fuel "every 6h starting at 00:00 Mars/Phobos" from
        = Some (Ok t) /\ After t from = true).
Proof.
  intros Hload.
  assert (Hzone : anchorZone tz ["mars/phobos"] = Local tz)
    by (unfold anchorZone; by rewrite Hload).
  assert (Hfall : forall fuel,
             NextRun tz fuel "every 6h starting at 00:00 Mars/Phobos" from
             = anchoredNext fuel from (6 * Hour) "00:00" (Local tz)).
  { intros fuel.
    change (NextRun tz fuel "every 6h starting at 00:00 Mars/Phobos" from)
      with (anchoredNext fuel from (6 * Hour) "00:00"
              (anchorZone tz ["mars/phobos"])).
    by rewrite Hzone. }
  split; [| split].
  - intros fuel.
    change (NextRun tz fuel "at 08:30 Mars/Phobos" from)
      with (match clockZone tz ["mars/phobos"] with
            | Ok loc => option_map Ok (nextAtTime fuel from "08:30" loc false)
            | Err e => Some (Err e)
            | Panic e => Some (Panic e)
            end).
    unfold clockZone. by rewrite Hload.
  - intros fuel. rewrite Hfall. reflexivity.
  - destruct (anchoredNext_returns from (6 * Hour) "00:00" (Local tz))
      as (k & Hk & Hrun & Ha & _); [reflexivity |].
    exists (Z.to_nat k). eexists. rewrite Hfall. split.
    + apply Hrun. lia.
    + exact Ha.
Qed.

Lemma unknown_zone_anchored_not_rejected_witness :
  NextRun utcOnly 10 "at 08:30 Mars/Phobos" t_2024_01_01_0800
  = Some (Err "unknown TZ: mars/phobos")
  /\ NextRun utcOnly 10 "every 6h starting at 00:00 Mars/Phobos"
       t_2024_01_01_0800
     = Some (Ok (Date 2024 1 1 12 0 0 0 UTC)).
Proof.
  destruct (unknown_zone_anchored_not_rejected utcOnly t_2024_01_01_0800)
    as (Hclock & Hanch & _); [reflexivity |].
  split; [apply Hclock |].
  rewrite Hanch. reflexivity.
Defined.

(** ** The busy set *)

Section BusySet.
Import Engine.

Lemma inFlight_eq (s : State) (name : string) :
  inFlight s name
  = ((match marked s with
      | Some j => if hasName name j then 1 else 0
      | None => 0
      end) + List.length (List.filter (named name) (running s)))%nat.
Proof. reflexivity. Qed.

Lemma length_filter_insert (name : string) (l : list (Job * Phase))
    (i : nat) (j : Job) (p p' : Phase) :
  l !! i = Some (j, p) ->
  List.length (List.filter (named name) (<[i := (j, p')]> l))
  = List.length (List.filter (named name) l).
Proof.
  revert i. induction l as [| x l IH]; intros [| i] Hi; cbn in *;
    try discriminate.
  - injection Hi as ->.
    assert (Hn : named name (j, p') = named name (j, p)) by reflexivity.
    rewrite Hn. destruct (named name (j, p)); reflexivity.
  - destruct (named name x); [cbn; f_equal |]; exact (IH i Hi).
Qed.

Lemma length_filter_delete (name : string) (l : list (Job * Phase))
    (i : nat) (j : Job) (p : Phase) :
  l !! i = Some (j, p) ->
  List.length (List.filter (named name) l)
  = ((if hasName name j then 1 else 0)
     + List.length (List.filter (named name) (delete i l)))%nat.
Proof.
  revert i. induction l as [| x l IH]; intros [| i] Hi; cbn in *;
    try discriminate.
  - injection Hi as ->.
    change (named name (j, p)) with (hasName name j).
    destruct (hasName name j); reflexivity.
  - specialize (IH i Hi).
    destruct (named name x); destruct (hasName name j); cbn in *;
      first [exact IH | f_equal; exact IH].
Qed.

Lemma length_filter_snoc (name : string) (l : list (Job * Phase))
    (j : Job) (p : Phase) :
  List.length (List.filter (named name) (l ++ [(j, p)]))
  = (List.length (List.filter (named name) l)
     + (if hasName name j then 1 else 0))%nat.
Proof.
  rewrite List.filter_app, List.length_app. cbn.
  change (named name (j, p)) with (hasName name j).
  destruct (hasName name j); reflexivity.
Qed.

Lemma hasName_true (name : string) (j : Job) :
  hasName name j = true <-> Name j = name.
Proof. unfold hasName. apply String.eqb_eq. Qed.

Lemma hasName_false (name : string) (j : Job) :
  hasName name j = false <-> Name j <> name.
Proof. unfold hasName. apply String.eqb_neq. Qed.

Lemma isBusy_consistent (s : State) (name : string) :
  consistent s ->
  (isBusy s name = true <-> busy s !! name = Some true)
  /\ (isBusy s name = false <-> busy s !! name = None).
Proof.
  intros Hc. unfold isBusy.
  destruct (Hc name) as [[Hb _] | [Hb _]]; rewrite Hb; cbn;
    split; split; intros; congruence.
Qed.

Lemma consistent_init : consistent init.
Proof. intros name. right. split; [apply lookup_empty | reflexivity]. Qed.

Lemma consistent_step (s s' : State) (l : Label) :
  consistent s -> step s l = Some s' -> consistent s'.
Proof.
  intros Hc Hstep. destruct l as [j | | i o | i]; cbn in Hstep.
  - (* Fire *)
    destruct (marked s) as [m |] eqn:Hm; [discriminate |].
    destruct (isBusy s (Name j)) eqn:Hb; injection Hstep as <-.
    + intros name. specialize (Hc name).
      rewrite inFlight_eq in *. cbn. rewrite Hm in Hc. exact Hc.
    + apply (isBusy_consistent s (Name j) Hc) in Hb.
      intros name. specialize (Hc name).
      rewrite inFlight_eq in *. cbn. rewrite Hm in Hc.
      destruct (hasName name j) eqn:Hn.
      * apply hasName_true in Hn. subst name. left.
        rewrite lookup_insert_eq. split; [reflexivity |].
        destruct Hc as [[Hc _] | [_ Hc]]; [congruence | lia].
      * apply hasName_false in Hn.
        rewrite lookup_insert_ne by assumption. exact Hc.
  - (* Spawn *)
    destruct (marked s) as [j |] eqn:Hm; [| discriminate].
    injection Hstep as <-. intros name. specialize (Hc name).
    rewrite inFlight_eq in *. cbn. rewrite Hm in Hc.
    rewrite length_filter_snoc.
    destruct (hasName name j); rewrite ?Nat.add_0_r in *;
      [rewrite Nat.add_comm |]; exact Hc.
  - (* Return *)
    destruct (running s !! i) as [[j [| o']] |] eqn:Hi; try discriminate.
    injection Hstep as <-. intros name. specialize (Hc name).
    rewrite inFlight_eq in *. cbn.
    rewrite (length_filter_insert name _ i j InRunOnce) by assumption.
    exact Hc.
  - (* Release *)
    destruct (running s !! i) as [[j [| o']] |] eqn:Hi; try discriminate.
    injection Hstep as <-. intros name. specialize (Hc name).
    rewrite inFlight_eq in *. cbn.
    rewrite (length_filter_delete name _ i j (Returned o')) in Hc
      by assumption.
    destruct (hasName name j) eqn:Hn.
    + apply hasName_true in Hn. subst name. right.
      rewrite lookup_delete_eq. split; [reflexivity |].
      destruct (marked s) as [m |]; [destruct (hasName (Name j) m) |];
        destruct Hc as [[_ Hc] | [_ Hc]]; lia.
    + apply hasName_false in Hn.
      rewrite lookup_delete_ne by assumption. exact Hc.
Qed.

Lemma consistent_steps (ls : list Label) (s s' : State) :
  consistent s -> steps s ls = Some s' -> consistent s'.
Proof.
  revert s. induction ls as [| l ls IH]; intros s Hc Hrun; cbn in Hrun.
  - by injection Hrun as <-.
  - destruct (step s l) as [s1 |] eqn:Hstep; [| discriminate].
    eapply IH; [| exact Hrun]. eapply consistent_step; eassumption.
Qed.

Lemma reachable_consistent (s : State) : reachable s -> consistent s.
Proof.
  intros [ls Hrun]. eapply consistent_steps; [apply consistent_init | exact Hrun].
Qed.

End BusySet.

Lemma busyState_reachable : Engine.reachable busyState.
Proof. exists busyRun. reflexivity. Qed.

(** C3.  In every reachable state of the engine and for every job name: at
    most one invocation of that name is in flight; the name is in the busy
    set exactly when one is (from the moment the loop marks it until the
    deferred function of the invocation has run, retries included).  When a
    job with policy [skip] fires while its name is busy, the step starts no
    invocation, leaves the busy set alone and logs exactly one skip event.
    When an invocation has returned, with any outcome, its deferred function
    can run and removes the name. *)
Theorem busy_set_mutual_exclusion (s : Engine.State) :
  Engine.reachable s ->
  (forall name,
      (Engine.inFlight s name <= 1)%nat
      /\ (Engine.isBusy s name = true <-> Engine.inFlight s name = 1%nat)
      /\ (name ∈ dom (Engine.busy s) <-> Engine.inFlight s name = 1%nat))
  /\ (forall j,
        Overlap j = "skip" -> Engine.marked s = None ->
        Engine.isBusy s (Name j) = true ->
        Engine.step s (Engine.Fire j)
        = Some (Engine.mkState (Engine.busy s) (Engine.marked s)
                  (Engine.running s)
                  (Engine.log s ++ [Engine.LogSkip (Name j)])))
  /\ (forall i j o,
        Engine.running s !! i = Some (j, Engine.Returned o) ->
        exists s', Engine.step s (Engine.Release i) = Some s'
                   /\ Engine.busy s' !! Name j = None
                   /\ Engine.isBusy s' (Name j) = false
                   /\ Engine.inFlight s' (Name j) = 0%nat).
Proof.
  intros Hreach. pose proof (reachable_consistent s Hreach) as Hc.
  split; [| split].
  - intros name. unfold Engine.isBusy. rewrite elem_of_dom.
    destruct (Hc name) as [[Hb Hn] | [Hb Hn]]; rewrite Hb, Hn; cbn.
    + split; [lia |]. split; split; intros _; try reflexivity. by eexists.
    + split; [lia |]. split; split; try discriminate.
      intros [x Hx]. discriminate.
  - intros j Hpol Hm Hb. cbn. rewrite Hm, Hb.
    unfold Engine.skipEvent. rewrite Hpol. reflexivity.
  - intros i j o Hi.
    assert (Hstep : Engine.step s (Engine.Release i)
                    = Some (Engine.mkState (delete (Name j) (Engine.busy s))
                              (Engine.marked s)
                              (delete i (Engine.running s)) (Engine.log s)))
      by (cbn; by rewrite Hi).
    eexists. split; [exact Hstep |].
    pose proof (consistent_step _ _ _ Hc Hstep) as Hc'.
    assert (Hgone : delete (Name j) (Engine.busy s) !! Name j = None)
      by apply lookup_delete_eq.
    split; [exact Hgone |]. split.
    + unfold Engine.isBusy. cbn. by rewrite Hgone.
    + destruct (Hc' (Name j)) as [[Hb _] | [_ Hn]]; [| exact Hn].
      cbn in Hb. congruence.
Qed.

Lemma busy_set_mutual_exclusion_witness :
  (Engine.inFlight busyState "health_check" <= 1)%nat
  /\ Engine.step busyState (Engine.Fire health_check)
     = Some (Engine.mkState (Engine.busy busyState) None
               (Engine.running busyState)
               [Engine.LogSkip "health_check"; Engine.LogSkip "health_check"])
  /\ exists s', Engine.step busyState (Engine.Release 0) = Some s'
                /\ Engine.isBusy s' "health_check" = false.
Proof.
  destruct (busy_set_mutual_exclusion busyState busyState_reachable)
    as (Hexcl & Hskip & Hrel).
  split; [apply Hexcl |]. split.
  - apply (Hskip health_check); reflexivity.
  - destruct (Hrel 0%nat health_check GaveUp eq_refl) as (s' & Hstep & _ & Hb & _).
    exists s'. split; assumption.
Defined.

(** ** Strings that end in a unit *)

Section Strings.

Lemma append_snoc_nonempty (x : string) (u : ascii) :
  x +:+ String u "" <> "".
Proof. destruct x; discriminate. Qed.

Lemma length_snoc (x : string) (u : ascii) :
  String.length (x +:+ String u "") = S (String.length x).
Proof.
  induction x as [| c x IH]; [reflexivity |].
  change (String c x +:+ String u "") with (String c (x +:+ String u "")).
  simpl. by rewrite IH.
Qed.

Lemma append_cons (c : ascii) (x y : string) :
  String c x +:+ y = String c (x +:+ y).
Proof. reflexivity. Qed.

Lemma TrimRightSpace_snoc (x : string) (u : ascii) :
  isSpace u = false ->
  TrimRightSpace (x +:+ String u "") = x +:+ String u "".
Proof.
  intros Hu. induction x as [| c x IH].
  - simpl. by rewrite Hu.
  - rewrite append_cons. simpl. rewrite IH.
    destruct (x +:+ String u "") eqn:Hx; [| reflexivity].
    by apply append_snoc_nonempty in Hx.
Qed.

Lemma ToLower_app (x y : string) :
  ToLower (x +:+ y) = ToLower x +:+ ToLower y.
Proof.
  induction x as [| c x IH]; [reflexivity |].
  rewrite append_cons. simpl. by rewrite append_cons, IH.
Qed.

Lemma isDigit_code (c : ascii) : isDigit c = true <-> 48 <= code c <= 57.
Proof. unfold isDigit. rewrite andb_true_iff, !Z.leb_le. tauto. Qed.

Lemma digit_neq (d c : ascii) :
  isDigit d = true -> isDigit c = false -> Ascii.eqb d c = false.
Proof.
  intros Hd Hc. destruct (Ascii.eqb_spec d c) as [-> |]; [congruence | done].
Qed.

Lemma digit_not_space (d : ascii) : isDigit d = true -> isSpace d = false.
Proof.
  rewrite isDigit_code. intros Hd. unfold isSpace.
  apply orb_false_iff. split; [apply andb_false_iff; right |]; lia.
Qed.

Lemma digit_lower (d : ascii) : isDigit d = true -> lower d = d.
Proof.
  rewrite isDigit_code. intros Hd. unfold lower.
  destruct ((65 <=? code d) && (code d <=? 90)) eqn:Hb; [lia | reflexivity].
Qed.

Lemma digitVal_range (d : ascii) : isDigit d = true -> 0 <= digitVal d <= 9.
Proof. rewrite isDigit_code. unfold digitVal. lia. Qed.

Lemma ToLower_digits (ds : string) : allDigits ds = true -> ToLower ds = ds.
Proof.
  induction ds as [| d ds IH]; simpl; [done |].
  intros [Hd Hds]%andb_true_iff. by rewrite digit_lower, IH.
Qed.

Lemma drop_length_app (x y : string) : drop (String.length x) (x +:+ y) = y.
Proof.
  induction x as [| c x IH]; [reflexivity |].
  rewrite append_cons. simpl. exact IH.
Qed.

Lemma take_length_app (x y : string) : take (String.length x) (x +:+ y) = x.
Proof.
  induction x as [| c x IH]; [reflexivity |].
  rewrite append_cons. simpl. by rewrite IH.
Qed.

Lemma HasSuffix_snoc (x : string) (u c : ascii) :
  HasSuffix (x +:+ String u "") (String c "") = Ascii.eqb u c.
Proof.
  unfold HasSuffix. rewrite length_snoc. cbn [String.length].
  replace (S (String.length x) - 1)%nat with (String.length x) by lia.
  rewrite drop_length_app. simpl. destruct (Ascii.eqb u c); reflexivity.
Qed.

Lemma lastByte_snoc (x : string) (u : ascii) :
  lastByte (x +:+ String u "") = Some u.
Proof.
  induction x as [| c x IH]; [reflexivity |].
  rewrite append_cons. simpl. rewrite IH.
  destruct (x +:+ String u "") eqn:Hx; [| reflexivity].
  by apply append_snoc_nonempty in Hx.
Qed.

Lemma take_snoc (x : string) (u : ascii) :
  take (String.length (x +:+ String u "") - 1) (x +:+ String u "") = x.
Proof.
  rewrite length_snoc.
  replace (S (String.length x) - 1)%nat with (String.length x) by lia.
  apply take_length_app.
Qed.

Lemma Contains_without (s : string) (c : ascii) (sub : string) :
  without c s = true -> Contains s (String c sub) = false.
Proof.
  induction s as [| c' s IH]; simpl; [done |].
  intros [Hc Hs]%andb_true_iff. apply negb_true_iff in Hc.
  rewrite Hc. simpl. by apply IH.
Qed.

Lemma without_app (c : ascii) (x y : string) :
  without c (x +:+ y) = without c x && without c y.
Proof.
  induction x as [| c' x IH]; [reflexivity |].
  rewrite append_cons. simpl. by rewrite IH, andb_assoc.
Qed.

Lemma without_space_digits (ds : string) :
  allDigits ds = true -> without " " ds = true.
Proof.
  induction ds as [| d ds IH]; simpl; [done |].
  intros [Hd Hds]%andb_true_iff.
  rewrite (digit_neq d " ") by done. simpl. by apply IH.
Qed.

End Strings.

(** ** Durations written as digits and a unit *)

Lemma digitsValueFrom_ge (ds : string) (x : Z) :
  allDigits ds = true -> 0 <= x -> x <= digitsValueFrom ds x.
Proof.
  revert x. induction ds as [| d ds IH]; simpl; intros x Hds Hx; [lia |].
  apply andb_true_iff in Hds as [Hd Hds].
  pose proof (digitVal_range d Hd).
  specialize (IH (x * 10 + digitVal d) Hds). lia.
Qed.

Lemma leadingIntFrom_digits (ds rest : string) (x : Z) :
  allDigits ds = true -> 0 <= x -> digitsValueFrom ds x <= 2 ^ 63 ->
  leadingIntFrom (ds +:+ rest) x = leadingIntFrom rest (digitsValueFrom ds x).
Proof.
  revert x. induction ds as [| d ds IH]; intros x Hds Hx Hfit; [reflexivity |].
  rewrite append_cons. simpl in *.
  apply andb_true_iff in Hds as [Hd Hds]. rewrite Hd.
  pose proof (digitVal_range d Hd) as Hv.
  pose proof (digitsValueFrom_ge ds (x * 10 + digitVal d) Hds ltac:(lia)) as Hge.
  change (2 ^ 63) with 9223372036854775808 in *.
  change (9223372036854775808 / 10) with 922337203685477580.
  destruct (x >? 922337203685477580) eqn:H1; [lia |].
  destruct (x * 10 + digitVal d >? 9223372036854775808) eqn:H2; [lia |].
  apply IH; [assumption | lia | assumption].
Qed.

Lemma leadingIntFrom_stop (u : ascii) (r : string) (x : Z) :
  isDigit u = false -> leadingIntFrom (String u r) x = Some (x, String u r).
Proof. intros Hu. simpl. by rewrite Hu. Qed.

Lemma leadingInt_digits_unit (ds : string) (u : ascii) :
  allDigits ds = true -> isDigit u = false -> digitsValue ds <= 2 ^ 63 ->
  leadingInt (ds +:+ String u "") = Some (digitsValue ds, String u "").
Proof.
  intros Hds Hu Hfit. unfold leadingInt.
  rewrite leadingIntFrom_digits by (try assumption; lia).
  by apply leadingIntFrom_stop.
Qed.

Lemma digitsValue_nonneg (ds : string) :
  allDigits ds = true -> 0 <= digitsValue ds.
Proof. intros Hds. by apply digitsValueFrom_ge. Qed.

Lemma readNumber_digits_unit (ds : string) (u : ascii) :
  ds <> "" -> allDigits ds = true ->
  isDigit u = false -> Ascii.eqb u "." = false ->
  digitsValue ds <= 2 ^ 63 ->
  readNumber (ds +:+ String u "") = Ok (digitsValue ds, 0, 1, String u "").
Proof.
  intros Hne Hds Hu Hdot Hfit. unfold readNumber.
  rewrite leadingInt_digits_unit by assumption.
  rewrite Hdot, length_snoc.
  destruct ds as [| d ds]; [done |]. reflexivity.
Qed.

(** One round of [parseGroups] on digits followed by a one-byte unit. *)
Lemma parseGroups_digits_unit (fuel : nat) (d : ascii) (ds : string) (u : ascii) :
  isDigit d = true -> allDigits ds = true ->
  isDigit u = false -> Ascii.eqb u "." = false ->
  digitsValue (String d ds) <= 2 ^ 63 ->
  parseGroups (S fuel) (String d ds +:+ String u "") 0
  = match unitMap (String u "") with
    | None => Err errUnknownUnit
    | Some unit => addGroup 0 (digitsValue (String d ds)) 0 1 unit
    end.
Proof.
  intros Hd Hds Hu Hdot Hfit.
  assert (Hall : allDigits (String d ds) = true) by (simpl; by rewrite Hd, Hds).
  rewrite append_cons.
  cbv beta iota delta [parseGroups]. fold parseGroups.
  rewrite Hd, orb_true_r. cbv beta iota delta [negb].
  rewrite <- append_cons.
  rewrite (readNumber_digits_unit (String d ds) u) by done.
  assert (Hspan : unitSpan (String u "") = (String u "", "")).
  { simpl. by rewrite Hdot, Hu. }
  rewrite Hspan. cbv beta iota.
  destruct (unitMap (String u "")) as [unit |]; [| reflexivity].
  destruct (addGroup _ _ _ _ _); [| reflexivity ..].
  destruct fuel; reflexivity.
Qed.

Lemma snoc_not_single (d : ascii) (ds : string) (u c : ascii) :
  String.eqb (String d ds +:+ String u "") (String c "") = false.
Proof.
  apply String.eqb_neq. intros Heq.
  apply (f_equal String.length) in Heq. rewrite length_snoc in Heq.
  simpl in Heq. lia.
Qed.

(** [ParseDuration] on digits followed by one of the units it knows. *)
Lemma ParseDuration_digits_unit (ds : string) (u : ascii) (unit : Z) :
  ds <> "" -> allDigits ds = true ->
  isDigit u = false -> Ascii.eqb u "." = false ->
  unitMap (String u "") = Some unit -> 0 < unit ->
  digitsValue ds * unit <= MaxInt64 ->
  ParseDuration (ds +:+ String u "") = Ok (digitsValue ds * unit).
Proof.
  intros Hne Hds Hu Hdot Hunit Hpos Hfit.
  destruct ds as [| d ds]; [done |].
  pose proof (digitsValue_nonneg _ Hds) as Hnn.
  simpl in Hds. apply andb_true_iff in Hds as [Hd Hds].
  unfold ParseDuration. rewrite append_cons.
  rewrite (digit_neq d "-"), (digit_neq d "+") by done.
  rewrite <- append_cons.
  rewrite snoc_not_single.
  change (String.eqb (String d ds +:+ String u "") "") with false.
  cbv iota. rewrite length_snoc.
  rewrite parseGroups_digits_unit; try assumption; [| int64; nia].
  rewrite Hunit. unfold addGroup.
  assert (Hdiv : digitsValue (String d ds) <= 2 ^ 63 / unit).
  { apply Z.div_le_lower_bound; [assumption |]. int64. lia. }
  destruct (_ >? 2 ^ 63 / unit) eqn:H1; [lia |].
  change (0 >? 0) with false. cbv beta iota zeta delta [andb].
  unfold wrapU64. rewrite Z.add_0_l.
  rewrite Z.mod_small by (int64; lia).
  destruct (_ >? 2 ^ 63) eqn:H2; [int64; lia |].
  unfold rbind. cbv iota beta.
  destruct (_ >? 2 ^ 63 - 1) eqn:H3; [int64; lia | reflexivity].
Qed.

(** Days are not a unit of [ParseDuration]. *)
Lemma ParseDuration_digits_d (ds : string) :
  ds <> "" -> allDigits ds = true -> digitsValue ds <= 2 ^ 63 ->
  ParseDuration (ds +:+ "d") = Err errUnknownUnit.
Proof.
  intros Hne Hds Hfit.
  destruct ds as [| d ds]; [done |].
  pose proof Hds as Hall.
  simpl in Hds. apply andb_true_iff in Hds as [Hd Hds].
  unfold ParseDuration. rewrite append_cons.
  rewrite (digit_neq d "-"), (digit_neq d "+") by done.
  rewrite <- append_cons.
  rewrite snoc_not_single.
  change (String.eqb (String d ds +:+ "d") "") with false.
  cbv iota. rewrite length_snoc.
  rewrite parseGroups_digits_unit by done.
  reflexivity.
Qed.

Lemma intervalUnit_cases (u : ascii) (unit : Z) :
  intervalUnit u = Some unit ->
  (u = "s"%char /\ unit = Second) \/ (u = "m"%char /\ unit = Minute)
  \/ (u = "h"%char /\ unit = Hour) \/ (u = "d"%char /\ unit = 24 * Hour).
Proof.
  unfold intervalUnit.
  destruct (Ascii.eqb_spec u "s"); [intros [= <-]; auto |].
  destruct (Ascii.eqb_spec u "m"); [intros [= <-]; auto |].
  destruct (Ascii.eqb_spec u "h"); [intros [= <-]; auto |].
  destruct (Ascii.eqb_spec u "d"); [intros [= <-]; auto 10 | discriminate].
Qed.

(** [parseDur] on digits followed by [s], [m], [h] or [d], when the
    interval fits in a duration. *)
Lemma parseDur_digits_unit (ds : string) (u : ascii) (unit : Z) :
  ds <> "" -> allDigits ds = true -> intervalUnit u = Some unit ->
  digitsValue ds * unit <= MaxInt64 ->
  parseDur (ds +:+ String u "") = Ok (digitsValue ds * unit).
Proof.
  intros Hne Hds Hunit Hfit.
  pose proof (digitsValue_nonneg _ Hds) as Hnn.
  assert (Hsp : isSpace u = false /\ runeString u = String u ""
                /\ isDigit u = false /\ Ascii.eqb u "." = false).
  { destruct (intervalUnit_cases u unit Hunit)
      as [[-> _] | [[-> _] | [[-> _] | [-> _]]]]; repeat split; reflexivity. }
  destruct Hsp as (Hspace & Hrune & Hnd & Hdot).
  unfold parseDur, TrimSpace.
  assert (Hleft : TrimLeftSpace (ds +:+ String u "") = ds +:+ String u "").
  { destruct ds as [| d ds]; [done |]. rewrite append_cons. simpl.
    simpl in Hds. apply andb_true_iff in Hds as [Hd _].
    by rewrite (digit_not_space d Hd). }
  rewrite Hleft, TrimRightSpace_snoc by assumption.
  rewrite lastByte_snoc, take_snoc, Hrune.
  destruct (intervalUnit_cases u unit Hunit)
    as [[-> ->] | [[-> ->] | [[-> ->] | [-> ->]]]].
  - by rewrite (ParseDuration_digits_unit ds "s" Second).
  - by rewrite (ParseDuration_digits_unit ds "m" Minute).
  - by rewrite (ParseDuration_digits_unit ds "h" Hour).
  - rewrite ParseDuration_digits_d; try assumption.
    2:{ int64. unfold Hour, Minute, Second, Millisecond, Microsecond,
          Nanosecond in Hfit. lia. }
    change (Ascii.eqb "d" "d") with true. cbv iota.
    rewrite (ParseDuration_digits_unit ds "h" Hour); try done.
    2:{ unfold Hour, Minute, Second, Millisecond, Microsecond,
          Nanosecond in *. lia. }
    unfold rbind. f_equal. rewrite wrap64_small; [lia |].
    int64. unfold Hour, Minute, Second, Millisecond, Microsecond,
             Nanosecond in *. lia.
Qed.

(** ** Pure intervals *)

Lemma append_assoc (x y z : string) : (x +:+ y) +:+ z = x +:+ (y +:+ z).
Proof.
  induction x as [| c x IH]; [reflexivity |].
  rewrite !append_cons. by rewrite IH.
Qed.

Lemma intervalUnit_lower (u : ascii) (unit : Z) :
  intervalUnit u = Some unit ->
  ToLower (String u "") = String u "" /\ isSpace u = false
  /\ Ascii.eqb u " " = false
  /\ (Ascii.eqb u "s" || Ascii.eqb u "m" || Ascii.eqb u "h" || Ascii.eqb u "d")
     = true.
Proof.
  intros Hunit.
  destruct (intervalUnit_cases u unit Hunit)
    as [[-> _] | [[-> _] | [[-> _] | [-> _]]]]; repeat split; reflexivity.
Qed.

(** C7, as stated, fails: an interval that does not fit in a duration
    (64-bit nanoseconds, some 292 years) is rejected by [time.ParseDuration]
    and [NextRun] returns its error instead of an instant. *)
Lemma pure_interval_overflow_rejected :
  NextRun utcOnly 0 "every 2562048h" t_2024_01_01_0800 = Some (Err errInvalid)
  /\ NextRun utcOnly 0 "every 2562048h" t_2024_01_01_0800
     <> Some (Ok (Add t_2024_01_01_0800 (2562048 * Hour))).
Proof. split; [reflexivity | discriminate]. Qed.

(** C7, amended.  For a pure interval ['every <N><unit>'] with [N] written
    in decimal digits and a unit among [s], [m], [h] and [d], whose length
    [N * unit] fits in a duration, [NextRun] returns exactly
    [from + N * unit], a day being 24 hours; so ['every 5m'] at [T] is
    [T] plus five minutes. *)
Theorem pure_interval_adds_duration
    (tz : Zones) (fuel : nat) (from : Time) (ds : string) (u : ascii) (unit : Z) :
  ds <> "" -> allDigits ds = true -> intervalUnit u = Some unit ->
  digitsValue ds * unit <= MaxInt64 ->
  NextRun tz fuel ("every " +:+ ds +:+ String u "") from
  = Some (Ok (Add from (digitsValue ds * unit))).
Proof.
  intros Hne Hds Hunit Hfit.
  destruct (intervalUnit_lower u unit Hunit) as (Hlow & Hspace & Hsp & Hsuf).
  set (body := ds +:+ String u "").
  assert (Htrim : TrimSpace ("every " +:+ body) = "every " +:+ body).
  { unfold TrimSpace.
    change (TrimLeftSpace ("every " +:+ body)) with ("every " +:+ body).
    unfold body. rewrite <- append_assoc. by apply TrimRightSpace_snoc. }
  assert (Hlower : ToLower ("every " +:+ body) = "every " +:+ body).
  { unfold body. rewrite !ToLower_app, Hlow, (ToLower_digits ds) by assumption.
    reflexivity. }
  assert (Hbody : HasPrefix body "at " = false /\ Contains body " at " = false).
  { split.
    - unfold body. destruct ds as [| d ds']; [done |].
      simpl in Hds. apply andb_true_iff in Hds as [Hd _].
      rewrite append_cons. simpl. by rewrite (digit_neq d "a").
    - apply Contains_without. unfold body.
      rewrite without_app, without_space_digits by assumption.
      simpl. by rewrite Hsp. }
  destruct Hbody as [Hpre Hcont].
  assert (Hat : Contains ("every " +:+ body) " at " = false).
  { change (Contains ("every " +:+ body) " at ")
      with (false || (false || (false || (false || (false ||
              ((true && HasPrefix body "at ") || Contains body " at ")))))).
    by rewrite Hpre, Hcont. }
  assert (Hends : forall c, HasSuffix ("every " +:+ body) (String c "")
                            = Ascii.eqb u c).
  { intros c. unfold body. rewrite <- append_assoc. apply HasSuffix_snoc. }
  unfold NextRun. rewrite Htrim, Hlower, !Hends, Hsuf, Hat.
  change (HasPrefix ("every " +:+ body) "every ") with true.
  cbv beta iota delta [andb negb].
  change (TrimPrefix ("every " +:+ body) "every ") with body.
  unfold body. by rewrite (parseDur_digits_unit ds u unit).
Qed.

Lemma pure_interval_adds_duration_witness :
  NextRun utcOnly 0 "every 5m" t_2024_01_01_0800
  = Some (Ok (Add t_2024_01_01_0800 (5 * Minute)))
  /\ NextRun utcOnly 0 "every 2d" t_2024_01_01_0800
     = Some (Ok (Add t_2024_01_01_0800 (2 * (24 * Hour)))).
Proof.
  split.
  - apply (pure_interval_adds_duration utcOnly 0 t_2024_01_01_0800
             "5" "m" Minute); [discriminate | reflexivity | reflexivity |].
    vm_compute. discriminate.
  - apply (pure_interval_adds_duration utcOnly 0 t_2024_01_01_0800
             "2" "d" (24 * Hour)); [discriminate | reflexivity | reflexivity |].
    vm_compute. discriminate.
Defined.

(** ** Clock times *)

Lemma weekdayLoop_eq (fuel : nat) (cand : Time) :
  weekdayLoop fuel cand
  = if (Monday <=? Weekday cand) && (Weekday cand <=? Friday) then Some cand
    else match fuel with
         | O => None
         | S fuel' => weekdayLoop fuel' (Add cand (24 * Hour))
         end.
Proof. destruct fuel; reflexivity. Qed.

(** The wall clock of an instant given in whole seconds, in a zone without
    transitions. *)
Lemma wallSec_fixed (loc : Location) (s : Z) :
  zoneTx loc = [] -> wallSec (mkTime (s * Second) loc) = s + zoneFirst loc.
Proof.
  intros Htx. unfold wallSec, unixSec. cbn [unixNano location].
  rewrite offsetAt_fixed by assumption.
  rewrite Z.div_mul by (unfold Second, Millisecond, Microsecond, Nanosecond; lia).
  reflexivity.
Qed.

Lemma Add_seconds (loc : Location) (s k : Z) :
  Add (mkTime (s * Second) loc) (k * Hour) = mkTime ((s + k * 3600) * Second) loc.
Proof.
  unfold Add. cbn [unixNano location]. f_equal.
  unfold Hour, Minute. lia.
Qed.

(** From any instant of a Saturday, in a zone without transitions, the next
    weekday 08:00 is 08:00 on the Monday that follows, two days later. *)
Lemma weekday_from_saturday_fixed (loc : Location) (from : Time) :
  zoneTx loc = [] -> Weekday (In from loc) = Saturday ->
  let monday := mkTime (((wallDays (In from loc) + 2) * secondsPerDay
                         + 8 * 3600 - zoneFirst loc) * Second) loc in
  nextAtTime 2 from "08:00" loc true = Some (In monday (location from))
  /\ wallDays monday = wallDays (In from loc) + 2
  /\ Weekday monday = Monday
  /\ Hour_of monday = 8 /\ Minute_of monday = 0 /\ Second_of monday = 0
  /\ After monday from = true.
Proof.
  intros Htx Hsat monday.
  set (day := wallDays (In from loc)) in *.
  assert (Hday : day = (unixSec from + zoneFirst loc) / secondsPerDay).
  { unfold day, wallDays, wallSec, In, unixSec. cbn [unixNano location].
    by rewrite offsetAt_fixed. }
  assert (Hwd : (day + 4) mod 7 = 6) by exact Hsat.
  assert (Hwall : wallSec monday = (day + 2) * secondsPerDay + 8 * 3600).
  { unfold monday. rewrite wallSec_fixed by assumption. lia. }
  assert (Hdays : wallDays monday = day + 2).
  { unfold wallDays. rewrite Hwall. unfold secondsPerDay.
    Z.div_mod_to_equations. lia. }
  split; [| split; [exact Hdays | split; [| split; [| split; [| split]]]]].
  - unfold nextAtTime.
    change (parseHH "08:00") with 8. change (parseMM "08:00") with 0.
    rewrite Date_today_fixed by assumption. rewrite <- Hday.
    set (today := mkTime ((day * secondsPerDay + 8 * 3600 + 0 * 60
                           - zoneFirst loc) * Second) loc).
    assert (Hwd_at : forall k,
               Weekday (mkTime ((day * secondsPerDay + 8 * 3600 + 0 * 60
                                 - zoneFirst loc + k * 24 * 3600) * Second) loc)
               = (day + k + 4) mod 7).
    { intros k. unfold Weekday, wallDays.
      rewrite wallSec_fixed by assumption. f_equal. f_equal.
      unfold secondsPerDay. Z.div_mod_to_equations. lia. }
    assert (Hstep : forall k,
               Add (mkTime ((day * secondsPerDay + 8 * 3600 + 0 * 60
                             - zoneFirst loc + k * 24 * 3600) * Second) loc)
                   (24 * Hour)
               = mkTime ((day * secondsPerDay + 8 * 3600 + 0 * 60
                          - zoneFirst loc + (k + 1) * 24 * 3600) * Second) loc).
    { intros k. rewrite Add_seconds. f_equal. lia. }
    assert (Htoday : today
                     = mkTime ((day * secondsPerDay + 8 * 3600 + 0 * 60
                                - zoneFirst loc + 0 * 24 * 3600) * Second) loc).
    { unfold today. f_equal. lia. }
    assert (Hmon : mkTime ((day * secondsPerDay + 8 * 3600 + 0 * 60
                            - zoneFirst loc + 2 * 24 * 3600) * Second) loc
                   = monday).
    { unfold monday, secondsPerDay. f_equal. lia. }
    assert (Hsat' : (day + 0 + 4) mod 7 = 6) by (rewrite Z.add_0_r; exact Hwd).
    assert (Hsun : (day + 1 + 4) mod 7 = 0) by (Z.div_mod_to_equations; lia).
    assert (Hmo : (day + 2 + 4) mod 7 = 1) by (Z.div_mod_to_equations; lia).
    rewrite Htoday.
    assert (Hloop1 : weekdayLoop 1
                       (mkTime ((day * secondsPerDay + 8 * 3600 + 0 * 60
                                 - zoneFirst loc + 1 * 24 * 3600) * Second) loc)
                     = Some monday).
    { rewrite weekdayLoop_eq, Hwd_at, Hsun.
      change ((Monday <=? 0) && (0 <=? Friday)) with false. cbv iota.
      rewrite Hstep. change (1 + 1) with 2.
      rewrite weekdayLoop_eq, Hwd_at, Hmo, Hmon. reflexivity. }
    destruct (negb (After _ (In from loc))).
    + rewrite Hstep. change (0 + 1) with 1.
      rewrite weekdayLoop_eq, Hwd_at, Hsun.
      change ((Monday <=? 0) && (0 <=? Friday)) with false. cbv iota.
      rewrite Hstep. change (1 + 1) with 2.
      rewrite weekdayLoop_eq, Hwd_at, Hmo, Hmon. reflexivity.
    + rewrite weekdayLoop_eq, Hwd_at, Hsat'.
      change ((Monday <=? 6) && (6 <=? Friday)) with false. cbv iota.
      rewrite Hstep. change (0 + 1) with 1.
      rewrite Hloop1. reflexivity.
  - unfold Weekday. rewrite Hdays. unfold Monday.
    Z.div_mod_to_equations. lia.
  - unfold Hour_of. rewrite Hwall. unfold secondsPerDay.
    Z.div_mod_to_equations. lia.
  - unfold Minute_of. rewrite Hwall. unfold secondsPerDay.
    Z.div_mod_to_equations. lia.
  - unfold Second_of. rewrite Hwall. unfold secondsPerDay.
    Z.div_mod_to_equations. lia.
  - unfold After, monday. cbn [unixNano]. apply Z.ltb_lt.
    rewrite Hday. unfold unixSec, secondsPerDay, Second, Millisecond,
      Microsecond, Nanosecond.
    Z.div_mod_to_equations. lia.
Qed.

(** C8 fails on the code where the offset of the zone changes.  The
    candidate is advanced with [Add(24 * time.Hour)], which is not one day
    of the wall clock when summer time begins or ends in between.  In
    Europe/Paris, from Saturday 2024-03-30 08:00 the next
    ['every weekday at 08:00'] is Monday 2024-04-01 at 09:00, not 08:00; and
    from that Saturday at 09:00 the next ['every day at 08:00'] is Sunday at
    09:00. *)
Theorem weekday_across_summer_time :
  let saturday := Date 2024 3 30 8 0 0 0 Europe_Paris in
  let monday := Date 2024 4 1 9 0 0 0 Europe_Paris in
  (Weekday saturday = Saturday /\ Hour_of saturday = 8 /\ Minute_of saturday = 0)
  /\ NextRun parisHost 2 "every weekday at 08:00" saturday = Some (Ok monday)
  /\ (Weekday monday = Monday /\ Hour_of monday = 9 /\ Minute_of monday = 0)
  /\ monday <> Date 2024 4 1 8 0 0 0 Europe_Paris
  /\ NextRun parisHost 0 "every day at 08:00"
       (Date 2024 3 30 9 0 0 0 Europe_Paris)
     = Some (Ok (Date 2024 3 31 9 0 0 0 Europe_Paris)).
Proof.
  repeat split; try reflexivity.
  intros Heq. apply (f_equal unixNano) in Heq. vm_compute in Heq. discriminate.
Qed.

(** ** The runner always returns *)

Lemma runLoop_returns (j : Job) (w : World) (backoffMin backoffMax : Z)
    (fuel : nat) (now attempt : Z) (slept : list Z) :
  (0 < fuel)%nat -> RetryN j - attempt < Z.of_nat fuel ->
  exists r, runLoop fuel j w backoffMin backoffMax now attempt slept = Some r
            /\ attempt < calls r.
Proof.
  revert now attempt slept.
  induction fuel as [| fuel IH]; intros now attempt slept Hpos Hfuel; [lia |].
  cbn [runLoop].
  destruct (RunShell _ now (process w attempt)) as [[e |] now1].
  - destruct (attempt + 1 >? RetryN j) eqn:Hr.
    + eexists. split; [reflexivity |]. cbn. lia.
    + destruct (sleepFor _ _) as [sleep | e' | e'].
      * destruct (doneAt _ _).
        -- eexists. split; [reflexivity |]. cbn. lia.
        -- destruct (IH (now1 + Z.max sleep 0) (attempt + 1)
                       (slept ++ [sleep])) as (r & Hrun & Hc); [lia | lia |].
           exists r. split; [exact Hrun | lia].
      * eexists. split; [reflexivity |]. cbn. lia.
      * eexists. split; [reflexivity |]. cbn. lia.
  - eexists. split; [reflexivity |]. cbn. lia.
Qed.

(** [runOnce] returns for every job and every world, after at least one
    call of [RunShell]. *)
Lemma runOnce_returns (j : Job) (w : World) (now : Z) :
  exists r, runOnce j w now = Some r /\ 1 <= calls r.
Proof.
  unfold runOnce. destruct (effectiveBackoff j) as [bmin bmax].
  destruct (runLoop_returns j w bmin bmax (S (Z.to_nat (RetryN j))) now 0 [])
    as (r & Hrun & Hc); [lia | lia |].
  exists r. split; [exact Hrun | lia].
Qed.

(** ** The fuel of [ParseDuration] is enough *)

Lemma leadingIntFrom_length (s : string) (x v : Z) (r : string) :
  leadingIntFrom s x = Some (v, r) -> (String.length r <= String.length s)%nat.
Proof.
  revert x. induction s as [| c s IH]; simpl; intros x Hrun.
  - injection Hrun as _ <-. simpl. lia.
  - destruct (isDigit c).
    + destruct (x >? 2 ^ 63 / 10); [discriminate |].
      destruct (x * 10 + digitVal c >? 2 ^ 63); [discriminate |].
      apply IH in Hrun. lia.
    + injection Hrun as _ <-. simpl. lia.
Qed.

Lemma leadingFractionFrom_length (s : string) (x scale : Z) (o : bool) :
  (String.length (snd (leadingFractionFrom s x scale o)) <= String.length s)%nat.
Proof.
  revert x scale o. induction s as [| c s IH]; simpl; intros x scale o; [lia |].
  destruct (isDigit c); [| simpl; lia].
  destruct o; [specialize (IH x scale true); lia |].
  destruct (x >? (2 ^ 63 - 1) / 10); [specialize (IH x scale true); lia |].
  destruct (x * 10 + digitVal c >? 2 ^ 63);
    [specialize (IH x scale true)
    | specialize (IH (x * 10 + digitVal c) (scale * 10) false)]; lia.
Qed.

Lemma unitSpan_length (s u r : string) :
  unitSpan s = (u, r) ->
  String.length s = (String.length u + String.length r)%nat.
Proof.
  revert u r. induction s as [| c s IH]; simpl; intros u r Hrun.
  - by injection Hrun as <- <-.
  - destruct (Ascii.eqb c "." || isDigit c).
    + by injection Hrun as <- <-.
    + destruct (unitSpan s) as [u' r'] eqn:Hs.
      injection Hrun as <- <-. simpl. by rewrite (IH u' r').
Qed.

(** Every round of [parseGroups] leaves a shorter string, so the result does
    not depend on the fuel once there is as much as the string is long. *)
Lemma parseGroups_fuel (fuel1 fuel2 : nat) (s : string) (d : Z) :
  (String.length s <= fuel1)%nat -> (String.length s <= fuel2)%nat ->
  parseGroups fuel1 s d = parseGroups fuel2 s d.
Proof.
  revert fuel2 s d.
  induction fuel1 as [| fuel1 IH]; intros fuel2 s d H1 H2.
  - destruct s; [| simpl in H1; lia]. destruct fuel2; reflexivity.
  - destruct s as [| c0 s0]; [destruct fuel2; reflexivity |].
    destruct fuel2 as [| fuel2]; [simpl in H2; lia |].
    cbn [parseGroups].
    destruct (negb _); [reflexivity |].
    destruct (readNumber (String c0 s0)) as [[[[v f] scale] s2] | e | e] eqn:Hnum;
      [| reflexivity ..].
    assert (Hs2 : (String.length s2 <= String.length (String c0 s0))%nat).
    { unfold readNumber in Hnum.
      destruct (leadingInt (String c0 s0)) as [[v' s1] |] eqn:Hint;
        [| discriminate].
      apply leadingIntFrom_length in Hint.
      destruct s1 as [| c1 s1'].
      - destruct (negb _ && negb false); [discriminate |].
        injection Hnum as _ _ _ <-. exact Hint.
      - destruct (Ascii.eqb c1 ".").
        + pose proof (leadingFractionFrom_length s1' 0 1 false) as Hfrac.
          unfold leadingFraction in Hnum.
          destruct (leadingFractionFrom s1' 0 1 false) as [[f' scale'] s2'].
          destruct (negb _ && negb _); [discriminate |].
          injection Hnum as _ _ _ <-.
          cbn [snd String.length] in *. lia.
        + destruct (negb _ && negb false); [discriminate |].
          injection Hnum as _ _ _ <-. exact Hint. }
    destruct (unitSpan s2) as [u s3] eqn:Hspan.
    apply unitSpan_length in Hspan.
    destruct u as [| cu u]; [reflexivity |].
    destruct (unitMap _); [| reflexivity].
    destruct (addGroup _ _ _ _ _); [| reflexivity ..].
    cbn [String.length] in Hspan, H1, H2, Hs2. apply IH; lia.
Qed.

(** ** Clock times in a zone without transitions *)

Lemma Weekday_range (t : Time) : 0 <= Weekday t < 7.
Proof. unfold Weekday. apply Z.mod_pos_bound. lia. Qed.

Lemma wallDays_Add_day (t : Time) :
  zoneTx (location t) = [] -> wallDays (Add t (24 * Hour)) = wallDays t + 1.
Proof.
  intros Htx. unfold wallDays, wallSec, unixSec, Add. cbn [unixNano location].
  rewrite !offsetAt_fixed by assumption.
  unfold secondsPerDay, Hour, Minute, Second, Millisecond, Microsecond,
    Nanosecond.
  Z.div_mod_to_equations. lia.
Qed.

Lemma Weekday_Add_day (t : Time) :
  zoneTx (location t) = [] ->
  Weekday (Add t (24 * Hour)) = (Weekday t + 1) mod 7.
Proof.
  intros Htx. unfold Weekday. rewrite wallDays_Add_day by assumption.
  Z.div_mod_to_equations. lia.
Qed.

(** The weekday loop ends within two rounds. *)
Lemma weekdayLoop_fixed (t : Time) :
  zoneTx (location t) = [] ->
  weekdayLoop 2 t = Some (Add t (weekendSkip (Weekday t) * (24 * Hour))).
Proof.
  intros Htx.
  pose proof (Weekday_range t) as Hr.
  pose proof (Weekday_Add_day t Htx) as H1.
  pose proof (Weekday_Add_day (Add t (24 * Hour)) Htx) as H2.
  rewrite H1 in H2.
  assert (Hcases : Weekday t = 0 \/ Weekday t = 6 \/ 1 <= Weekday t <= 5) by lia.
  rewrite weekdayLoop_eq.
  destruct Hcases as [H0 | [H6 | H15]].
  - rewrite H0 in *.
    change ((Monday <=? 0) && (0 <=? Friday)) with false. cbv iota.
    rewrite weekdayLoop_eq, H1.
    change ((Monday <=? (0 + 1) mod 7) && ((0 + 1) mod 7 <=? Friday)) with true.
    cbv iota. change (weekendSkip 0) with 1. by rewrite Z.mul_1_l.
  - rewrite H6 in *.
    change ((Monday <=? 6) && (6 <=? Friday)) with false. cbv iota.
    rewrite weekdayLoop_eq, H1.
    change ((Monday <=? (6 + 1) mod 7) && ((6 + 1) mod 7 <=? Friday)) with false.
    cbv iota. rewrite weekdayLoop_eq, H2.
    change ((Monday <=? ((6 + 1) mod 7 + 1) mod 7)
            && (((6 + 1) mod 7 + 1) mod 7 <=? Friday)) with true.
    cbv iota. change (weekendSkip 6) with 2.
    rewrite Add_Add. do 2 f_equal.
  - assert (Hwd : (Monday <=? Weekday t) && (Weekday t <=? Friday) = true).
    { unfold Monday, Friday. apply andb_true_iff. lia. }
    rewrite Hwd.
    assert (Hskip : weekendSkip (Weekday t) = 0).
    { unfold weekendSkip, Saturday, Sunday.
      destruct (Weekday t =? 6) eqn:E6; [lia |].
      destruct (Weekday t =? 0) eqn:E0; [lia | reflexivity]. }
    by rewrite Hskip, Z.mul_0_l, Add_zero.
Qed.

Lemma wallClockAt_Add (loc : Location) (day k j h m : Z) :
  Add (wallClockAt loc day k h m) (j * (24 * Hour)) = wallClockAt loc day (k + j) h m.
Proof.
  unfold wallClockAt, Add. cbn [unixNano location]. f_equal.
  unfold secondsPerDay, Hour, Minute. lia.
Qed.

(** What the wall clock shows at [wallClockAt]. *)
Lemma wallClockAt_reads (loc : Location) (day k h m : Z) :
  zoneTx loc = [] -> 0 <= h <= 23 -> 0 <= m <= 59 ->
  let t := wallClockAt loc day k h m in
  wallDays t = day + k /\ Weekday t = (day + k + 4) mod 7
  /\ Hour_of t = h /\ Minute_of t = m /\ Second_of t = 0.
Proof.
  intros Htx Hh Hm t.
  assert (Hwall : wallSec t = (day + k) * secondsPerDay + h * 3600 + m * 60).
  { unfold t, wallClockAt. rewrite wallSec_fixed by assumption. lia. }
  assert (Hdays : wallDays t = day + k).
  { unfold wallDays. rewrite Hwall. unfold secondsPerDay.
    Z.div_mod_to_equations. lia. }
  unfold Weekday, Hour_of, Minute_of, Second_of.
  rewrite Hdays, Hwall. unfold secondsPerDay.
  repeat split; try reflexivity; Z.div_mod_to_equations; lia.
Qed.

(** Tomorrow's [h:m] is after now, today's midnight is not. *)
Lemma wallClockAt_after (loc : Location) (from : Time) (k h m : Z) :
  zoneTx loc = [] -> 0 <= h <= 23 -> 0 <= m <= 59 -> 1 <= k ->
  After (wallClockAt loc (wallDays (In from loc)) k h m) from = true.
Proof.
  intros Htx Hh Hm Hk. unfold After, wallClockAt. cbn [unixNano].
  apply Z.ltb_lt.
  unfold wallDays, wallSec, In, unixSec. cbn [unixNano location].
  rewrite offsetAt_fixed by assumption.
  unfold secondsPerDay, Second, Millisecond, Microsecond, Nanosecond.
  Z.div_mod_to_equations. nia.
Qed.

(** The clock-time forms in a zone without transitions: [nextAtTime] returns
    [HH:MM] on the first day, counted from today, on which that instant is
    strictly after the reference and, for the weekday form, falls on Monday
    to Friday. *)
Lemma clock_next_fixed (loc : Location) (from : Time) (hhmm : string)
    (weekdayOnly : bool) :
  zoneTx loc = [] ->
  let h := parseHH hhmm in
  let m := parseMM hhmm in
  let day := wallDays (In from loc) in
  let eligible k :=
    After (wallClockAt loc day k h m) from = true
    /\ (weekdayOnly = true ->
        Monday <= Weekday (wallClockAt loc day k h m) <= Friday) in
  exists k, 0 <= k <= 3
    /\ nextAtTime 2 from hhmm loc weekdayOnly
       = Some (In (wallClockAt loc day k h m) (location from))
    /\ eligible k
    /\ (forall k', 0 <= k' < k -> ~ eligible k').
Proof.
  intros Htx h m day eligible.
  pose proof (parseHH_range hhmm) as Hh. pose proof (parseMM_range hhmm) as Hm.
  fold h in Hh. fold m in Hm.
  assert (Hwd : forall k, Weekday (wallClockAt loc day k h m) = (day + k + 4) mod 7).
  { intros k. by apply wallClockAt_reads. }
  assert (Hlater : forall k, 1 <= k -> After (wallClockAt loc day k h m) from = true).
  { intros k Hk. by apply wallClockAt_after. }
  assert (Htoday : Date (Year (In from loc)) (Month (In from loc))
                     (Day (In from loc)) h m 0 0 loc
                   = wallClockAt loc day 0 h m).
  { rewrite Date_today_fixed by assumption. unfold wallClockAt. f_equal.
    unfold day, wallDays, wallSec, In, unixSec. cbn [unixNano location].
    rewrite offsetAt_fixed by assumption. f_equal. lia. }
  (* the candidate before the weekday loop: today, or tomorrow *)
  assert (Hcand : exists k0, 0 <= k0 <= 1
             /\ (if negb (After (wallClockAt loc day 0 h m) (In from loc))
                 then Add (wallClockAt loc day 0 h m) (24 * Hour)
                 else wallClockAt loc day 0 h m) = wallClockAt loc day k0 h m
             /\ After (wallClockAt loc day k0 h m) from = true
             /\ (forall k', 0 <= k' < k0 ->
                   After (wallClockAt loc day k' h m) from = false)).
  { destruct (After (wallClockAt loc day 0 h m) (In from loc)) eqn:Ha.
    - exists 0. repeat split; [lia | lia | exact Ha | intros; lia].
    - exists 1. split; [lia |]. split; [| split].
      + cbn [negb].
        replace (24 * Hour) with (1 * (24 * Hour)) by lia.
        by rewrite wallClockAt_Add.
      + apply Hlater. lia.
      + intros k' Hk'. replace k' with 0 by lia. exact Ha. }
  destruct Hcand as (k0 & Hk0 & Hcand & Hafter & Hbefore).
  unfold nextAtTime. fold h. fold m. rewrite Htoday, Hcand.
  destruct weekdayOnly.
  - rewrite weekdayLoop_fixed by assumption.
    rewrite wallClockAt_Add, Hwd.
    set (w := (day + k0 + 4) mod 7).
    assert (Hw : w = 0 \/ w = 6 \/ 1 <= w <= 5)
      by (subst w; Z.div_mod_to_equations; lia).
    destruct Hw as [H0 | [H6 | H15]].
    + (* Sunday: one day on *)
      rewrite H0. change (weekendSkip 0) with 1.
      exists (k0 + 1). split; [lia |]. split; [reflexivity |]. split.
      * split; [apply Hlater; lia |]. intros _. rewrite Hwd.
        unfold Monday, Friday. subst w. Z.div_mod_to_equations. lia.
      * intros k' Hk' [Ha Hwk].
        destruct (Z_lt_le_dec k' k0) as [Hlt | Hge].
        -- rewrite Hbefore in Ha by lia. discriminate.
        -- specialize (Hwk eq_refl). rewrite Hwd in Hwk.
           replace k' with k0 in Hwk by lia. fold w in Hwk.
           unfold Monday in Hwk. lia.
    + (* Saturday: two days on *)
      rewrite H6. change (weekendSkip 6) with 2.
      exists (k0 + 2). split; [lia |]. split; [reflexivity |]. split.
      * split; [apply Hlater; lia |]. intros _. rewrite Hwd.
        unfold Monday, Friday. subst w. Z.div_mod_to_equations. lia.
      * intros k' Hk' [Ha Hwk].
        destruct (Z_lt_le_dec k' k0) as [Hlt | Hge].
        -- rewrite Hbefore in Ha by lia. discriminate.
        -- specialize (Hwk eq_refl). rewrite Hwd in Hwk.
           unfold Monday, Friday in Hwk. subst w.
           assert (k' = k0 \/ k' = k0 + 1) as [-> | ->] by lia;
             Z.div_mod_to_equations; lia.
    + (* Monday to Friday: that day *)
      assert (Hskip : weekendSkip w = 0).
      { unfold weekendSkip, Saturday, Sunday.
        destruct (w =? 6) eqn:E6; [lia |].
        destruct (w =? 0) eqn:E0; [lia | reflexivity]. }
      rewrite Hskip, Z.add_0_r.
      exists k0. split; [lia |]. split; [reflexivity |]. split.
      * split; [exact Hafter |]. intros _. rewrite Hwd. fold w.
        unfold Monday, Friday. lia.
      * intros k' Hk' [Ha _]. rewrite Hbefore in Ha by lia. discriminate.
  - exists k0. split; [lia |]. split; [reflexivity |]. split.
    + split; [exact Hafter | discriminate].
    + intros k' Hk' [Ha _]. rewrite Hbefore in Ha by lia. discriminate.
Qed.

(** ** Cutting a string at a separator *)

Lemma Contains_app_r (x y sub : string) :
  Contains y sub = true -> Contains (x +:+ y) sub = true.
Proof.
  intros Hy. induction x as [| c x IH]; [exact Hy |].
  rewrite append_cons. cbn [Contains]. rewrite IH. apply orb_true_r.
Qed.

Lemma HasPrefix_app_self (sep y : string) : HasPrefix (sep +:+ y) sep = true.
Proof.
  induction sep as [| c sep IH]; [reflexivity |].
  rewrite append_cons. cbn [HasPrefix]. by rewrite Ascii.eqb_refl, IH.
Qed.

Lemma Cut_skip (c : ascii) (r sep : string) :
  HasPrefix (String c r) sep = false ->
  Cut (String c r) sep
  = (let '(b, a, found) := Cut r sep in (String c b, a, found)).
Proof.
  intros Hp. destruct sep as [| c' sep]; [discriminate |].
  cbn [Cut]. cbn [HasPrefix] in Hp. cbn [HasPrefix]. by rewrite Hp.
Qed.

Lemma Cut_without (x y : string) (c : ascii) (sep : string) :
  without c x = true ->
  Cut (x +:+ String c sep +:+ y) (String c sep) = (x, y, true).
Proof.
  induction x as [| c' x IH]; intros Hw.
  - change ("" +:+ String c sep +:+ y) with (String c sep +:+ y).
    assert (Hp : HasPrefix (String c sep +:+ y) (String c sep) = true)
      by apply HasPrefix_app_self.
    pose proof (drop_length_app (String c sep) y) as Hd.
    destruct (String c sep +:+ y) eqn:Hs; [discriminate |].
    cbn [Cut]. rewrite Hp. by rewrite Hd.
  - simpl in Hw. apply andb_true_iff in Hw as [Hc Hw].
    apply negb_true_iff in Hc.
    rewrite append_cons, Cut_skip.
    + by rewrite (IH Hw).
    + cbn [HasPrefix]. by rewrite Hc.
Qed.

(** ** The environment of the command *)

Lemma size_pos_nonempty (env : gmap string string) :
  (0 <? size env)%nat = true <-> env <> ∅.
Proof.
  rewrite Nat.ltb_lt. split.
  - intros Hs ->. rewrite map_size_empty in Hs. lia.
  - intros Hne. destruct (size env) eqn:Hs; [| lia].
    apply map_size_empty_inv in Hs. contradiction.
Qed.

Lemma IndexByte_without (x y : string) (c : ascii) :
  without c x = true -> IndexByte (x +:+ String c y) c = Some (String.length x).
Proof.
  induction x as [| c' x IH]; intros Hw.
  - simpl. by rewrite Ascii.eqb_refl.
  - simpl in Hw. apply andb_true_iff in Hw as [Hc Hw].
    apply negb_true_iff in Hc.
    rewrite append_cons. cbn [IndexByte]. rewrite Hc, (IH Hw). reflexivity.
Qed.

(** The entry of a declarable pair is read back under its key. *)
Lemma envKey_entry (caseInsensitive : bool) (kv : string * string) :
  declarable kv = true ->
  envKey caseInsensitive (entry kv)
  = Some (if caseInsensitive then ToLower kv.1 else kv.1).
Proof.
  destruct kv as [k v]. unfold declarable. cbn [fst snd].
  intros [[[Hne Heq]%andb_true_iff _]%andb_true_iff _]%andb_true_iff.
  unfold envKey, keyEnd, entry. cbn [fst snd].
  change ("=" +:+ v) with (String "=" v).
  rewrite (IndexByte_without k v "=" Heq).
  destruct k as [| c k]; [discriminate |].
  cbn [String.length]. by rewrite (take_length_app (String c k)).
Qed.

Lemma cleanEntry_entry (kv : string * string) :
  declarable kv = true -> cleanEntry (entry kv) = true.
Proof.
  destruct kv as [k v]. unfold declarable, cleanEntry, entry. cbn [fst snd].
  intros [[[Hne _]%andb_true_iff Hk]%andb_true_iff Hv]%andb_true_iff.
  rewrite !without_app, Hk, Hv.
  destruct k as [| c k]; [discriminate |]. reflexivity.
Qed.

Lemma isSystemRoot_entry (kv : string * string) :
  declarable kv = true ->
  isSystemRoot (entry kv) = EqualFold kv.1 "SYSTEMROOT".
Proof.
  destruct kv as [k v]. unfold declarable. cbn [fst snd].
  intros [[[_ Heq]%andb_true_iff _]%andb_true_iff _]%andb_true_iff.
  unfold isSystemRoot, entry. cbn [fst snd].
  by rewrite (Cut_without k v "=" "" Heq).
Qed.

Lemma omap_reverse {A B : Type} (f : A -> option B) (l : list A) :
  omap f (reverse l) = reverse (omap f l).
Proof.
  induction l as [| x l IH]; [reflexivity |].
  rewrite reverse_cons, omap_app, IH. cbn [omap list_omap].
  destruct (f x) as [y |].
  - by rewrite reverse_cons.
  - by rewrite app_nil_r.
Qed.

(** Entries that are clean and whose keys differ from one another and from
    the keys met are all kept. *)
Lemma dedupFrom_keeps (caseInsensitive nulOK : bool) (renv : list string)
    (saw : gset string) (out : list string) (err : option string) :
  Forall (fun kv => cleanEntry kv = true) renv ->
  NoDup (omap (envKey caseInsensitive) renv) ->
  (forall k, k ∈ omap (envKey caseInsensitive) renv -> k ∉ saw) ->
  dedupFrom caseInsensitive nulOK renv saw out err = (reverse renv ++ out, err).
Proof.
  revert saw out.
  induction renv as [| kv rest IH]; intros saw out Hclean Hnd Hsaw;
    [reflexivity |].
  apply Forall_cons in Hclean as [Hkv Hclean].
  unfold cleanEntry in Hkv. apply andb_true_iff in Hkv as [Hne Hnul].
  cbn [dedupFrom]. rewrite Hnul, andb_false_r.
  rewrite reverse_cons, <- app_assoc. cbn [app].
  cbn [omap list_omap] in Hnd, Hsaw.
  destruct (envKey caseInsensitive kv) as [k |] eqn:Hk.
  - apply NoDup_cons in Hnd as [Hfresh Hnd].
    rewrite bool_decide_eq_false_2 by (apply Hsaw; apply list_elem_of_here).
    apply IH; [exact Hclean | exact Hnd |].
    intros k' Hin. rewrite elem_of_union, elem_of_singleton.
    intros [-> | Hs]; [contradiction |].
    by apply (Hsaw k'); [apply list_elem_of_further |].
  - apply negb_true_iff in Hne. rewrite Hne.
    by apply IH.
Qed.

Lemma dedupEnv_clean (goos : string) (env : list string) :
  Forall (fun kv => cleanEntry kv = true) env ->
  NoDup (omap (envKey (String.eqb goos "windows")) env) ->
  dedupEnv goos env = (env, None).
Proof.
  intros Hclean Hnd. unfold dedupEnv.
  rewrite dedupFrom_keeps.
  - by rewrite reverse_involutive, app_nil_r.
  - by apply Forall_reverse.
  - by rewrite omap_reverse, reverse_Permutation.
  - intros k _. apply not_elem_of_empty.
Qed.

(** The keys under which the entries of declarable pairs are read back. *)
Lemma omap_envKey_entries (caseInsensitive : bool)
    (order : list (string * string)) :
  Forall (fun kv => declarable kv = true) order ->
  omap (envKey caseInsensitive) (entry <$> order)
  = (fun kv => if caseInsensitive then ToLower kv.1 else kv.1) <$> order.
Proof.
  induction 1 as [| kv order Hkv _ IH]; [reflexivity |].
  cbn [fmap list_fmap omap list_omap].
  rewrite (envKey_entry _ kv Hkv). cbn. f_equal. exact IH.
Qed.

(** [c.Env] after the block that attaches the entries. *)
Lemma shellCmd_env (goos command : string) (env : gmap string string)
    (order : list (string * string)) :
  order ≡ₚ map_to_list env ->
  CmdEnv (shellCmd goos command env order)
  = if decide (env = ∅) then None else Some (entry <$> order).
Proof.
  intros Hperm. unfold shellCmd. destruct (decide (env = ∅)) as [-> | Hne].
  - rewrite map_size_empty. cbn. by destruct (String.eqb goos "windows").
  - apply size_pos_nonempty in Hne as Hsz. rewrite Hsz.
    assert (Hord : order <> []).
    { intros ->. apply Permutation_nil_l in Hperm.
      symmetry in Hperm. apply map_to_list_empty_iff in Hperm. contradiction. }
    destruct (String.eqb goos "windows"); cbn;
      destruct order; [contradiction | reflexivity
                      | contradiction | reflexivity].
Qed.

(** C10, as it holds.  When the job declares at least one environment entry,
    with keys that are not empty and hold no [=] and no NUL byte in a key or
    a value, the environment of the child is made of the declared
    [key=value] pairs, in the order of the map iteration, and of nothing of
    the parent; on Windows, for keys of ASCII bytes that differ in more than
    the case of their letters and of which none is [SYSTEMROOT] in any case,
    they are followed by the entry [SYSTEMROOT] that [os/exec] adds from the
    parent.  When the job declares none, the child has the environment of
    the parent, unchanged when that holds no empty entry, no NUL byte and no
    two entries of one key, and on Windows keys of ASCII bytes and an entry
    for [SYSTEMROOT]. *)
Theorem shell_env_declared_or_inherited
    (goos command : string) (env : gmap string string)
    (order : list (string * string)) (parent : list string) (root : string) :
  order ≡ₚ map_to_list env ->
  (env <> ∅ ->
     Forall (fun kv => declarable kv = true) order ->
     (goos = "windows" ->
        Forall (fun kv => isASCII kv.1 = true
                          /\ EqualFold kv.1 "SYSTEMROOT" = false) order
        /\ NoDup (ToLower <$> order.*1)) ->
     environ goos parent root (shellCmd goos command env order)
     = Ok ((entry <$> order) ++ critical goos root)
     /\ (entry <$> order) ≡ₚ entry <$> map_to_list env)
  /\ (env = ∅ ->
        Forall (fun kv => cleanEntry kv = true) parent ->
        NoDup (omap (envKey (String.eqb goos "windows")) parent) ->
        (goos = "windows" ->
           Forall (fun kv => asciiKey kv = true) parent
           /\ existsb isSystemRoot parent = true) ->
        environ goos parent root (shellCmd goos command env order)
        = Ok parent).
Proof.
  intros Hperm. split.
  - intros Hne Hdecl Hwin. split; [| by apply fmap_Permutation].
    unfold environ. rewrite (shellCmd_env _ _ _ _ Hperm).
    destruct (decide (env = ∅)) as [He | _]; [contradiction |].
    rewrite dedupEnv_clean.
    + f_equal. unfold addCriticalEnv, critical.
      destruct (String.eqb goos "windows") eqn:Hgoos; cbn [negb];
        [| by rewrite app_nil_r].
      apply String.eqb_eq in Hgoos. destruct (Hwin Hgoos) as [Hkeys _].
      assert (Hnone : existsb isSystemRoot (entry <$> order) = false).
      { clear -Hdecl Hkeys. induction order as [| kv order IH]; [reflexivity |].
        apply Forall_cons in Hdecl as [Hkv Hdecl].
        apply Forall_cons in Hkeys as [[_ Hfold] Hkeys].
        cbn [fmap list_fmap existsb].
        rewrite (isSystemRoot_entry kv Hkv), Hfold. cbn [orb].
        by apply IH. }
      by rewrite Hnone.
    + clear -Hdecl. induction Hdecl as [| kv order Hkv _ IH]; constructor;
        [by apply cleanEntry_entry | exact IH].
    + rewrite (omap_envKey_entries _ _ Hdecl).
      destruct (String.eqb goos "windows") eqn:Hgoos.
      * apply String.eqb_eq in Hgoos. destruct (Hwin Hgoos) as [_ Hnd].
        by rewrite <- list_fmap_compose in Hnd.
      * change (NoDup (order.*1)). rewrite Hperm.
        apply NoDup_fst_map_to_list.
  - intros -> Hclean Hnd Hwin.
    unfold environ. rewrite (shellCmd_env _ _ _ _ Hperm).
    destruct (decide ((∅ : gmap string string) = ∅)) as [_ | Hne];
      [| contradiction].
    rewrite (dedupEnv_clean goos parent Hclean Hnd).
    f_equal. unfold addCriticalEnv.
    destruct (String.eqb goos "windows") eqn:Hgoos; cbn [negb]; [| reflexivity].
    apply String.eqb_eq in Hgoos. destruct (Hwin Hgoos) as [_ Hroot].
    by rewrite Hroot.
Qed.

Lemma shell_env_declared_or_inherited_witness :
  environ "linux" ["HOME=/root"] ""
    (shellCmd "linux" "date" {[ "PORT" := "8080" ]}
       (map_to_list ({[ "PORT" := "8080" ]} : gmap string string)))
  = Ok ["PORT=8080"]
  /\ environ "windows" ["SystemRoot=C:\Windows"] "C:\Windows"
       (shellCmd "windows" "date" {[ "PORT" := "8080" ]}
          (map_to_list ({[ "PORT" := "8080" ]} : gmap string string)))
     = Ok ["PORT=8080"; "SYSTEMROOT=C:\Windows"]
  /\ environ "linux" ["HOME=/root"] "" (shellCmd "linux" "date" ∅ (map_to_list ∅))
     = Ok ["HOME=/root"]
  /\ environ "windows" ["SystemRoot=C:\Windows"] "C:\Windows"
       (shellCmd "windows" "date" ∅ (map_to_list ∅))
     = Ok ["SystemRoot=C:\Windows"].
Proof.
  assert (Hone : map_to_list ({[ "PORT" := "8080" ]} : gmap string string)
                 = [("PORT", "8080")]) by apply map_to_list_singleton.
  assert (Hdecl : Forall (fun kv => declarable kv = true) [("PORT", "8080")])
    by (repeat constructor).
  split; [| split; [| split]].
  - destruct (shell_env_declared_or_inherited "linux" "date"
                {[ "PORT" := "8080" ]}
                (map_to_list ({[ "PORT" := "8080" ]} : gmap string string))
                ["HOME=/root"] "") as [Hd _]; [reflexivity |].
    destruct Hd as [Heq _].
    + apply map_non_empty_singleton.
    + rewrite Hone. exact Hdecl.
    + discriminate.
    + rewrite Heq, Hone. reflexivity.
  - destruct (shell_env_declared_or_inherited "windows" "date"
                {[ "PORT" := "8080" ]}
                (map_to_list ({[ "PORT" := "8080" ]} : gmap string string))
                ["SystemRoot=C:\Windows"] "C:\Windows") as [Hd _];
      [reflexivity |].
    destruct Hd as [Heq _].
    + apply map_non_empty_singleton.
    + rewrite Hone. exact Hdecl.
    + intros _. rewrite Hone. split.
      * repeat constructor.
      * apply NoDup_singleton.
    + rewrite Heq, Hone. reflexivity.
  - destruct (shell_env_declared_or_inherited "linux" "date" ∅
                (map_to_list ∅) ["HOME=/root"] "") as [_ Hinh]; [reflexivity |].
    apply Hinh; [reflexivity | repeat constructor | | discriminate].
    cbn. apply NoDup_singleton.
  - destruct (shell_env_declared_or_inherited "windows" "date" ∅
                (map_to_list ∅) ["SystemRoot=C:\Windows"] "C:\Windows")
      as [_ Hinh]; [reflexivity |].
    apply Hinh; [reflexivity | repeat constructor | |].
    + cbn. apply NoDup_singleton.
    + intros _. split; [repeat constructor | reflexivity].
Defined.

(** C10, as it fails.  The child does not get exactly the declared pairs:
    on Windows, for the one declared pair [PORT=8080], [os/exec] adds
    [SYSTEMROOT] from the parent; and on any system, of the two declared
    keys [A] and [A=B], whose entries [A=1] and [A=B=2] are both read back
    under the key [A], only the entry that comes last in the map iteration
    reaches the child. *)
Theorem shell_env_not_exactly_declared :
  environ "windows" ["SystemRoot=C:\Windows"] "C:\Windows"
    (shellCmd "windows" "date" {[ "PORT" := "8080" ]} [("PORT", "8080")])
  = Ok ["PORT=8080"; "SYSTEMROOT=C:\Windows"]
  /\ [("A", "1"); ("A=B", "2")] ≡ₚ map_to_list clashing
  /\ environ "linux" ["HOME=/root"] ""
       (shellCmd "linux" "date" clashing [("A", "1"); ("A=B", "2")])
     = Ok ["A=B=2"]
  /\ environ "linux" ["HOME=/root"] ""
       (shellCmd "linux" "date" clashing [("A=B", "2"); ("A", "1")])
     = Ok ["A=1"].
Proof.
  assert (Hperm : [("A", "1"); ("A=B", "2")] ≡ₚ map_to_list clashing).
  { unfold clashing. rewrite map_to_list_insert by reflexivity.
    by rewrite map_to_list_singleton. }
  assert (Hne : clashing <> ∅).
  { unfold clashing. apply insert_non_empty. }
  assert (Hone : ({[ "PORT" := "8080" ]} : gmap string string) <> ∅)
    by apply map_non_empty_singleton.
  split; [| split; [exact Hperm | split]].
  - unfold environ. rewrite shellCmd_env by (by rewrite map_to_list_singleton).
    destruct (decide (_ = ∅)); [contradiction |]. reflexivity.
  - unfold environ. rewrite (shellCmd_env _ _ _ _ Hperm).
    destruct (decide (_ = ∅)); [contradiction |]. reflexivity.
  - unfold environ. rewrite shellCmd_env
      by (rewrite <- Hperm; apply Permutation_swap).
    destruct (decide (_ = ∅)); [contradiction |]. reflexivity.
Qed.

(** * Further properties of the code *)

(** ** The earliest item *)

Lemma scan_inv (rest pre : list Planner.item) (soon : nat) (best : Time) :
  scanInv pre soon best ->
  exists best',
    scanInv (pre ++ rest)
      (Planner.scan rest (List.length pre) soon best) best'.
Proof.
  revert pre soon best.
  induction rest as [| it rest IH]; intros pre soon best Hinv.
  - exists best. by rewrite app_nil_r.
  - cbn [Planner.scan].
    replace (pre ++ it :: rest) with ((pre ++ [it]) ++ rest)
      by (by rewrite <- app_assoc).
    assert (Hlen : S (List.length pre) = List.length (pre ++ [it]))
      by (rewrite List.length_app; cbn; lia).
    rewrite Hlen.
    destruct Hinv as ((b & Hb & ->) & Hmin & Hfirst).
    unfold Before.
    destruct (unixNano (Planner.next it) <? unixNano (Planner.next b)) eqn:Hlt.
    + apply Z.ltb_lt in Hlt. apply IH. split; [| split].
      * exists it. split; [| reflexivity]. apply list_lookup_middle. reflexivity.
      * intros j x Hj. apply lookup_app_Some in Hj as [Hj | [_ Hj]].
        -- specialize (Hmin j x Hj). lia.
        -- destruct (j - length pre)%nat; [| discriminate].
           injection Hj as <-. lia.
      * intros j x Hlt' Hj. apply lookup_app_Some in Hj as [Hj | [Hge _]].
        -- specialize (Hmin j x Hj). lia.
        -- change (length pre) with (List.length pre) in Hge. lia.
    + apply Z.ltb_ge in Hlt. apply IH. split; [| split].
      * exists b. split; [| reflexivity]. by apply lookup_app_l_Some.
      * intros j x Hj. apply lookup_app_Some in Hj as [Hj | [_ Hj]].
        -- by apply (Hmin j x).
        -- destruct (j - length pre)%nat; [| discriminate].
           injection Hj as <-. lia.
      * intros j x Hlt' Hj. apply lookup_app_Some in Hj as [Hj | [Hge _]].
        -- by apply (Hfirst j x).
        -- apply lookup_lt_Some in Hb.
           change (length pre) with (List.length pre) in *. lia.
Qed.

(** X1.  At the head of the engine loop the item taken is the earliest one,
    and among items of equal time the first in the order of the program:
    no item is before it and every item in front of it is strictly after it.
    With no job at all the loop indexes an empty slice and panics. *)
Theorem due_is_first_earliest (items : list Planner.item) :
  match Planner.due items with
  | Ok it =>
      items !! Planner.soonest items = Some it
      /\ (forall j x, items !! j = Some x ->
            Before (Planner.next x) (Planner.next it) = false)
      /\ (forall j x, (j < Planner.soonest items)%nat -> items !! j = Some x ->
            Before (Planner.next it) (Planner.next x) = true)
  | Panic _ => items = []
  | Err _ => False
  end.
Proof.
  destruct items as [| it0 rest]; [reflexivity |].
  destruct (scan_inv rest [it0] 0 (Planner.next it0)) as (best & Hfinal).
  { split; [| split].
    - exists it0. split; reflexivity.
    - intros [| j] x Hj; [injection Hj as <-; lia | discriminate].
    - intros j x Hlt. lia. }
  assert (Hscan : Planner.soonest (it0 :: rest)
                  = Planner.scan rest 1 0 (Planner.next it0)).
  { cbn [Planner.soonest Planner.scan]. unfold Before.
    by rewrite Z.ltb_irrefl. }
  cbn [app List.length] in Hfinal. rewrite <- Hscan in Hfinal.
  destruct Hfinal as ((b & Hb & ->) & Hmin & Hfirst).
  unfold Planner.due. rewrite Hb. split; [reflexivity |]. split.
  - intros j x Hj. unfold Before. apply Z.ltb_ge. by apply (Hmin j x).
  - intros j x Hlt Hj. unfold Before. apply Z.ltb_lt. by apply (Hfirst j x).
Qed.

(** ** The initial planning *)



(** ** The executor *)

(** X3.  [RunShell] returns within 24 hours of its start, whatever the
    command and the context.  It returns [nil] only when the command exits
    with status zero within the 24 hours and no later than the context is
    done; and it does return [nil], at the instant the command exits, when
    the command exits with status zero in less than 24 hours and before the
    context is done. *)
Theorem RunShell_outcome (ctx : Context) (now : Z) (p : Process) :
  0 <= runsFor p ->
  now <= snd (RunShell ctx now p) <= now + 24 * Hour
  /\ (fst (RunShell ctx now p) = None ->
      exitsOk p = true /\ runsFor p <= 24 * Hour
      /\ match ctx with
         | Some c => now + runsFor p <= c
         | None => True
         end)
  /\ (exitsOk p = true -> runsFor p < 24 * Hour ->
      match ctx with
      | Some c => now + runsFor p < c
      | None => True
      end ->
      RunShell ctx now p = (None, now + runsFor p)).
Proof.
  intros Hrun. unfold RunShell.
  assert (Hh : 0 < 24 * Hour) by reflexivity.
  destruct ctx as [c |]; cbn [doneAt].
  - destruct (c <=? now) eqn:Hdone.
    + cbn [fst snd]. split; [lia |]. split; [discriminate |].
      intros _ _ Hc. lia.
    + destruct (now + runsFor p <=? now + 24 * Hour) eqn:Hfin; cbn [snd].
      * destruct (c <? now + runsFor p) eqn:Hc; cbn [fst snd].
        -- split; [lia |]. split; [discriminate |]. intros _ _ Hlt. lia.
        -- split; [lia |]. destruct (exitsOk p); split;
             try discriminate; try reflexivity.
           intros _. repeat split; lia.
      * destruct (c <? now + 24 * Hour) eqn:Hc; cbn [fst snd].
        -- split; [lia |]. split; [discriminate |]. intros _ Hlt _. lia.
        -- split; [lia |]. split; [discriminate |]. intros _ Hlt _. lia.
  - destruct (now + runsFor p <=? now + 24 * Hour) eqn:Hfin; cbn [fst snd].
    + split; [lia |]. destruct (exitsOk p); split;
        try discriminate; try reflexivity.
      intros _. repeat split; lia.
    + split; [lia |]. split; [discriminate |]. intros _ Hlt _. lia.
Qed.

Lemma RunShell_outcome_witness :
  RunShell (Some (5 * Second)) 0 (mkProcess (1 * Second) true)
  = (None, 1 * Second)
  /\ snd (RunShell None 0 (mkProcess (48 * Hour) true)) <= 24 * Hour.
Proof.
  split.
  - destruct (RunShell_outcome (Some (5 * Second)) 0
                (mkProcess (1 * Second) true)) as (_ & _ & Hnil);
      [vm_compute; discriminate |].
    apply Hnil; reflexivity.
  - destruct (RunShell_outcome None 0 (mkProcess (48 * Hour) true))
      as [[_ H] _]; [vm_compute; discriminate | exact H].
Defined.

(** ** The runner: attempts and sleeps *)

Lemma runLoop_report (j : Job) (w : World) (backoffMin backoffMax : Z)
    (fuel : nat) (now attempt : Z) (slept : list Z) (r : Report) :
  0 <= attempt <= Z.max (RetryN j) 0 ->
  runLoop fuel j w backoffMin backoffMax now attempt slept = Some r ->
  attempt < calls r <= Z.max (RetryN j) 0 + 1
  /\ Z.of_nat (List.length (sleeps r))
     = Z.of_nat (List.length slept) + (calls r - attempt - 1)
       + (match outcome r with CanceledInBackoff => 1 | _ => 0 end)
  /\ (outcome r = Succeeded -> exitsOk (process w (calls r - 1)) = true)
  /\ (outcome r = GaveUp -> calls r = Z.max (RetryN j) 0 + 1).
Proof.
  revert now attempt slept.
  induction fuel as [| fuel IH]; intros now attempt slept Hatt Hrun;
    [discriminate |].
  cbn [runLoop] in Hrun.
  destruct (RunShell _ now (process w attempt)) as [[e |] now1] eqn:Hshell.
  - destruct (attempt + 1 >? RetryN j) eqn:Hr.
    + injection Hrun as <-. cbn. repeat split; try lia; discriminate.
    + destruct (sleepFor _ _) as [sleep | e' | e'].
      * destruct (doneAt _ _).
        -- injection Hrun as <-. cbn. rewrite List.length_app. cbn.
           repeat split; try lia; discriminate.
        -- apply IH in Hrun; [| lia].
           rewrite List.length_app in Hrun. cbn in Hrun.
           destruct Hrun as (Hc & Hs & Hok & Hgave).
           repeat split; try lia; assumption.
      * injection Hrun as <-. cbn. repeat split; try lia; discriminate.
      * injection Hrun as <-. cbn. repeat split; try lia; discriminate.
  - injection Hrun as <-. cbn. repeat split; try lia; try discriminate.
    intros _. replace (attempt + 1 - 1) with attempt by lia.
    unfold RunShell in Hshell.
    destruct (doneAt _ now); [discriminate |].
    destruct (now + runsFor (process w attempt) <=? now + 24 * Hour);
      [| destruct (if Timeout j >? 0 then _ else _) as [c |];
         [destruct (c <? _) |]; discriminate].
    destruct (exitsOk (process w attempt)); [reflexivity |].
    destruct (if Timeout j >? 0 then _ else _) as [c |];
      [destruct (c <? _) |]; discriminate.
Qed.

(** X4.  An invocation calls [RunShell] at least once and at most
    [RetryN + 1] times.  It sleeps once between two calls (and once more
    when the context ends it during a backoff); it reports success only when
    the command of its last call has exited with status zero, and gives up
    only after [RetryN + 1] calls. *)
Theorem runOnce_attempts_bounded (j : Job) (w : World) (now : Z) :
  exists r, runOnce j w now = Some r
    /\ 1 <= calls r <= Z.max (RetryN j) 0 + 1
    /\ Z.of_nat (List.length (sleeps r))
       = calls r - 1
         + (match outcome r with CanceledInBackoff => 1 | _ => 0 end)
    /\ (outcome r = Succeeded -> exitsOk (process w (calls r - 1)) = true)
    /\ (outcome r = GaveUp -> calls r = Z.max (RetryN j) 0 + 1).
Proof.
  destruct (runOnce_returns j w now) as (r & Hrun & _).
  exists r. split; [exact Hrun |].
  unfold runOnce in Hrun. destruct (effectiveBackoff j) as [bmin bmax].
  apply runLoop_report in Hrun; [| lia].
  cbn [List.length] in Hrun. destruct Hrun as (Hc & Hs & Hok & Hgave).
  repeat split; try lia; assumption.
Qed.

(** The sleep after a failed attempt, for bounds in range. *)
Lemma sleep_in_bounds (attempt backoffMin backoffMax r : Z) :
  1 <= attempt -> 0 <= backoffMin <= backoffMax -> backoffMax <= MaxInt64 ->
  64 * backoffMin <= MaxInt64 ->
  exists sl, sleepFor (backoff attempt backoffMin backoffMax) r = Ok sl
             /\ Z.min backoffMin (backoffMax / 2) <= sl <= backoffMax.
Proof.
  intros Ha Hb Hmax H64.
  assert (Hpow : 2 <= 2 ^ Z.min attempt 6 <= 64).
  { split.
    - change 2 with (2 ^ 1) at 1. apply Z.pow_le_mono_r; lia.
    - change 64 with (2 ^ 6). apply Z.pow_le_mono_r; lia. }
  assert (Hbase : backoff attempt backoffMin backoffMax
                  = Z.min (backoffMin * 2 ^ Z.min attempt 6) backoffMax)
    by (apply backoff_min; [lia | lia | nia]).
  rewrite Hbase.
  set (base := Z.min (backoffMin * 2 ^ Z.min attempt 6) backoffMax).
  assert (Hrange : Z.min (2 * backoffMin) backoffMax <= base <= backoffMax)
    by (subst base; nia).
  destruct (sleepFor_bounds base r) as (sl & Hsl & Hbounds); [lia |].
  exists sl. split; [exact Hsl |].
  revert Hbounds Hrange. generalize base. intros b Hbounds Hrange.
  Z.div_mod_to_equations. lia.
Qed.

Lemma runLoop_sleeps (j : Job) (w : World) (backoffMin backoffMax : Z)
    (fuel : nat) (now attempt : Z) (slept : list Z) (r : Report) :
  0 <= attempt -> 0 <= backoffMin <= backoffMax -> backoffMax <= MaxInt64 ->
  64 * backoffMin <= MaxInt64 ->
  Forall (fun sl => Z.min backoffMin (backoffMax / 2) <= sl <= backoffMax) slept ->
  runLoop fuel j w backoffMin backoffMax now attempt slept = Some r ->
  outcome r <> Panicked
  /\ Forall (fun sl => Z.min backoffMin (backoffMax / 2) <= sl <= backoffMax)
            (sleeps r).
Proof.
  intros Hatt Hb Hmax H64. revert now attempt slept Hatt.
  induction fuel as [| fuel IH]; intros now attempt slept Hatt Hslept Hrun;
    [discriminate |].
  cbn [runLoop] in Hrun.
  destruct (RunShell _ now (process w attempt)) as [[e |] now1].
  - destruct (attempt + 1 >? RetryN j).
    + injection Hrun as <-. cbn. split; [discriminate | exact Hslept].
    + destruct (sleep_in_bounds (attempt + 1) backoffMin backoffMax
                  (draw w (attempt + 1))) as (sl & Hsl & Hbounds);
        [lia | lia | lia | lia |].
      rewrite Hsl in Hrun.
      assert (Hslept' : Forall (fun sl => Z.min backoffMin (backoffMax / 2)
                                          <= sl <= backoffMax) (slept ++ [sl])).
      { apply Forall_app. split; [exact Hslept |]. by apply Forall_singleton. }
      destruct (doneAt _ _).
      * injection Hrun as <-. cbn. split; [discriminate | exact Hslept'].
      * eapply IH; [| exact Hslept' | exact Hrun]. lia.
  - injection Hrun as <-. cbn. split; [discriminate | exact Hslept].
Qed.

Lemma effectiveBackoff_valid (j : Job) :
  0 <= BackoffA j <= BackoffB j -> BackoffB j <= MaxInt64 ->
  64 * BackoffA j <= MaxInt64 ->
  0 <= fst (effectiveBackoff j) <= snd (effectiveBackoff j)
  /\ snd (effectiveBackoff j) <= MaxInt64
  /\ 64 * fst (effectiveBackoff j) <= MaxInt64
  /\ (BackoffB j = 0 -> effectiveBackoff j = (1 * Second, 30 * Second))
  /\ (BackoffB j <> 0 -> effectiveBackoff j = (BackoffA j, BackoffB j)).
Proof.
  intros Hb Hmax H64. unfold effectiveBackoff.
  destruct ((BackoffA j =? 0) && (BackoffB j =? 0)) eqn:Hz.
  - apply andb_true_iff in Hz as [Ha Hbz]. cbn [fst snd].
    split; [split; vm_compute; discriminate |].
    split; [vm_compute; discriminate |].
    split; [vm_compute; discriminate |].
    split; [reflexivity |]. lia.
  - cbn [fst snd]. apply andb_false_iff in Hz.
    split; [lia |]. split; [lia |]. split; [lia |].
    split; [lia | reflexivity].
Qed.

(** Within these bounds an invocation returns without a panic, its sleeps
    bounded. *)
Lemma runOnce_in_range (j : Job) (w : World) (now : Z) :
  0 <= BackoffA j <= BackoffB j -> BackoffB j <= MaxInt64 ->
  64 * BackoffA j <= MaxInt64 ->
  let backoffMin := if BackoffB j =? 0 then 1 * Second else BackoffA j in
  let backoffMax := if BackoffB j =? 0 then 30 * Second else BackoffB j in
  exists r, runOnce j w now = Some r
    /\ outcome r <> Panicked
    /\ Forall (fun sl => Z.min backoffMin (backoffMax / 2) <= sl <= backoffMax)
              (sleeps r).
Proof.
  intros Hb Hmax H64 bmin bmax.
  destruct (runOnce_returns j w now) as (r & Hrun & _).
  exists r. split; [exact Hrun |].
  destruct (effectiveBackoff_valid j Hb Hmax H64)
    as (Hv1 & Hv2 & Hv3 & Hzero & Hnz).
  assert (Heff : effectiveBackoff j = (bmin, bmax)).
  { subst bmin bmax. destruct (BackoffB j =? 0) eqn:Hz.
    - apply Hzero. lia.
    - apply Hnz. lia. }
  unfold runOnce in Hrun. rewrite Heff in *. cbn [fst snd] in *.
  eapply runLoop_sleeps; [| | | | | exact Hrun]; try lia. constructor.
Qed.

(** X5.  For a job whose backoff bounds are durations in range
    ([0 <= BackoffA <= BackoffB], with [64 * BackoffA] a 64-bit duration),
    the runner never panics and every backoff sleep of an invocation lies
    between [min(backoffMin, backoffMax/2)] and [backoffMax], the bounds
    being those of the job, or 1s and 30s when the job has none. *)
Theorem runOnce_sleeps_bounded (j : Job) (w : World) (now : Z) :
  0 <= BackoffA j <= BackoffB j -> BackoffB j <= MaxInt64 ->
  64 * BackoffA j <= MaxInt64 ->
  let backoffMin := if BackoffB j =? 0 then 1 * Second else BackoffA j in
  let backoffMax := if BackoffB j =? 0 then 30 * Second else BackoffB j in
  exists r, runOnce j w now = Some r
    /\ outcome r <> Panicked
    /\ Forall (fun sl => Z.min backoffMin (backoffMax / 2) <= sl <= backoffMax)
              (sleeps r).
Proof. exact (runOnce_in_range j w now). Qed.

Lemma runOnce_sleeps_bounded_witness :
  exists r, runOnce health_check alwaysFails 0 = Some r
    /\ Forall (fun sl => 1 * Second <= sl <= 5 * Second) (sleeps r).
Proof.
  destruct (runOnce_sleeps_bounded health_check alwaysFails 0)
    as (r & Hrun & _ & Hsl);
    [split; vm_compute; discriminate | vm_compute; discriminate
    | vm_compute; discriminate |].
  exists r. split; [exact Hrun | exact Hsl].
Defined.

(** ** The runner: exhausted retries and cancellation *)

Lemma RunShell_fails (ctx : Context) (now : Z) (p : Process) :
  exitsOk p = false -> exists e t, RunShell ctx now p = (Some e, t).
Proof.
  intros Hp. unfold RunShell. rewrite Hp.
  destruct (doneAt ctx now); [by eexists _, _ |].
  destruct (now + runsFor p <=? now + 24 * Hour);
    (destruct ctx as [c |]; [destruct (c <? _) |]); by eexists _, _.
Qed.

Lemma runLoop_all_fail (j : Job) (w : World) (backoffMin backoffMax : Z)
    (fuel : nat) (now attempt : Z) (slept : list Z) (r : Report) :
  Timeout j <= 0 -> rootCtx w = None ->
  (forall n, exitsOk (process w n) = false) ->
  0 <= attempt <= RetryN j ->
  runLoop fuel j w backoffMin backoffMax now attempt slept = Some r ->
  outcome r = GaveUp \/ outcome r = Panicked.
Proof.
  intros Ht Hroot Hfail. revert now attempt slept.
  induction fuel as [| fuel IH]; intros now attempt slept Hatt Hrun;
    [discriminate |].
  cbn [runLoop] in Hrun.
  destruct (Timeout j >? 0) eqn:Htz; [lia |]. rewrite Hroot in Hrun.
  destruct (RunShell_fails None now (process w attempt) (Hfail attempt))
    as (e & t & Hshell).
  rewrite Hshell in Hrun.
  destruct (attempt + 1 >? RetryN j) eqn:Hr.
  - injection Hrun as <-. by left.
  - destruct (sleepFor _ _) as [sleep | e' | e'].
    + cbn [doneAt] in Hrun. eapply IH; [| exact Hrun]. lia.
    + injection Hrun as <-. by right.
    + injection Hrun as <-. by right.
Qed.

(** X6.  When the job has no timeout, the root context is never canceled
    and the command fails at every call, an invocation with backoff bounds
    in range makes exactly [RetryN + 1] calls, sleeps [RetryN] times and
    gives up. *)
Theorem runOnce_exhausts_retries (j : Job) (w : World) (now : Z) :
  Timeout j <= 0 -> rootCtx w = None ->
  (forall n, exitsOk (process w n) = false) ->
  0 <= RetryN j ->
  0 <= BackoffA j <= BackoffB j -> BackoffB j <= MaxInt64 ->
  64 * BackoffA j <= MaxInt64 ->
  exists r, runOnce j w now = Some r
    /\ outcome r = GaveUp
    /\ calls r = RetryN j + 1
    /\ Z.of_nat (List.length (sleeps r)) = RetryN j.
Proof.
  intros Ht Hroot Hfail Hretry Hb Hmax H64.
  destruct (runOnce_in_range j w now Hb Hmax H64) as (r & Hrun & Hnp & _).
  exists r. split; [exact Hrun |].
  pose proof Hrun as Hrun'.
  unfold runOnce in Hrun, Hrun'. destruct (effectiveBackoff j) as [bmin bmax].
  apply runLoop_all_fail in Hrun; try assumption; [| lia].
  destruct Hrun as [Hg | Hp]; [| contradiction].
  apply runLoop_report in Hrun'; [| lia].
  destruct Hrun' as (_ & Hs & _ & Hgave).
  specialize (Hgave Hg). rewrite Hg in Hs. cbn [List.length] in Hs.
  split; [exact Hg |]. split; lia.
Qed.

Lemma runOnce_exhausts_retries_witness :
  exists r, runOnce flaky alwaysFails 0 = Some r
    /\ outcome r = GaveUp /\ calls r = 3
    /\ Z.of_nat (List.length (sleeps r)) = 2.
Proof.
  destruct (runOnce_exhausts_retries flaky alwaysFails 0)
    as (r & Hrun & Hg & Hc & Hs);
    [vm_compute; discriminate | reflexivity | reflexivity
    | vm_compute; discriminate | split; vm_compute; discriminate
    | vm_compute; discriminate | vm_compute; discriminate |].
  exists r. repeat split; assumption.
Defined.

(** X7.  Under a root context that is already canceled an invocation does
    not run the command: its single call of [RunShell] fails at the start
    and no retry follows, since the backoff, whose sleep is positive for
    bounds in range of at least 1ns and 2ns, is cut short by the context;
    [runOnce] returns at the instant it was started. *)
Theorem runOnce_canceled_root (j : Job) (w : World) (now : Z) :
  doneAt (rootCtx w) now = true ->
  0 <= BackoffA j <= BackoffB j -> BackoffB j <= MaxInt64 ->
  64 * BackoffA j <= MaxInt64 ->
  BackoffB j = 0 \/ (1 <= BackoffA j /\ 2 <= BackoffB j) ->
  exists r, runOnce j w now = Some r
    /\ calls r = 1 /\ finished r = now
    /\ (outcome r = GaveUp \/ outcome r = CanceledInBackoff)
    /\ Forall (fun sl => 0 < sl) (sleeps r).
Proof.
  intros Hdone Hb Hmax H64 Hpos.
  destruct (effectiveBackoff_valid j Hb Hmax H64)
    as (Hv1 & Hv2 & Hv3 & Hzero & Hnz).
  destruct (rootCtx w) as [c |] eqn:Hroot; [| discriminate].
  cbn [doneAt] in Hdone. apply Z.leb_le in Hdone.
  unfold runOnce. destruct (effectiveBackoff j) as [bmin bmax].
  cbn [fst snd] in *.
  assert (Hlow : 1 <= bmin /\ 2 <= bmax).
  { destruct Hpos as [Hz | [Ha Hb2]].
    - specialize (Hzero Hz). injection Hzero as -> ->.
      split; vm_compute; discriminate.
    - assert (Hne : BackoffB j <> 0) by lia.
      specialize (Hnz Hne). injection Hnz as -> ->. lia. }
  cbn [runLoop]. rewrite Hroot.
  set (runCtx := if Timeout j >? 0 then WithTimeout (Some c) now (Timeout j)
                 else Some c).
  assert (Hrun : forall t, now <= t -> doneAt runCtx t = true).
  { intros t Ht. subst runCtx. destruct (Timeout j >? 0); cbn;
      apply Z.leb_le; lia. }
  unfold RunShell at 1. rewrite (Hrun now) by lia.
  change (0 + 1) with 1.
  destruct (1 >? RetryN j).
  - eexists. split; [reflexivity |]. cbn.
    split; [reflexivity |]. split; [reflexivity |]. split; [by left |].
    constructor.
  - destruct (sleep_in_bounds 1 bmin bmax (draw w 1))
      as (sl & Hsl & Hbounds); [lia | lia | lia | lia |].
    rewrite Hsl, Hrun by lia.
    eexists. split; [reflexivity |]. cbn.
    split; [reflexivity |]. split; [reflexivity |]. split; [by right |].
    apply Forall_singleton.
    assert (1 <= bmax / 2) by (Z.div_mod_to_equations; lia). lia.
Qed.

Lemma runOnce_canceled_root_witness :
  exists r, runOnce health_check canceledWorld 5 = Some r
    /\ calls r = 1 /\ finished r = 5.
Proof.
  destruct (runOnce_canceled_root health_check canceledWorld 5)
    as (r & Hrun & Hc & Hf & _);
    [reflexivity | split; vm_compute; discriminate | vm_compute; discriminate
    | vm_compute; discriminate
    | right; split; vm_compute; discriminate |].
  exists r. repeat split; assumption.
Defined.

(** ** The branches of [NextRun] *)

Lemma NextRun_branches (tz : Zones) (fuel : nat) (expr : string) (from : Time) :
  NextRun tz fuel expr from
  = let l := ToLower (TrimSpace expr) in
    if isPureInterval l
    then Some (let? d := parseDur (TrimPrefix l "every ") in Ok (Add from d))
    else if isClockTime l then clockBranch tz fuel l from
    else if isAnchored l then anchoredBranch tz fuel l from
    else Some (Err (unsupported (TrimSpace expr))).
Proof. reflexivity. Qed.

(** ** White space and case *)

Lemma isSpace_lower (c : ascii) : isSpace (lower c) = isSpace c.
Proof. destruct c as [[] [] [] [] [] [] [] []]; reflexivity. Qed.

Lemma lower_lower (c : ascii) : lower (lower c) = lower c.
Proof. destruct c as [[] [] [] [] [] [] [] []]; reflexivity. Qed.

Lemma ToLower_idem (s : string) : ToLower (ToLower s) = ToLower s.
Proof.
  induction s as [| c s IH]; [reflexivity |].
  simpl. by rewrite lower_lower, IH.
Qed.

Lemma TrimLeftSpace_ToLower (s : string) :
  TrimLeftSpace (ToLower s) = ToLower (TrimLeftSpace s).
Proof.
  induction s as [| c s IH]; [reflexivity |].
  simpl. rewrite isSpace_lower. destruct (isSpace c); [exact IH | reflexivity].
Qed.

Lemma ToLower_empty (s : string) : ToLower s = "" <-> s = "".
Proof. destruct s; simpl; split; intros H; try discriminate; reflexivity. Qed.

Lemma TrimRightSpace_ToLower (s : string) :
  TrimRightSpace (ToLower s) = ToLower (TrimRightSpace s).
Proof.
  induction s as [| c s IH]; [reflexivity |].
  simpl. rewrite IH, isSpace_lower.
  destruct (TrimRightSpace s) as [| c' r]; simpl;
    [destruct (isSpace c) |]; reflexivity.
Qed.

Lemma TrimSpace_ToLower (s : string) :
  TrimSpace (ToLower s) = ToLower (TrimSpace s).
Proof.
  unfold TrimSpace. by rewrite TrimLeftSpace_ToLower, TrimRightSpace_ToLower.
Qed.

(** The first byte of a string, when it is not white space, survives
    [TrimRightSpace]. *)
Lemma TrimRightSpace_head (c : ascii) (s : string) :
  isSpace c = false ->
  exists r, TrimRightSpace (String c s) = String c r.
Proof.
  intros Hc. simpl. destruct (TrimRightSpace s) as [| c' r].
  - rewrite Hc. by eexists.
  - by eexists.
Qed.

Lemma TrimLeftSpace_head (s : string) :
  TrimLeftSpace s = ""
  \/ exists c r, TrimLeftSpace s = String c r /\ isSpace c = false.
Proof.
  induction s as [| c s IH]; [by left |].
  simpl. destruct (isSpace c) eqn:Hc; [exact IH |].
  right. by exists c, s.
Qed.

Lemma TrimRightSpace_idem (s : string) :
  TrimRightSpace (TrimRightSpace s) = TrimRightSpace s.
Proof.
  induction s as [| c s IH]; [reflexivity |].
  simpl. destruct (TrimRightSpace s) as [| c' r] eqn:Hs.
  - destruct (isSpace c) eqn:Hc; [reflexivity |]. simpl. by rewrite Hc.
  - change (TrimRightSpace (String c (String c' r)))
      with (match TrimRightSpace (String c' r) with
            | "" => if isSpace c then "" else String c ""
            | r' => String c r'
            end).
    rewrite IH. reflexivity.
Qed.

Lemma TrimSpace_idem (s : string) : TrimSpace (TrimSpace s) = TrimSpace s.
Proof.
  unfold TrimSpace.
  destruct (TrimLeftSpace_head s) as [-> | (c & r & -> & Hc)]; [reflexivity |].
  destruct (TrimRightSpace_head c r Hc) as [r' Hr].
  rewrite Hr. cbn [TrimLeftSpace]. rewrite Hc.
  by rewrite <- Hr, TrimRightSpace_idem.
Qed.

Lemma normal_form_fixed (expr : string) :
  ToLower (TrimSpace (ToLower (TrimSpace expr))) = ToLower (TrimSpace expr).
Proof. by rewrite TrimSpace_ToLower, TrimSpace_idem, ToLower_idem. Qed.

(** X8.  [NextRun] reads a schedule, here of ASCII bytes, without regard
    to case or to white space around it: an expression and its trimmed,
    lower-cased form give the same result, or both are rejected (the error
    for an unsupported expression quotes the text as it was written). *)
Theorem NextRun_ignores_case_and_margin
    (tz : Zones) (fuel : nat) (expr : string) (from : Time) :
  isASCII expr = true ->
  let l := ToLower (TrimSpace expr) in
  NextRun tz fuel expr from = NextRun tz fuel l from
  \/ ((exists e, NextRun tz fuel expr from = Some (Err e))
      /\ (exists e, NextRun tz fuel l from = Some (Err e))).
Proof.
  intros _ l.
  assert (Hl : ToLower (TrimSpace l) = l) by apply normal_form_fixed.
  rewrite (NextRun_branches tz fuel expr), (NextRun_branches tz fuel l).
  cbv zeta. rewrite Hl. fold l.
  destruct (isPureInterval l); [by left |].
  destruct (isClockTime l); [by left |].
  destruct (isAnchored l); [by left |].
  right. split; eexists; reflexivity.
Qed.

Lemma NextRun_ignores_case_and_margin_witness :
  NextRun utcOnly 2 "  Every Day AT 08:30 " t_2024_01_01_0800
  = NextRun utcOnly 2 "every day at 08:30" t_2024_01_01_0800.
Proof.
  destruct (NextRun_ignores_case_and_margin utcOnly 2 "  Every Day AT 08:30 "
              t_2024_01_01_0800 eq_refl) as [Heq | [[e He] _]].
  - exact Heq.
  - vm_compute in He. discriminate He.
Defined.

(** ** Expressions that are rejected *)

Lemma HasPrefix_app_false (l p q : string) :
  HasPrefix l p = false -> HasPrefix l (p +:+ q) = false.
Proof.
  revert l. induction p as [| c p IH]; intros l Hp; [discriminate |].
  rewrite append_cons. cbn [HasPrefix] in *.
  destruct l as [| c' l]; [reflexivity |].
  destruct (Ascii.eqb c' c); [| reflexivity].
  cbn [andb] in *. by apply IH.
Qed.

Lemma isClockTime_false (l : string) :
  HasPrefix l "at " = false ->
  HasPrefix l "every day at " = false ->
  HasPrefix l "every weekday at " = false ->
  isClockTime l = false.
Proof. intros H1 H2 H3. unfold isClockTime. by rewrite H1, H2, H3. Qed.

Lemma no_every_no_clock (l : string) :
  HasPrefix l "every " = false ->
  HasPrefix l "every day at " = false
  /\ HasPrefix l "every weekday at " = false.
Proof.
  intros He. split.
  - apply (HasPrefix_app_false l "every " "day at " He).
  - apply (HasPrefix_app_false l "every " "weekday at " He).
Qed.

Lemma NextRun_unsupported (tz : Zones) (fuel : nat) (expr : string) (from : Time) :
  let l := ToLower (TrimSpace expr) in
  HasPrefix l "at " = false ->
  HasPrefix l "every " = false
  \/ (HasPrefix l "every day at " = false
      /\ HasPrefix l "every weekday at " = false
      /\ Contains l " at " = true /\ Contains l " starting at " = false) ->
  NextRun tz fuel expr from = Some (Err (unsupported (TrimSpace expr))).
Proof.
  intros l Hat Hshape. rewrite NextRun_branches. fold l. cbv zeta.
  destruct Hshape as [He | (Hd & Hw & Hc & Hs)].
  - destruct (no_every_no_clock l He) as [Hd Hw].
    unfold isPureInterval, isAnchored.
    rewrite He, (isClockTime_false l Hat Hd Hw). reflexivity.
  - unfold isPureInterval, isAnchored.
    rewrite Hc, Hs, (isClockTime_false l Hat Hd Hw), !andb_false_r.
    reflexivity.
Qed.

(** X9.  [NextRun] rejects every expression of ASCII bytes that once
    trimmed and lower-cased begins with neither ['every '] nor ['at ']; and
    every expression ['every <x> at ...'] that is neither the day form, nor
    the weekday form, nor an anchored interval, such as the ['every monday
    at 08:00'] of the documentation. *)
Theorem NextRun_rejects_other_shapes
    (tz : Zones) (fuel : nat) (expr : string) (from : Time) :
  isASCII expr = true ->
  let l := ToLower (TrimSpace expr) in
  HasPrefix l "at " = false ->
  HasPrefix l "every " = false
  \/ (HasPrefix l "every day at " = false
      /\ HasPrefix l "every weekday at " = false
      /\ Contains l " at " = true /\ Contains l " starting at " = false) ->
  exists e, NextRun tz fuel expr from = Some (Err e).
Proof.
  intros _ l Hat Hshape. eexists. by apply NextRun_unsupported.
Qed.

Lemma NextRun_rejects_other_shapes_witness :
  (exists e, NextRun utcOnly 0 "Hourly" t_2024_01_01_0800 = Some (Err e))
  /\ (exists e, NextRun utcOnly 0 "every monday at 08:00" t_2024_01_01_0800
                = Some (Err e)).
Proof.
  split.
  - apply (NextRun_rejects_other_shapes utcOnly 0 "Hourly");
      [reflexivity | reflexivity | left; reflexivity].
  - apply (NextRun_rejects_other_shapes utcOnly 0 "every monday at 08:00");
      [reflexivity | reflexivity | right; repeat split; reflexivity].
Defined.

(** ** [Explain] and [NextRun] *)

(** X10.  [Explain] falls back to ['schedule: '] and the text as written
    only for a schedule that [NextRun] rejects: whatever [Explain] presents
    in another way has one of the shapes [NextRun] reads, and a job
    explained by the fallback cannot be planned.  (Schedules of ASCII
    bytes.) *)
Theorem Explain_fallback_is_unsupported (j : Job) :
  isASCII (Schedule j) = true ->
  HasPrefix (Explain j) "schedule: " = true ->
  forall tz fuel from,
    exists e, NextRun tz fuel (Schedule j) from = Some (Err e).
Proof.
  intros _ Hfb tz fuel from. unfold Explain in Hfb.
  rewrite NextRun_branches. cbv zeta.
  set (l := ToLower (TrimSpace (Schedule j))) in *.
  destruct (isPureInterval l); [simpl in Hfb; discriminate |].
  unfold isClockTime, isAnchored.
  destruct (HasPrefix l "every weekday at "); [simpl in Hfb; discriminate |].
  destruct (HasPrefix l "every day at "); [simpl in Hfb; discriminate |].
  destruct (HasPrefix l "at "); [simpl in Hfb; discriminate |].
  destruct (Contains l " starting at "); [simpl in Hfb; discriminate |].
  rewrite andb_false_r. by eexists.
Qed.

Lemma Explain_fallback_is_unsupported_witness :
  Explain (scheduled "every week") = "schedule: every week"
  /\ exists e, NextRun utcOnly 0 "every week" t_2024_01_01_0800
               = Some (Err e).
Proof.
  split; [reflexivity |].
  apply (Explain_fallback_is_unsupported (scheduled "every week"));
    reflexivity.
Defined.

(** X11.  The converse fails: a schedule that contains [' starting at ']
    without beginning with ['every '] (or ['at ']) is explained as
    ['periodic ...'] although [NextRun] rejects it, since [Explain] does not
    ask for the prefix that [NextRun] requires.  (Schedules of ASCII
    bytes.) *)
Theorem Explain_periodic_not_planned (j : Job) :
  isASCII (Schedule j) = true ->
  let l := ToLower (TrimSpace (Schedule j)) in
  Contains l " starting at " = true ->
  HasPrefix l "every " = false -> HasPrefix l "at " = false ->
  Explain j = "periodic " +:+ l
  /\ forall tz fuel from,
       exists e, NextRun tz fuel (Schedule j) from = Some (Err e).
Proof.
  intros _ l Hs He Hat.
  destruct (no_every_no_clock l He) as [Hd Hw].
  split.
  - unfold Explain. fold l. unfold isPureInterval.
    by rewrite He, Hw, Hd, Hat, Hs.
  - intros tz fuel from. eexists. apply NextRun_unsupported; [exact Hat |].
    by left.
Qed.

Lemma Explain_periodic_not_planned_witness :
  Explain (scheduled "daily starting at 08:00")
  = "periodic daily starting at 08:00"
  /\ exists e, NextRun utcOnly 0 "daily starting at 08:00" t_2024_01_01_0800
               = Some (Err e).
Proof.
  destruct (Explain_periodic_not_planned (scheduled "daily starting at 08:00"))
    as [Hex Hnext]; [reflexivity | reflexivity | reflexivity | reflexivity |].
  split; [exact Hex | apply Hnext].
Defined.

(** ** Fields *)

Lemma string_snoc (s : string) :
  s <> "" -> exists x u, s = x +:+ String u "".
Proof.
  induction s as [| c s IH]; intros Hne; [done |].
  destruct s as [| c' s'].
  - by exists "", c.
  - destruct IH as (x & u & Hx); [discriminate |].
    exists (String c x), u. by rewrite append_cons, <- Hx.
Qed.

Lemma fieldBytes_app (x y : string) :
  fieldBytes (x +:+ y) = fieldBytes x && fieldBytes y.
Proof.
  induction x as [| c x IH]; [reflexivity |].
  rewrite append_cons. simpl. rewrite IH.
  by rewrite <- !andb_assoc.
Qed.

Lemma fieldBytes_ToLower (s : string) : fieldBytes s = true -> ToLower s = s.
Proof.
  induction s as [| c s IH]; [done |]. simpl.
  intros [[_ Hc]%andb_true_iff Hs]%andb_true_iff.
  apply Ascii.eqb_eq in Hc. by rewrite Hc, IH.
Qed.

Lemma isField_parts (f : string) :
  isField f = true -> f <> "" /\ fieldBytes f = true.
Proof.
  unfold isField. intros [Hne Hb]%andb_true_iff. split; [| exact Hb].
  apply negb_true_iff, String.eqb_neq in Hne. exact Hne.
Qed.

Lemma isField_last (f : string) :
  isField f = true ->
  exists x u, f = x +:+ String u "" /\ isSpace u = false.
Proof.
  intros [Hne Hb]%isField_parts.
  destruct (string_snoc f Hne) as (x & u & ->).
  exists x, u. split; [reflexivity |].
  rewrite fieldBytes_app in Hb. apply andb_true_iff in Hb as [_ Hu].
  simpl in Hu. apply andb_true_iff in Hu as [[Hu _]%andb_true_iff _].
  by apply negb_true_iff in Hu.
Qed.

Lemma FieldsFrom_field (s word : string) :
  fieldBytes s = true ->
  FieldsFrom s word
  = match word +:+ s with EmptyString => [] | _ => [word +:+ s] end.
Proof.
  revert word. induction s as [| c s IH]; intros word Hs.
  - simpl. replace (word +:+ "") with word; [reflexivity |].
    clear. induction word as [| c w IHw]; [reflexivity |].
    by rewrite append_cons, <- IHw.
  - simpl in Hs. apply andb_true_iff in Hs as [[Hc _]%andb_true_iff Hs].
    apply negb_true_iff in Hc. simpl. rewrite Hc.
    rewrite (IH _ Hs), append_assoc. reflexivity.
Qed.

Lemma Fields_field (f : string) : isField f = true -> Fields f = [f].
Proof.
  intros [Hne Hb]%isField_parts. unfold Fields.
  rewrite FieldsFrom_field by assumption. simpl.
  destruct f; [done | reflexivity].
Qed.

(** An expression made of a prefix that begins with a letter and of a
    field is its own trimmed, lower-cased form. *)
Lemma normal_prefix_field (c : ascii) (p f : string) :
  isSpace c = false -> ToLower (String c p) = String c p ->
  isField f = true ->
  ToLower (TrimSpace (String c p +:+ f)) = String c p +:+ f.
Proof.
  intros Hc Hp Hf.
  destruct (isField_last f Hf) as (x & u & -> & Hu).
  apply isField_parts in Hf as [_ Hb].
  unfold TrimSpace. rewrite append_cons. cbn [TrimLeftSpace]. rewrite Hc.
  rewrite <- append_cons, <- append_assoc, TrimRightSpace_snoc by assumption.
  rewrite append_assoc, ToLower_app, Hp.
  by rewrite (fieldBytes_ToLower _ Hb).
Qed.

(** ** Clock times, from the expression *)

Lemma NextRun_clock_form (tz : Zones) (fuel : nat) (from : Time)
    (p : string) (wd : bool) (f : string) :
  (p, wd) ∈ clockForms -> isField f = true ->
  NextRun tz fuel (p +:+ f) from
  = option_map Ok (nextAtTime fuel from f (Local tz) wd).
Proof.
  intros Hform Hf. rewrite NextRun_branches. cbv zeta.
  pose proof (Fields_field f Hf) as Hfields.
  unfold clockForms in Hform.
  apply elem_of_cons in Hform as [[= -> ->] | Hform];
    [| apply elem_of_cons in Hform as [[= -> ->] | Hform];
       [| apply elem_of_cons in Hform as [[= -> ->] | Hform];
          [| by apply elem_of_nil in Hform]]].
  - rewrite (normal_prefix_field "a" "t " f) by done.
    change (isPureInterval ("at " +:+ f)) with false. cbv iota.
    change (isClockTime ("at " +:+ f)) with true. cbv iota.
    change (clockBranch tz fuel ("at " +:+ f) from)
      with (match Fields f with
            | [] => Some (Err "missing time")
            | hhmm :: rest =>
                match clockZone tz rest with
                | Ok loc => option_map Ok (nextAtTime fuel from hhmm loc false)
                | Err e => Some (Err e)
                | Panic e => Some (Panic e)
                end
            end).
    by rewrite Hfields.
  - rewrite (normal_prefix_field "e" "very day at " f) by done.
    assert (Hpure : isPureInterval ("every day at " +:+ f) = false).
    { unfold isPureInterval.
      change (Contains ("every day at " +:+ f) " at ") with true.
      apply andb_false_r. }
    rewrite Hpure.
    change (isClockTime ("every day at " +:+ f)) with true. cbv iota.
    change (clockBranch tz fuel ("every day at " +:+ f) from)
      with (match Fields f with
            | [] => Some (Err "missing time")
            | hhmm :: rest =>
                match clockZone tz rest with
                | Ok loc => option_map Ok (nextAtTime fuel from hhmm loc false)
                | Err e => Some (Err e)
                | Panic e => Some (Panic e)
                end
            end).
    by rewrite Hfields.
  - rewrite (normal_prefix_field "e" "very weekday at " f) by done.
    assert (Hpure : isPureInterval ("every weekday at " +:+ f) = false).
    { unfold isPureInterval.
      change (Contains ("every weekday at " +:+ f) " at ") with true.
      apply andb_false_r. }
    rewrite Hpure.
    change (isClockTime ("every weekday at " +:+ f)) with true. cbv iota.
    change (clockBranch tz fuel ("every weekday at " +:+ f) from)
      with (match Fields f with
            | [] => Some (Err "missing time")
            | hhmm :: rest =>
                match clockZone tz rest with
                | Ok loc => option_map Ok (nextAtTime fuel from hhmm loc true)
                | Err e => Some (Err e)
                | Panic e => Some (Panic e)
                end
            end).
    by rewrite Hfields.
Qed.

(** X12.  On a host whose local zone has no transitions, for each of the
    three clock-time forms without a zone name (the time being one field of
    ASCII bytes), [NextRun] returns, in the
    zone of the reference instant, the instant at which the local wall clock
    shows the parsed [HH:MM] on the first day, counted from today, on which
    that instant is strictly after the reference and, for the weekday form,
    falls on Monday to Friday; that day is at most three days away. *)
Theorem NextRun_clock_local (tz : Zones) (from : Time)
    (p : string) (wd : bool) (f : string) :
  (p, wd) ∈ clockForms -> isASCII f = true -> isField f = true ->
  zoneTx (Local tz) = [] ->
  let h := parseHH f in
  let m := parseMM f in
  let day := wallDays (In from (Local tz)) in
  let eligible k :=
    After (wallClockAt (Local tz) day k h m) from = true
    /\ (wd = true ->
        Monday <= Weekday (wallClockAt (Local tz) day k h m) <= Friday) in
  exists k, 0 <= k <= 3
    /\ NextRun tz 2 (p +:+ f) from
       = Some (Ok (In (wallClockAt (Local tz) day k h m) (location from)))
    /\ Hour_of (wallClockAt (Local tz) day k h m) = h
    /\ Minute_of (wallClockAt (Local tz) day k h m) = m
    /\ eligible k
    /\ (forall k', 0 <= k' < k -> ~ eligible k').
Proof.
  intros Hform _ Hf Htx h m day eligible.
  destruct (clock_next_fixed (Local tz) from f wd Htx)
    as (k & Hk & Hnext & Hel & Hmin).
  exists k. split; [exact Hk |].
  rewrite (NextRun_clock_form tz 2 from p wd f Hform Hf), Hnext.
  split; [reflexivity |].
  destruct (wallClockAt_reads (Local tz) day k h m Htx
              (parseHH_range f) (parseMM_range f)) as (_ & _ & Hh & Hm & _).
  split; [exact Hh |]. split; [exact Hm |]. split; [exact Hel | exact Hmin].
Qed.

Lemma NextRun_clock_local_witness :
  exists k, 0 <= k <= 3
    /\ NextRun utcOnly 2 "every weekday at 08:00" (Date 2024 1 6 8 0 0 0 UTC)
       = Some (Ok (wallClockAt UTC (daysFromCivil 2024 1 6) k 8 0))
    /\ Monday <= Weekday (wallClockAt UTC (daysFromCivil 2024 1 6) k 8 0)
       <= Friday.
Proof.
  destruct (NextRun_clock_local utcOnly (Date 2024 1 6 8 0 0 0 UTC)
              "every weekday at " true "08:00")
    as (k & Hk & Hnext & _ & _ & [_ Hwd] & _);
    [right; right; left | reflexivity | reflexivity | reflexivity |].
  exists k. split; [exact Hk |]. split; [exact Hnext | by apply Hwd].
Defined.

(** ** Anchored intervals, from the expression *)

Lemma without_space_body (ds : string) (u : ascii) (unit : Z) :
  allDigits ds = true -> intervalUnit u = Some unit ->
  without " " (ds +:+ String u "") = true.
Proof.
  intros Hds Hunit.
  destruct (intervalUnit_lower u unit Hunit) as (_ & _ & Hsp & _).
  rewrite without_app, without_space_digits by assumption.
  simpl. by rewrite Hsp.
Qed.

Lemma every_digit_prefixes (d0 : ascii) (r : string) :
  isDigit d0 = true ->
  HasPrefix ("every " +:+ String d0 r) "at " = false
  /\ HasPrefix ("every " +:+ String d0 r) "every day at " = false
  /\ HasPrefix ("every " +:+ String d0 r) "every weekday at " = false
  /\ HasPrefix (String " " (String d0 r)) " starting at " = false.
Proof.
  intros Hd. split; [reflexivity |]. split; [| split].
  - change (Ascii.eqb d0 "d" && HasPrefix r "ay at " = false).
    by rewrite (digit_neq d0 "d").
  - change (Ascii.eqb d0 "w" && HasPrefix r "eekday at " = false).
    by rewrite (digit_neq d0 "w").
  - change (Ascii.eqb d0 "s" && HasPrefix r "tarting at " = false).
    by rewrite (digit_neq d0 "s").
Qed.

(** The expression of an anchored interval reaches [anchoredNext] with the
    interval and the clock field it names, in the local zone. *)
Lemma NextRun_anchored_form (tz : Zones) (fuel : nat) (from : Time)
    (ds : string) (u : ascii) (unit : Z) (f : string) :
  ds <> "" -> allDigits ds = true -> intervalUnit u = Some unit ->
  digitsValue ds * unit <= MaxInt64 -> isField f = true ->
  NextRun tz fuel ("every " +:+ ds +:+ String u "" +:+ " starting at " +:+ f) from
  = anchoredNext fuel from (digitsValue ds * unit) f (Local tz).
Proof.
  intros Hne Hds Hunit Hfit Hf.
  destruct (intervalUnit_lower u unit Hunit) as (Hlow & _ & _ & _).
  pose proof (without_space_body ds u unit Hds Hunit) as Hbody.
  set (body := ds +:+ String u "") in *.
  assert (Hexpr : "every " +:+ ds +:+ String u "" +:+ " starting at " +:+ f
                  = ("every " +:+ body +:+ " starting at ") +:+ f).
  { unfold body. by rewrite !append_assoc. }
  rewrite Hexpr, NextRun_branches. cbv zeta.
  change (("every " +:+ body +:+ " starting at ") +:+ f)
    with (String "e" ("very " +:+ body +:+ " starting at ") +:+ f).
  rewrite normal_prefix_field; [| reflexivity | | exact Hf].
  2:{ change (String "e" ("very " +:+ body +:+ " starting at "))
        with ("every " +:+ body +:+ " starting at ").
      unfold body.
      rewrite !ToLower_app, Hlow, (ToLower_digits ds) by assumption.
      reflexivity. }
  change (String "e" ("very " +:+ body +:+ " starting at ") +:+ f)
    with (("every " +:+ body +:+ " starting at ") +:+ f).
  rewrite <- Hexpr. clear Hexpr.
  set (l := "every " +:+ ds +:+ String u "" +:+ " starting at " +:+ f).
  assert (Hl : l = "every " +:+ body +:+ " starting at " +:+ f).
  { unfold l, body. by rewrite !append_assoc. }
  destruct ds as [| d0 ds']; [done |].
  pose proof Hds as Hall. simpl in Hds. apply andb_true_iff in Hds as [Hd0 _].
  assert (Hstart : Contains (body +:+ " starting at " +:+ f) " starting at "
                   = true).
  { apply Contains_app_r.
    change (Contains (" starting at " +:+ f) " starting at ")
      with (HasPrefix (" starting at " +:+ f) " starting at "
            || Contains ("starting at " +:+ f) " starting at ").
    by rewrite HasPrefix_app_self. }
  assert (Hat : Contains l " at " = true).
  { rewrite Hl. apply (Contains_app_r "every "). apply Contains_app_r.
    reflexivity. }
  assert (Hpure : isPureInterval l = false).
  { unfold isPureInterval. rewrite Hat. apply andb_false_r. }
  set (r := (ds' +:+ String u "") +:+ " starting at " +:+ f).
  assert (Hr : body +:+ " starting at " +:+ f = String d0 r).
  { unfold body, r. by rewrite !append_cons. }
  destruct (every_digit_prefixes d0 r Hd0) as (Hp1 & Hp2 & Hp3 & Hp4).
  assert (Hclock : isClockTime l = false).
  { rewrite Hl, Hr. unfold isClockTime. by rewrite Hp1, Hp2, Hp3. }
  assert (Hanch : isAnchored l = true).
  { rewrite Hl. unfold isAnchored.
    change (HasPrefix ("every " +:+ body +:+ " starting at " +:+ f) "every ")
      with true.
    rewrite (Contains_app_r "every " _ _ Hstart). reflexivity. }
  rewrite Hpure, Hclock, Hanch.
  assert (Hcut : Cut l " starting at " = ("every " +:+ body, f, true)).
  { rewrite Hl.
    assert (Hrest : Cut (body +:+ " starting at " +:+ f) " starting at "
                    = (body, f, true)) by (by apply Cut_without).
    assert (Hsp : HasPrefix (String " " (body +:+ " starting at " +:+ f))
                    " starting at " = false) by (by rewrite Hr).
    change ("every " +:+ body +:+ " starting at " +:+ f)
      with (String "e" (String "v" (String "e" (String "r" (String "y"
              (String " " (body +:+ " starting at " +:+ f))))))).
    rewrite !Cut_skip by (first [reflexivity | exact Hsp]).
    by rewrite Hrest. }
  unfold anchoredBranch. rewrite Hcut.
  change (TrimPrefix ("every " +:+ body) "every ") with body.
  unfold body. rewrite (parseDur_digits_unit _ u unit) by done.
  by rewrite (Fields_field f Hf).
Qed.

(** X13.  For an anchored interval ['every <N><unit> starting at <HH:MM>']
    without a zone name (the time being one field of ASCII bytes) whose
    length [N * unit] is positive and fits in a
    duration, [NextRun] returns: the result is the anchor, [HH:MM] of the
    reference's date in the local zone, plus the least number [k >= 0] of
    intervals that makes it strictly after the reference, in the zone of
    the reference. *)
Theorem NextRun_anchored_least (tz : Zones) (from : Time)
    (ds : string) (u : ascii) (unit : Z) (f : string) :
  ds <> "" -> allDigits ds = true -> intervalUnit u = Some unit ->
  0 < digitsValue ds * unit <= MaxInt64 ->
  isASCII f = true -> isField f = true ->
  let d := digitsValue ds * unit in
  let in_ := In from (Local tz) in
  let base := Date (Year in_) (Month in_) (Day in_)
                (parseHH f) (parseMM f) 0 0 (Local tz) in
  exists k, 0 <= k
    /\ (forall fuel, (Z.to_nat k <= fuel)%nat ->
          NextRun tz fuel
            ("every " +:+ ds +:+ String u "" +:+ " starting at " +:+ f) from
          = Some (Ok (In (Add base (k * d)) (location from))))
    /\ After (Add base (k * d)) from = true
    /\ (forall k', 0 <= k' < k -> After (Add base (k' * d)) from = false).
Proof.
  intros Hne Hds Hunit [Hpos Hfit] _ Hf d in_ base.
  destruct (anchoredNext_returns from d f (Local tz) Hpos)
    as (k & Hk & Hrun & Ha & Hl).
  exists k. split; [exact Hk |]. split; [| split; assumption].
  intros fuel Hfuel.
  rewrite (NextRun_anchored_form tz fuel from ds u unit f) by assumption.
  by apply Hrun.
Qed.

Lemma NextRun_anchored_least_witness :
  let from := t_2024_01_01_0800 in
  let d := digitsValue "6" * Hour in
  let in_ := In from (Local utcOnly) in
  let base := Date (Year in_) (Month in_) (Day in_)
                (parseHH "00:00") (parseMM "00:00") 0 0 (Local utcOnly) in
  (0 < d <= MaxInt64)
  /\ exists k, 0 <= k
    /\ (forall fuel, (Z.to_nat k <= fuel)%nat ->
          NextRun utcOnly fuel
            ("every " +:+ "6" +:+ String "h" "" +:+ " starting at " +:+ "00:00")
            from
          = Some (Ok (In (Add base (k * d)) (location from))))
    /\ After (Add base (k * d)) from = true
    /\ (forall k', 0 <= k' < k -> After (Add base (k' * d)) from = false).
Proof.
  assert (Hd : 0 < digitsValue "6" * Hour <= MaxInt64)
    by (split; vm_compute; [reflexivity | discriminate]).
  split; [exact Hd |].
  apply (NextRun_anchored_least utcOnly t_2024_01_01_0800 "6" "h" Hour "00:00");
    [discriminate | reflexivity | reflexivity | exact Hd | reflexivity
    | reflexivity].
Defined.

(** ** Occurrences of a pure interval *)

(** A pure interval of digits and a unit, from the expression. *)
Lemma NextRun_pure_form
    (tz : Zones) (fuel : nat) (from : Time) (ds : string) (u : ascii) (unit : Z) :
  ds <> "" -> allDigits ds = true -> intervalUnit u = Some unit ->
  digitsValue ds * unit <= MaxInt64 ->
  NextRun tz fuel ("every " +:+ ds +:+ String u "") from
  = Some (Ok (Add from (digitsValue ds * unit))).
Proof.
  intros Hne Hds Hunit Hfit.
  destruct (intervalUnit_lower u unit Hunit) as (Hlow & Hspace & Hsp & Hsuf).
  set (body := ds +:+ String u "").
  assert (Hbody : without " " body = true)
    by (by apply (without_space_body ds u unit)).
  assert (Hat : Contains ("every " +:+ body) " at " = false).
  { change (Contains ("every " +:+ body) " at ")
      with (false || (false || (false || (false || (false ||
              ((true && HasPrefix body "at ") || Contains body " at ")))))).
    rewrite (Contains_without body " " "at " Hbody), orb_false_r.
    unfold body. destruct ds as [| d ds']; [done |].
    simpl in Hds. apply andb_true_iff in Hds as [Hd _].
    rewrite append_cons. simpl. by rewrite (digit_neq d "a"). }
  assert (Hends : forall c, HasSuffix ("every " +:+ body) (String c "")
                            = Ascii.eqb u c).
  { intros c. unfold body. rewrite <- append_assoc. apply HasSuffix_snoc. }
  rewrite NextRun_branches. cbv zeta.
  assert (Hnorm : ToLower (TrimSpace ("every " +:+ body)) = "every " +:+ body).
  { unfold TrimSpace.
    change (TrimLeftSpace ("every " +:+ body)) with ("every " +:+ body).
    unfold body at 1. rewrite <- append_assoc, TrimRightSpace_snoc by assumption.
    rewrite append_assoc. fold body. unfold body.
    rewrite !ToLower_app, Hlow, (ToLower_digits ds) by assumption.
    reflexivity. }
  rewrite Hnorm. unfold isPureInterval. rewrite !Hends, Hsuf, Hat.
  change (HasPrefix ("every " +:+ body) "every ") with true.
  cbv beta iota delta [andb negb].
  change (TrimPrefix ("every " +:+ body) "every ") with body.
  unfold body. by rewrite (parseDur_digits_unit ds u unit).
Qed.

(** X14.  The command [next] lists the occurrences of a pure interval
    ['every <N><unit>'] of length [d = N * unit] one second further apart
    than the interval: each is computed from one second after the one
    before, so that the occurrence number [i], counted from 0, is
    [d + i * (d + 1s)] after the start. *)
Theorem occurrences_interval_period
    (tz : Zones) (fuel : nat) (ds : string) (u : ascii) (unit : Z)
    (t : Time) (n : nat) :
  ds <> "" -> allDigits ds = true -> intervalUnit u = Some unit ->
  digitsValue ds * unit <= MaxInt64 ->
  let d := digitsValue ds * unit in
  Preview.occurrences tz fuel ("every " +:+ ds +:+ String u "") t n
  = Some (Ok (List.map
                (fun i => Preview.Occurs (Add t (d + Z.of_nat i * (d + Second))))
                (seq 0 n))).
Proof.
  intros Hne Hds Hunit Hfit d. revert t.
  induction n as [| n IH]; intros t; [reflexivity |].
  cbn [Preview.occurrences].
  rewrite (NextRun_pure_form tz fuel t ds u unit) by assumption.
  fold d. rewrite IH. cbn [seq List.map]. do 3 f_equal.
  - by rewrite Z.mul_0_l, Z.add_0_r.
  - rewrite <- seq_shift, List.map_map. apply List.map_ext. intros i.
    rewrite !Add_Add. do 2 f_equal. lia.
Qed.

Lemma occurrences_interval_period_witness :
  Preview.occurrences utcOnly 0 "every 5m" t_2024_01_01_0800 2
  = Some (Ok [Preview.Occurs (Add t_2024_01_01_0800 (5 * Minute));
              Preview.Occurs
                (Add t_2024_01_01_0800 (5 * Minute + (5 * Minute + Second)))]).
Proof.
  apply (occurrences_interval_period utcOnly 0 "5" "m" Minute
           t_2024_01_01_0800 2);
    [discriminate | reflexivity | reflexivity | vm_compute; discriminate].
Defined.

(** X15.  The engine plans the next occurrence of a job from one second
    after the occurrence that fired: for a pure interval of length
    [d = N * unit] that is [d + 1s] after it, whatever the instant of the
    re-planning, so that the period of the job in the engine is [d + 1s]. *)
Theorem replan_interval_period
    (tz : Zones) (fuel : nat) (now : Time) (it : Planner.item)
    (ds : string) (u : ascii) (unit : Z) :
  ds <> "" -> allDigits ds = true -> intervalUnit u = Some unit ->
  digitsValue ds * unit <= MaxInt64 ->
  Schedule (Planner.job it) = "every " +:+ ds +:+ String u "" ->
  Planner.replan tz fuel now it
  = Some (Ok (Add (Planner.next it) (digitsValue ds * unit + Second))).
Proof.
  intros Hne Hds Hunit Hfit Hsched. unfold Planner.replan.
  rewrite Hsched, (NextRun_pure_form tz fuel _ ds u unit) by assumption.
  rewrite Add_Add. do 3 f_equal. lia.
Qed.

Lemma replan_interval_period_witness :
  Planner.replan utcOnly 0 t_2024_01_01_0800
    (Planner.mkItem health_check t_2024_01_01_0800)
  = Some (Ok (Add t_2024_01_01_0800 (5 * Minute + Second))).
Proof.
  apply (replan_interval_period utcOnly 0 t_2024_01_01_0800
           (Planner.mkItem health_check t_2024_01_01_0800) "5" "m" Minute);
    [discriminate | reflexivity | reflexivity | vm_compute; discriminate
    | reflexivity].
Defined.

(** ** Occurrences of a daily clock time *)

(** One second after [HH:MM] of some day, in a zone without transitions,
    the next [HH:MM] is that of the day after. *)
Lemma daily_after_occurrence (loc l0 : Location) (day k : Z) (f : string) :
  zoneTx loc = [] ->
  nextAtTime 2
    (Add (In (wallClockAt loc day k (parseHH f) (parseMM f)) l0) Second)
    f loc false
  = Some (In (wallClockAt loc day (k + 1) (parseHH f) (parseMM f)) l0).
Proof.
  intros Htx.
  pose proof (parseHH_range f) as Hh. pose proof (parseMM_range f) as Hm.
  set (h := parseHH f) in *. set (m := parseMM f) in *.
  set (from := Add (In (wallClockAt loc day k h m) l0) Second).
  assert (Hday : wallDays (In from loc) = day + k).
  { unfold from, wallDays, wallSec, unixSec, Add, In, wallClockAt.
    cbn [unixNano location]. rewrite offsetAt_fixed by assumption.
    unfold secondsPerDay, Second, Millisecond, Microsecond, Nanosecond.
    Z.div_mod_to_equations. lia. }
  destruct (clock_next_fixed loc from f false Htx)
    as (k' & Hk' & Hnext & [Hafter _] & Hmin).
  fold h m in Hnext, Hafter, Hmin. rewrite Hday in Hnext, Hafter, Hmin.
  assert (H0 : After (wallClockAt loc (day + k) 0 h m) from = false).
  { unfold After, from, Add, In, wallClockAt. cbn [unixNano location].
    apply Z.ltb_ge.
    unfold secondsPerDay, Second, Millisecond, Microsecond, Nanosecond. lia. }
  assert (H1 : After (wallClockAt loc (day + k) 1 h m) from = true).
  { unfold After, from, Add, In, wallClockAt. cbn [unixNano location].
    apply Z.ltb_lt.
    unfold secondsPerDay, Second, Millisecond, Microsecond, Nanosecond. lia. }
  assert (Hk1 : k' = 1).
  { destruct (Z.eq_dec k' 0) as [-> | Hne0].
    - rewrite H0 in Hafter. discriminate.
    - destruct (Z.eq_dec k' 1) as [-> | Hne1]; [reflexivity |].
      exfalso. apply (Hmin 1); [lia |]. split; [exact H1 | discriminate]. }
  subst k'. rewrite Hnext. do 2 f_equal.
  unfold wallClockAt. f_equal. lia.
Qed.

(** The first occurrence of a daily clock time: today if [HH:MM] is still
    to come, else tomorrow. *)
Lemma daily_first_occurrence (loc : Location) (t : Time) (f : string) :
  zoneTx loc = [] ->
  let h := parseHH f in
  let m := parseMM f in
  let day := wallDays (In t loc) in
  nextAtTime 2 t f loc false
  = Some (In (wallClockAt loc day
                (if After (wallClockAt loc day 0 h m) t then 0 else 1) h m)
             (location t)).
Proof.
  intros Htx h m day.
  destruct (clock_next_fixed loc t f false Htx)
    as (k & Hk & Hnext & [Hafter _] & Hmin).
  fold h m day in Hnext, Hafter, Hmin. rewrite Hnext. do 3 f_equal.
  destruct (After (wallClockAt loc day 0 h m) t) eqn:H0.
  - destruct (Z.eq_dec k 0) as [-> | Hne]; [reflexivity |].
    exfalso. apply (Hmin 0); [lia |]. split; [exact H0 | discriminate].
  - destruct (Z.eq_dec k 0) as [-> | Hne0]; [congruence |].
    destruct (Z.eq_dec k 1) as [-> | Hne1]; [reflexivity |].
    exfalso. apply (Hmin 1); [lia |]. split; [| discriminate].
    apply wallClockAt_after; [exact Htx | apply parseHH_range
                             | apply parseMM_range | lia].
Qed.

Lemma occurrences_daily_from (tz : Zones) (p f : string) (l0 : Location)
    (day : Z) (n : nat) (k : Z) :
  (p, false) ∈ clockForms -> isField f = true -> zoneTx (Local tz) = [] ->
  Preview.occurrences tz 2 (p +:+ f)
    (Add (In (wallClockAt (Local tz) day k (parseHH f) (parseMM f)) l0) Second)
    n
  = Some (Ok (List.map
                (fun i => Preview.Occurs
                            (In (wallClockAt (Local tz) day
                                   (k + 1 + Z.of_nat i) (parseHH f) (parseMM f))
                                l0))
                (seq 0 n))).
Proof.
  intros Hform Hf Htx. revert k.
  induction n as [| n IH]; intros k; [reflexivity |].
  cbn [Preview.occurrences].
  rewrite (NextRun_clock_form tz 2 _ p false f Hform Hf).
  rewrite (daily_after_occurrence (Local tz) l0 day k f Htx).
  cbn [option_map]. rewrite IH. cbn [seq List.map]. do 3 f_equal.
  - replace (k + 1 + Z.of_nat 0) with (k + 1) by lia. reflexivity.
  - rewrite <- seq_shift, List.map_map. apply List.map_ext. intros i.
    replace (k + 1 + 1 + Z.of_nat i) with (k + 1 + Z.of_nat (S i)) by lia.
    reflexivity.
Qed.

(** X16.  On a host whose local zone has no transitions, the command [next]
    lists for a daily clock time (['at HH:MM'] or ['every day at HH:MM'],
    the time being one field of ASCII bytes) the instants at which the wall
    clock shows [HH:MM] on consecutive days, in the zone of the start: from
    today if [HH:MM] is still to come, else from tomorrow.  The second that
    is added before each further occurrence moves none of them. *)
Theorem occurrences_daily_consecutive
    (tz : Zones) (p f : string) (t : Time) (n : nat) :
  (p, false) ∈ clockForms -> isASCII f = true -> isField f = true ->
  zoneTx (Local tz) = [] ->
  let h := parseHH f in
  let m := parseMM f in
  let day := wallDays (In t (Local tz)) in
  let k0 := if After (wallClockAt (Local tz) day 0 h m) t then 0 else 1 in
  Preview.occurrences tz 2 (p +:+ f) t n
  = Some (Ok (List.map
                (fun i => Preview.Occurs
                            (In (wallClockAt (Local tz) day (k0 + Z.of_nat i) h m)
                                (location t)))
                (seq 0 n))).
Proof.
  intros Hform _ Hf Htx h m day k0.
  destruct n as [| n]; [reflexivity |].
  cbn [Preview.occurrences].
  rewrite (NextRun_clock_form tz 2 _ p false f Hform Hf).
  rewrite (daily_first_occurrence (Local tz) t f Htx).
  fold h m day k0. cbn [option_map].
  unfold h, m.
  rewrite (occurrences_daily_from tz p f (location t) day n k0 Hform Hf Htx).
  cbn [seq List.map]. do 3 f_equal.
  - replace (k0 + Z.of_nat 0) with k0 by lia. reflexivity.
  - rewrite <- seq_shift, List.map_map. apply List.map_ext. intros i.
    replace (k0 + 1 + Z.of_nat i) with (k0 + Z.of_nat (S i)) by lia.
    reflexivity.
Qed.

Lemma occurrences_daily_consecutive_witness :
  Preview.occurrences utcOnly 2 "at 08:30" t_2024_01_01_0800 2
  = Some (Ok [Preview.Occurs (Date 2024 1 1 8 30 0 0 UTC);
              Preview.Occurs (Date 2024 1 2 8 30 0 0 UTC)]).
Proof.
  etransitivity.
  - apply (occurrences_daily_consecutive utcOnly "at " "08:30"
             t_2024_01_01_0800 2); [left | reflexivity ..].
  - reflexivity.
Defined.

(** X17.  On a host whose local zone has no transitions, the engine plans a
    daily clock time anew exactly 24 hours after the occurrence that fired,
    when that occurrence is one that [NextRun] gave for the schedule; the
    instant of the re-planning plays no part. *)
Theorem replan_daily_next_day
    (tz : Zones) (now from : Time) (it : Planner.item) (p f : string) :
  (p, false) ∈ clockForms -> isASCII f = true -> isField f = true ->
  zoneTx (Local tz) = [] ->
  Schedule (Planner.job it) = p +:+ f ->
  NextRun tz 2 (p +:+ f) from = Some (Ok (Planner.next it)) ->
  Planner.replan tz 2 now it
  = Some (Ok (Add (Planner.next it) (24 * Hour))).
Proof.
  intros Hform _ Hf Htx Hsched Hplanned.
  rewrite (NextRun_clock_form tz 2 from p false f Hform Hf) in Hplanned.
  rewrite (daily_first_occurrence (Local tz) from f Htx) in Hplanned.
  cbn [option_map] in Hplanned. injection Hplanned as Hnext.
  unfold Planner.replan. rewrite Hsched, <- Hnext.
  rewrite (NextRun_clock_form tz 2 _ p false f Hform Hf).
  rewrite (daily_after_occurrence (Local tz) (location from) _ _ f Htx).
  cbn [option_map]. do 2 f_equal.
  unfold Add, In, wallClockAt. cbn [unixNano location]. f_equal.
  unfold secondsPerDay, Hour, Minute, Second, Millisecond, Microsecond,
    Nanosecond. lia.
Qed.

Lemma replan_daily_next_day_witness :
  Planner.replan utcOnly 2 t_2024_01_01_0800
    (Planner.mkItem (scheduled "at 08:30") (Date 2024 1 1 8 30 0 0 UTC))
  = Some (Ok (Date 2024 1 2 8 30 0 0 UTC)).
Proof.
  etransitivity.
  - apply (replan_daily_next_day utcOnly t_2024_01_01_0800 t_2024_01_01_0800
             (Planner.mkItem (scheduled "at 08:30") (Date 2024 1 1 8 30 0 0 UTC))
             "at " "08:30"); [left | reflexivity ..].
  - reflexivity.
Defined.

(** ** The durations of the job descriptor *)

Lemma wrap64_range (z : Z) : MinInt64 <= wrap64 z <= MaxInt64.
Proof.
  unfold wrap64. int64.
  pose proof (Z.mod_pos_bound (z + 9223372036854775808) 18446744073709551616).
  lia.
Qed.

Lemma TrimSpace_digits_unit (ds : string) (u : ascii) (unit : Z) :
  ds <> "" -> allDigits ds = true -> intervalUnit u = Some unit ->
  TrimSpace (ds +:+ String u "") = ds +:+ String u "".
Proof.
  intros Hne Hds Hunit.
  destruct (intervalUnit_lower u unit Hunit) as (_ & Hspace & _ & _).
  unfold TrimSpace.
  assert (Hleft : TrimLeftSpace (ds +:+ String u "") = ds +:+ String u "").
  { destruct ds as [| d ds']; [done |].
    simpl in Hds. apply andb_true_iff in Hds as [Hd _].
    rewrite append_cons. cbn [TrimLeftSpace].
    by rewrite (digit_not_space d Hd). }
  rewrite Hleft. by apply TrimRightSpace_snoc.
Qed.

Lemma matchDuration_digits_unit (ds : string) (u : ascii) (unit : Z) :
  ds <> "" -> allDigits ds = true -> intervalUnit u = Some unit ->
  Dsl.matchDuration (ds +:+ String u "") = Some (ds, u).
Proof.
  intros Hne Hds Hunit.
  destruct (intervalUnit_lower u unit Hunit) as (_ & _ & _ & Hsuf).
  unfold Dsl.matchDuration. rewrite lastByte_snoc, take_snoc, Hds, Hsuf.
  apply String.eqb_neq in Hne. by rewrite Hne.
Qed.

(** What [matchDuration] accepts. *)
Lemma matchDuration_Some (s ds : string) (u : ascii) :
  Dsl.matchDuration s = Some (ds, u) ->
  s = ds +:+ String u "" /\ ds <> "" /\ allDigits ds = true
  /\ exists unit, intervalUnit u = Some unit.
Proof.
  unfold Dsl.matchDuration. intros Hm.
  destruct s as [| c s']; [discriminate |].
  destruct (string_snoc (String c s')) as (x & u' & Hx); [discriminate |].
  rewrite Hx in Hm. rewrite lastByte_snoc, take_snoc in Hm.
  destruct (negb (String.eqb x "") && allDigits x
            && (Ascii.eqb u' "s" || Ascii.eqb u' "m" || Ascii.eqb u' "h"
                || Ascii.eqb u' "d")) eqn:Hc; [| discriminate].
  injection Hm as <- <-.
  apply andb_true_iff in Hc as [[Hne Hds]%andb_true_iff Hu].
  split; [exact Hx |]. split; [| split; [exact Hds |]].
  - by apply negb_true_iff, String.eqb_neq in Hne.
  - unfold intervalUnit.
    destruct (Ascii.eqb u' "s"); [by eexists |].
    destruct (Ascii.eqb u' "m"); [by eexists |].
    destruct (Ascii.eqb u' "h"); [by eexists |].
    destruct (Ascii.eqb u' "d"); [by eexists | discriminate].
Qed.

(** X18.  [parseShortDuration] accepts a text of ASCII bytes that, once
    trimmed, is decimal digits and one of the units [s], [m], [h], [d]:
    it returns a 64-bit duration, never an error.  When the length
    [N * unit] (a day being 24 hours) fits in a duration that is the value,
    and [parseDur] of the scheduler reads the same text as the same
    duration; a length that does not fit is not reported. *)
Theorem parseShortDuration_digits_unit
    (s ds : string) (u : ascii) (unit : Z) :
  isASCII s = true -> TrimSpace s = ds +:+ String u "" ->
  ds <> "" -> allDigits ds = true -> intervalUnit u = Some unit ->
  exists d, Dsl.parseShortDuration s = Ok d
    /\ MinInt64 <= d <= MaxInt64
    /\ (digitsValue ds * unit <= MaxInt64 ->
        d = digitsValue ds * unit /\ parseDur s = Ok d).
Proof.
  intros _ Htrim Hne Hds Hunit.
  pose proof (digitsValue_nonneg _ Hds) as Hnn.
  unfold Dsl.parseShortDuration.
  rewrite Htrim, (matchDuration_digits_unit ds u unit) by assumption.
  assert (Hdur : forall d, digitsValue ds * unit <= MaxInt64 ->
                   d = digitsValue ds * unit -> parseDur s = Ok d).
  { intros d Hfit ->. unfold parseDur. rewrite Htrim.
    pose proof (parseDur_digits_unit ds u unit Hne Hds Hunit Hfit) as Hp.
    unfold parseDur in Hp.
    by rewrite (TrimSpace_digits_unit ds u unit) in Hp. }
  assert (Hsmall : forall k, 1 <= k -> digitsValue ds * k <= MaxInt64 ->
                     wrap64 (Dsl.AtoiDigits ds * k) = digitsValue ds * k).
  { intros k Hk Hfit. unfold Dsl.AtoiDigits.
    rewrite Z.min_l by nia. apply wrap64_small. int64. nia. }
  destruct (intervalUnit_cases u unit Hunit)
    as [[-> ->] | [[-> ->] | [[-> ->] | [-> ->]]]];
    cbn [Ascii.eqb Bool.eqb]; eexists; (split; [reflexivity |]);
    (split; [apply wrap64_range |]); intros Hfit.
  - split; [| apply Hdur; [exact Hfit |]]; by apply Hsmall.
  - split; [| apply Hdur; [exact Hfit |]]; by apply Hsmall.
  - split; [| apply Hdur; [exact Hfit |]]; by apply Hsmall.
  - assert (Hval : wrap64 (wrap64 (Dsl.AtoiDigits ds * 24) * Hour)
                   = digitsValue ds * (24 * Hour)).
    { assert (H24 : digitsValue ds * 24 <= MaxInt64)
        by (unfold Hour, Minute, Second, Millisecond, Microsecond,
              Nanosecond in Hfit; int64; lia).
      rewrite (Hsmall 24) by lia.
      rewrite wrap64_small; [lia |].
      unfold Hour, Minute, Second, Millisecond, Microsecond, Nanosecond in *.
      int64. lia. }
    split; [exact Hval | by apply Hdur].
Qed.

Lemma parseShortDuration_digits_unit_witness :
  Dsl.parseShortDuration " 30s " = Ok (30 * Second)
  /\ parseDur " 30s " = Ok (30 * Second).
Proof.
  destruct (parseShortDuration_digits_unit " 30s " "30" "s" Second)
    as (d & Hshort & _ & Hfit);
    [reflexivity | reflexivity | discriminate | reflexivity | reflexivity |].
  destruct Hfit as [-> Hdur]; [vm_compute; discriminate |].
  split; [exact Hshort | exact Hdur].
Defined.

(** X19.  [parseShortDuration] accepts nothing else: a text of ASCII bytes
    that it reads as a duration is, once trimmed, one or more decimal
    digits and then one of the units [s], [m], [h], [d]; a sign, a
    fraction, a unit such as [ms], several groups or an empty text are
    rejected. *)
Theorem parseShortDuration_accepts_only (s : string) (d : Z) :
  isASCII s = true -> Dsl.parseShortDuration s = Ok d ->
  exists ds u unit, TrimSpace s = ds +:+ String u "" /\ ds <> ""
    /\ allDigits ds = true /\ intervalUnit u = Some unit.
Proof.
  intros _. unfold Dsl.parseShortDuration.
  destruct (Dsl.matchDuration (TrimSpace s)) as [[ds u] |] eqn:Hm;
    [| discriminate].
  intros _.
  destruct (matchDuration_Some _ _ _ Hm) as (Hs & Hne & Hds & unit & Hunit).
  by exists ds, u, unit.
Qed.

Lemma parseShortDuration_accepts_only_witness :
  exists ds u unit, TrimSpace "5m" = ds +:+ String u "" /\ ds <> ""
    /\ allDigits ds = true /\ intervalUnit u = Some unit.
Proof.
  apply (parseShortDuration_accepts_only "5m" (5 * Minute));
    reflexivity.
Defined.

(** ** An anchored interval without an interval *)

Lemma space_not_letter (c p : ascii) :
  isSpace c = true -> isSpace p = false -> Ascii.eqb c p = false.
Proof.
  intros Hc Hp. destruct (Ascii.eqb_spec c p) as [-> |]; [congruence | done].
Qed.

Lemma HasPrefix_cons (c : ascii) (x : string) (p : ascii) (ps : string) :
  HasPrefix (String c x) (String p ps) = Ascii.eqb c p && HasPrefix x ps.
Proof. reflexivity. Qed.

(** No text that begins with a byte other than white space is a prefix of
    a run of white space followed by a space. *)
Lemma HasPrefix_spaces (ws y : string) (p : ascii) (ps : string) :
  allSpace ws = true -> isSpace p = false ->
  HasPrefix (ws +:+ String " " y) (String p ps) = false.
Proof.
  intros Hws Hp. destruct ws as [| c ws'].
  - change ("" +:+ String " " y) with (String " " y).
    by rewrite HasPrefix_cons, (space_not_letter " " p).
  - simpl in Hws. apply andb_true_iff in Hws as [Hc _].
    by rewrite append_cons, HasPrefix_cons, (space_not_letter c p).
Qed.

Lemma TrimSpace_allSpace (ws : string) :
  allSpace ws = true -> TrimSpace ws = "".
Proof.
  intros Hws. unfold TrimSpace.
  assert (Hleft : TrimLeftSpace ws = "").
  { induction ws as [| c ws IH]; [reflexivity |].
    simpl in Hws. apply andb_true_iff in Hws as [Hc Hws].
    cbn [TrimLeftSpace]. rewrite Hc. by apply IH. }
  by rewrite Hleft.
Qed.

Lemma ToLower_allSpace (ws : string) : allSpace ws = true -> ToLower ws = ws.
Proof.
  induction ws as [| c ws IH]; [reflexivity |].
  simpl. intros [Hc Hws]%andb_true_iff. rewrite (IH Hws). f_equal.
  revert Hc. destruct c as [[] [] [] [] [] [] [] []]; try discriminate;
    reflexivity.
Qed.

Lemma Cut_after_spaces (ws y : string) :
  allSpace ws = true ->
  Cut (ws +:+ " starting at " +:+ y) " starting at " = (ws, y, true).
Proof.
  induction ws as [| c ws IH]; intros Hws.
  - apply (Cut_without "" y " " "starting at "). reflexivity.
  - simpl in Hws. apply andb_true_iff in Hws as [Hc Hws].
    rewrite append_cons, Cut_skip.
    + by rewrite (IH Hws).
    + change (" starting at " +:+ y) with (String " " ("starting at " +:+ y)).
      rewrite (HasPrefix_cons c _ " " "starting at ").
      rewrite (HasPrefix_spaces ws _ "s" "tarting at " Hws) by reflexivity.
      apply andb_false_r.
Qed.

(** X20.  An anchored interval whose interval is missing, ['every' and
    white space, then 'starting at <HH:MM>'], is not rejected with an
    error: [parseDur] indexes the last byte of an empty text and [NextRun]
    panics.  (The time being one field of ASCII bytes.) *)
Theorem NextRun_blank_interval_panics
    (tz : Zones) (fuel : nat) (from : Time) (ws f : string) :
  allSpace ws = true -> isASCII f = true -> isField f = true ->
  exists e,
    NextRun tz fuel ("every " +:+ ws +:+ " starting at " +:+ f) from
    = Some (Panic e).
Proof.
  intros Hws _ Hf.
  assert (Hexpr : "every " +:+ ws +:+ " starting at " +:+ f
                  = ("every " +:+ ws +:+ " starting at ") +:+ f)
    by (by rewrite !append_assoc).
  rewrite NextRun_branches. cbv zeta. rewrite Hexpr.
  change (("every " +:+ ws +:+ " starting at ") +:+ f)
    with (String "e" ("very " +:+ ws +:+ " starting at ") +:+ f).
  rewrite normal_prefix_field; [| reflexivity | | exact Hf].
  2:{ change (String "e" ("very " +:+ ws +:+ " starting at "))
        with ("every " +:+ ws +:+ " starting at ").
      rewrite !ToLower_app, (ToLower_allSpace ws Hws). reflexivity. }
  change (String "e" ("very " +:+ ws +:+ " starting at ") +:+ f)
    with (("every " +:+ ws +:+ " starting at ") +:+ f).
  rewrite <- Hexpr. clear Hexpr.
  set (rest := ws +:+ " starting at " +:+ f).
  assert (Hrest : rest = ws +:+ String " " ("starting at " +:+ f))
    by reflexivity.
  assert (Hstart : Contains rest " starting at " = true).
  { apply Contains_app_r.
    change (Contains (" starting at " +:+ f) " starting at ")
      with (HasPrefix (" starting at " +:+ f) " starting at "
            || Contains ("starting at " +:+ f) " starting at ").
    by rewrite HasPrefix_app_self. }
  assert (Hat : Contains ("every " +:+ rest) " at " = true).
  { apply (Contains_app_r "every "). apply Contains_app_r. reflexivity. }
  assert (Hpure : isPureInterval ("every " +:+ rest) = false).
  { unfold isPureInterval. rewrite Hat. apply andb_false_r. }
  assert (Hclock : isClockTime ("every " +:+ rest) = false).
  { unfold isClockTime.
    change (HasPrefix ("every " +:+ rest) "at ") with false.
    change (HasPrefix ("every " +:+ rest) "every day at ")
      with (HasPrefix rest "day at ").
    change (HasPrefix ("every " +:+ rest) "every weekday at ")
      with (HasPrefix rest "weekday at ").
    rewrite Hrest.
    by rewrite !(HasPrefix_spaces ws _ _ _ Hws) by reflexivity. }
  assert (Hanch : isAnchored ("every " +:+ rest) = true).
  { unfold isAnchored.
    change (HasPrefix ("every " +:+ rest) "every ") with true.
    by rewrite (Contains_app_r "every " _ _ Hstart). }
  rewrite Hpure, Hclock, Hanch.
  assert (Hcut : Cut ("every " +:+ rest) " starting at "
                 = ("every " +:+ ws, f, true)).
  { assert (Hsp : HasPrefix (String " " rest) " starting at " = false).
    { rewrite (HasPrefix_cons " " rest " " "starting at "), Hrest.
      by rewrite (HasPrefix_spaces ws _ "s" "tarting at " Hws). }
    change ("every " +:+ rest)
      with (String "e" (String "v" (String "e" (String "r" (String "y"
              (String " " rest)))))).
    rewrite !Cut_skip by (first [reflexivity | exact Hsp]).
    unfold rest. by rewrite (Cut_after_spaces ws f Hws). }
  unfold anchoredBranch. rewrite Hcut.
  change (TrimPrefix ("every " +:+ ws) "every ") with ws.
  unfold parseDur. rewrite (TrimSpace_allSpace ws Hws). cbn [lastByte].
  by eexists.
Qed.

Lemma NextRun_blank_interval_panics_witness :
  exists e,
    NextRun utcOnly 0 "every  starting at 09:00" t_2024_01_01_0800
    = Some (Panic e).
Proof.
  apply (NextRun_blank_interval_panics utcOnly 0 t_2024_01_01_0800 "" "09:00");
    reflexivity.
Defined.

(** ** Clock times with a zone name *)

(** The clock-time branch, for an expression whose trimmed, lower-cased
    form is one of the three prefixes and a rest. *)
Lemma NextRun_clock_rest (tz : Zones) (fuel : nat) (expr : string)
    (from : Time) (p : string) (wd : bool) (r : string) :
  (p, wd) ∈ clockForms -> ToLower (TrimSpace expr) = p +:+ r ->
  NextRun tz fuel expr from
  = match Fields r with
    | [] => Some (Err "missing time")
    | hhmm :: rest =>
        match clockZone tz rest with
        | Ok loc => option_map Ok (nextAtTime fuel from hhmm loc wd)
        | Err e => Some (Err e)
        | Panic e => Some (Panic e)
        end
    end.
Proof.
  intros Hform Hl. rewrite NextRun_branches. cbv zeta. rewrite Hl.
  unfold clockForms in Hform.
  apply elem_of_cons in Hform as [[= -> ->] | Hform];
    [| apply elem_of_cons in Hform as [[= -> ->] | Hform];
       [| apply elem_of_cons in Hform as [[= -> ->] | Hform];
          [| by apply elem_of_nil in Hform]]].
  - change (isPureInterval ("at " +:+ r)) with false. cbv iota.
    change (isClockTime ("at " +:+ r)) with true. cbv iota.
    reflexivity.
  - assert (Hpure : isPureInterval ("every day at " +:+ r) = false).
    { unfold isPureInterval.
      change (Contains ("every day at " +:+ r) " at ") with true.
      apply andb_false_r. }
    rewrite Hpure.
    change (isClockTime ("every day at " +:+ r)) with true. cbv iota.
    reflexivity.
  - assert (Hpure : isPureInterval ("every weekday at " +:+ r) = false).
    { unfold isPureInterval.
      change (Contains ("every weekday at " +:+ r) " at ") with true.
      apply andb_false_r. }
    rewrite Hpure.
    change (isClockTime ("every weekday at " +:+ r)) with true. cbv iota.
    reflexivity.
Qed.

Lemma isWord_parts (z : string) :
  isWord z = true -> z <> "" /\ wordBytes z = true.
Proof.
  unfold isWord. intros [Hne Hb]%andb_true_iff. split; [| exact Hb].
  by apply negb_true_iff, String.eqb_neq in Hne.
Qed.

Lemma wordBytes_app (x y : string) :
  wordBytes (x +:+ y) = wordBytes x && wordBytes y.
Proof.
  induction x as [| c x IH]; [reflexivity |].
  rewrite append_cons. simpl. by rewrite IH, andb_assoc.
Qed.

(** The lower-cased form of a word is a field. *)
Lemma isField_ToLower (z : string) :
  isWord z = true -> isField (ToLower z) = true.
Proof.
  intros [Hne Hb]%isWord_parts. unfold isField.
  apply andb_true_iff. split.
  - destruct z; [done | reflexivity].
  - clear Hne. induction z as [| c z IH]; [reflexivity |].
    simpl in Hb. apply andb_true_iff in Hb as [Hc Hb].
    simpl. by rewrite isSpace_lower, Hc, lower_lower, Ascii.eqb_refl, IH.
Qed.

Lemma FieldsFrom_app_field (x s word : string) :
  fieldBytes x = true -> FieldsFrom (x +:+ s) word = FieldsFrom s (word +:+ x).
Proof.
  revert word. induction x as [| c x IH]; intros word Hx.
  - replace (word +:+ "") with word; [reflexivity |].
    clear. induction word as [| c w IHw]; [reflexivity |].
    by rewrite append_cons, <- IHw.
  - simpl in Hx. apply andb_true_iff in Hx as [[Hc _]%andb_true_iff Hx].
    apply negb_true_iff in Hc. rewrite append_cons. cbn [FieldsFrom].
    rewrite Hc, (IH _ Hx), append_assoc. reflexivity.
Qed.

Lemma Fields_two (f z : string) :
  isField f = true -> isField z = true ->
  Fields (f +:+ " " +:+ z) = [f; z].
Proof.
  intros [Hf Hfb]%isField_parts Hz. unfold Fields.
  rewrite (FieldsFrom_app_field f _ "" Hfb).
  change ("" +:+ f) with f. change (" " +:+ z) with (String " " z).
  cbn [FieldsFrom isSpace]. change (isSpace " ") with true. cbv iota.
  destruct f as [| c f']; [done |]. f_equal. by apply (Fields_field z).
Qed.

(** X21.  In the clock-time forms the zone is looked up under the
    lower-cased name: for a time and a zone name that are each one word of
    ASCII bytes, [NextRun] asks [time.LoadLocation] for the name in lower
    case (['europe/paris'] for ['Europe/Paris']) and computes the occurrence
    in the zone it gets, or fails with ['unknown TZ'] and the lower-cased
    name. *)
Theorem NextRun_zone_name_lower_cased
    (tz : Zones) (fuel : nat) (from : Time) (p : string) (wd : bool)
    (f z : string) :
  (p, wd) ∈ clockForms ->
  isASCII f = true -> isField f = true ->
  isASCII z = true -> isWord z = true ->
  NextRun tz fuel (p +:+ f +:+ " " +:+ z) from
  = match LoadLocation tz (ToLower z) with
    | Some lo => option_map Ok (nextAtTime fuel from f lo wd)
    | None => Some (Err ("unknown TZ: " +:+ ToLower z))
    end.
Proof.
  intros Hform _ Hf _ Hz.
  pose proof (isField_ToLower z Hz) as Hzl.
  destruct (isField_parts f Hf) as [_ Hfb].
  assert (Hl : ToLower (TrimSpace (p +:+ f +:+ " " +:+ z))
               = p +:+ f +:+ " " +:+ ToLower z).
  { destruct (isWord_parts z Hz) as [Hne Hzb].
    destruct (string_snoc z Hne) as (x & u & ->).
    assert (Hu : isSpace u = false).
    { rewrite wordBytes_app in Hzb. apply andb_true_iff in Hzb as [_ Hu].
      simpl in Hu. rewrite andb_true_r in Hu. by apply negb_true_iff in Hu. }
    assert (Hp : exists c p', p = String c p' /\ isSpace c = false
                              /\ ToLower p = p).
    { unfold clockForms in Hform.
      apply elem_of_cons in Hform as [[= -> ->] | Hform];
        [| apply elem_of_cons in Hform as [[= -> ->] | Hform];
           [| apply elem_of_cons in Hform as [[= -> ->] | Hform];
              [| by apply elem_of_nil in Hform]]];
        by eexists _, _. }
    destruct Hp as (c & p' & -> & Hc & Hlow).
    unfold TrimSpace. rewrite append_cons. cbn [TrimLeftSpace]. rewrite Hc.
    rewrite <- append_cons.
    replace (String c p' +:+ f +:+ " " +:+ x +:+ String u "")
      with ((String c p' +:+ f +:+ " " +:+ x) +:+ String u "")
      by (by rewrite !append_assoc).
    rewrite TrimRightSpace_snoc by assumption.
    rewrite !append_assoc, !ToLower_app, Hlow, (fieldBytes_ToLower f Hfb).
    reflexivity. }
  rewrite (NextRun_clock_rest tz fuel _ from p wd _ Hform Hl).
  rewrite (Fields_two f (ToLower z) Hf Hzl).
  unfold clockZone. by destruct (LoadLocation tz (ToLower z)).
Qed.

Lemma NextRun_zone_name_lower_cased_witness :
  NextRun caseSensitiveHost 2 "at 08:30 Europe/Paris" t_2024_01_01_0800
  = Some (Err "unknown TZ: europe/paris")
  /\ NextRun parisHost 2 "at 08:30 Europe/Paris" t_2024_01_01_0800
     = Some (Ok (Date 2024 1 2 7 30 0 0 UTC)).
Proof.
  split.
  - etransitivity.
    + apply (NextRun_zone_name_lower_cased caseSensitiveHost 2
               t_2024_01_01_0800 "at " false "08:30" "Europe/Paris");
        [left | reflexivity ..].
    + reflexivity.
  - etransitivity.
    + apply (NextRun_zone_name_lower_cased parisHost 2
               t_2024_01_01_0800 "at " false "08:30" "Europe/Paris");
        [left | reflexivity ..].
    + reflexivity.
Defined.
